(** * Tag The Habit: a shallow embedding of [image_annotator.py]

    The development follows the layers of the program:
    - Python values the code manipulates (strings, integers, exceptions);
    - [load_config], the configuration validator;
    - the display policy of [display_image] (original pane, resized pane);
    - the annotation store: [save_annotations] and
      [load_previous_annotations] through Python's [csv] module;
    - the session: folder selection, navigation and class selection.

    Python [str] values are modelled by [string], read as the UTF-8 bytes of
    the text: the characters the code inspects (comma, quote, CR, LF, ASCII
    letters of the extensions) are single bytes.  A file name that is not
    UTF-8 reaches Python with each undecodable byte as a lone surrogate
    ([surrogateescape]); it is modelled by its bytes as they are on disk.
    Strings are ordered by code point ([Py.str_compare]), and only text
    that is UTF-8 can be written to or read from a file opened with
    [encoding='utf-8'] ([Utf8.valid]).  Python [int] is [Z]. *)

From Stdlib Require Import ZArith Ascii String List Bool Lia.
From Stdlib Require Import SpecFloat.
From stdpp Require Import base tactics option list sorting gmap strings pretty.

Local Open Scope string_scope.
Local Open Scope Z_scope.

(** ** Python basics *)

Module Py.

(** The built-in exceptions the program can meet.  Each carries its
    message ([str(e)] up to the quoting [KeyError] adds). *)
Inductive exn : Type :=
| FileNotFoundError (msg : string)
| ValueError (msg : string)
| KeyError (msg : string)
| TypeError (msg : string)
| IndexError (msg : string)
| ZeroDivisionError (msg : string)
| OverflowError (msg : string)
| CsvError (msg : string)
| UnicodeDecodeError (msg : string)
| UnicodeEncodeError (msg : string)
| OSError (msg : string)
| MemoryError (msg : string)
| Exception (msg : string).

Definition message (e : exn) : string :=
  match e with
  | FileNotFoundError m | ValueError m | KeyError m
  | TypeError m | IndexError m | ZeroDivisionError m
  | OverflowError m | CsvError m | UnicodeDecodeError m
  | UnicodeEncodeError m | OSError m | MemoryError m | Exception m => m
  end.

(** A computation that returns a value or raises. *)
Inductive result (A : Type) : Type :=
| Ok (a : A)
| Raise (e : exn).
Arguments Ok {A} a.
Arguments Raise {A} e.

Definition bind {A B} (r : result A) (k : A -> result B) : result B :=
  match r with
  | Ok a => k a
  | Raise e => Raise e
  end.

Definition LF : ascii := "010"%char.
Definition CR : ascii := "013"%char.
Definition COMMA : ascii := ","%char.
Definition QUOTE : ascii := "034"%char.

(** [str(n)] for an [int]: decimal digits, with a leading minus sign. *)
Definition str (n : Z) : string := pretty n.

(** [len(l)] *)
Definition len {A} (l : list A) : Z := Z.of_nat (length l).

(** [l[i]] for a list: negative indices count from the end, anything
    outside [-len(l), len(l)) raises [IndexError]. *)
Definition index {A} (l : list A) (i : Z) : result A :=
  let i' := if i <? 0 then i + len l else i in
  if (0 <=? i') && (i' <? len l) then
    match l !! Z.to_nat i' with
    | Some x => Ok x
    | None => Raise (IndexError "list index out of range")
    end
  else Raise (IndexError "list index out of range").

(** [needle in hay] for two strings. *)
Definition contains (needle hay : string) : bool :=
  match String.index 0 needle hay with
  | Some _ => true
  | None => false
  end.

(** [o] raises when it holds an exception. *)
Definition check (o : option exn) : result unit :=
  match o with
  | Some e => Raise e
  | None => Ok tt
  end.

End Py.

Notation "x <- e1 ;; e2" := (Py.bind e1 (fun x => e2))
  (at level 100, e1 at next level, right associativity).

(** ** UTF-8

    The strict decoder of CPython, one byte at a time.  [pending] holds
    the bytes of the sequence under way, first byte first; it is empty
    between two characters. *)

Module Utf8.

(** The length of the sequence a first byte announces; 0 when the byte
    cannot start one. *)
Definition need (b : N) : nat :=
  if (b <? 128)%N then 1
  else if (b <? 194)%N then 0
  else if (b <? 224)%N then 2
  else if (b <? 240)%N then 3
  else if (b <? 245)%N then 4
  else 0.

Definition is_continuation (b : N) : bool := (128 <=? b)%N && (b <? 192)%N.

(** Whether [b] continues the sequence [pending].  After some first bytes
    the second byte has a narrower range: no overlong form, no surrogate,
    nothing above U+10FFFF. *)
Definition continues (pending : list N) (b : N) : bool :=
  is_continuation b &&
  match pending with
  | [lead] =>
      if (lead =? 224)%N then (160 <=? b)%N
      else if (lead =? 237)%N then (b <? 160)%N
      else if (lead =? 240)%N then (144 <=? b)%N
      else if (lead =? 244)%N then (b <? 144)%N
      else true
  | _ => true
  end.

(** One byte more: the sequence under way after it (empty when [b] ends a
    character), or [None] when [b] is refused. *)
Definition step (pending : list N) (b : N) : option (list N) :=
  match pending with
  | [] =>
      match need b with
      | 0%nat => None
      | 1%nat => Some []
      | _ => Some [b]
      end
  | lead :: _ =>
      if continues pending b then
        if (List.length pending + 1 =? need lead)%nat then Some []
        else Some (pending ++ [b])%list
      else None
  end.

(** Where and why the decoder stops: the byte it refuses, and the range
    [first, past) of bytes the exception reports. *)
Record fault : Type := {
  refused : N;
  first : N;
  past : N;
  reason : string
}.

(** Decoding from position [pos]: the first fault, or the sequence left
    under way at the end of the bytes. *)
Fixpoint scan (pending : list N) (pos : N) (s : string) : fault + list N :=
  match s with
  | EmptyString => inr pending
  | String c rest =>
      match step pending (N_of_ascii c) with
      | Some pending' => scan pending' (pos + 1) rest
      | None =>
          inl (match pending with
               | [] => {| refused := pos; first := pos; past := pos + 1;
                          reason := "invalid start byte" |}
               | _ => {| refused := pos;
                         first := pos - N.of_nat (List.length pending); past := pos;
                         reason := "invalid continuation byte" |}
               end)
      end
  end.

(** The bytes are the UTF-8 form of some text. *)
Definition valid (s : string) : bool :=
  match scan [] 0 s with
  | inr [] => true
  | _ => false
  end.

(** The character a complete sequence stands for. *)
Definition scalar (bytes : list N) : N :=
  match bytes with
  | [a] => a
  | [a; b] => (a - 192) * 64 + (b - 128)
  | [a; b; c] => (a - 224) * 4096 + (b - 128) * 64 + (c - 128)
  | [a; b; c; d] => (a - 240) * 262144 + (b - 128) * 4096 + (c - 128) * 64 + (d - 128)
  | _ => 0
  end%N.

(** [surrogateescape]: a byte that is not part of a character becomes the
    lone surrogate U+DC00 + byte. *)
Definition escape (b : N) : N := (56320 + b)%N.

Definition is_escape (point : N) : bool := (56448 <=? point)%N && (point <=? 56575)%N.

(** The code points of the [str] that [os.fsdecode] makes of the bytes: a
    refused byte ends the sequence under way, whose bytes are escaped, and
    is looked at again as a first byte. *)
Fixpoint code_points (pending : list N) (s : string) : list N :=
  match s with
  | EmptyString => escape <$> pending
  | String c rest =>
      let b := N_of_ascii c in
      match step pending b with
      | Some [] => scalar (pending ++ [b])%list :: code_points [] rest
      | Some pending' => code_points pending' rest
      | None =>
          ((escape <$> pending) ++
          match step [] b with
          | Some [] => b :: code_points [] rest
          | Some pending' => code_points pending' rest
          | None => escape b :: code_points [] rest
          end)%list
      end
  end.

(** The bytes of a code point, [os.fsencode]: the inverse of
    [code_points]. *)
Definition encode_point (point : N) : list N :=
  (if is_escape point then [point - 56320]
   else if point <? 128 then [point]
   else if point <? 2048 then [192 + point / 64; 128 + point mod 64]
   else if point <? 65536 then
     [224 + point / 4096; 128 + (point / 64) mod 64; 128 + point mod 64]
   else [240 + point / 262144; 128 + (point / 4096) mod 64;
         128 + (point / 64) mod 64; 128 + point mod 64])%N.

(** Lexicographic order of code points: how Python compares two [str]. *)
Fixpoint compare_points (a b : list N) : comparison :=
  match a, b with
  | [], [] => Eq
  | [], _ :: _ => Lt
  | _ :: _, [] => Gt
  | x :: a', y :: b' =>
      match (x ?= y)%N with
      | Eq => compare_points a' b'
      | c => c
      end
  end.

(** The first [n] characters of a text. *)
Fixpoint prefix (n : nat) (s : string) : string :=
  match s with
  | EmptyString => EmptyString
  | String c rest =>
      if is_continuation (N_of_ascii c) then String c (prefix n rest)
      else match n with
           | O => EmptyString
           | S n' => String c (prefix n' rest)
           end
  end.

Definition hex_digit (n : N) : ascii :=
  match String.get (N.to_nat n) "0123456789abcdef" with
  | Some c => c
  | None => "0"%char
  end.

(** [%02x] *)
Definition hex2 (b : N) : string :=
  String (hex_digit (b / 16)) (String (hex_digit (b mod 16)) EmptyString).

Definition byte_at (s : string) (i : N) : N :=
  match String.get (N.to_nat i) s with
  | Some c => N_of_ascii c
  | None => 0%N
  end.

(** [str(e)] for the [UnicodeDecodeError] of the bytes [first, past) of
    [s], in an input that starts at byte [base] of [s]. *)
Definition decode_message (s : string) (base first past : N) (why : string) : string :=
  if (past - first =? 1)%N then
    "'utf-8' codec can't decode byte 0x" +:+ hex2 (byte_at s first)
    +:+ " in position " +:+ pretty (first - base)%N +:+ ": " +:+ why
  else
    "'utf-8' codec can't decode bytes in position " +:+ pretty (first - base)%N
    +:+ "-" +:+ pretty (past - 1 - base)%N +:+ ": " +:+ why.

(** The first escaped byte among the code points, from index [i] on, and
    the number of escaped bytes that follow it at once. *)
Fixpoint escapes (points : list N) : nat :=
  match points with
  | p :: rest => if is_escape p then S (escapes rest) else O
  | [] => O
  end.

Fixpoint first_escape (i : N) (points : list N) : option (N * N * nat) :=
  match points with
  | [] => None
  | p :: rest =>
      if is_escape p then Some (i, p, escapes rest)
      else first_escape (i + 1)%N rest
  end.

(** [str(e)] for the [UnicodeEncodeError] of a text that holds an escaped
    byte. *)
Definition encode_message (s : string) : string :=
  match first_escape 0%N (code_points [] s) with
  | Some (i, p, O) =>
      "'utf-8' codec can't encode character '" +:+ String "092"%char "udc"
      +:+ hex2 (p - 56320)%N +:+ "' in position " +:+ pretty i
      +:+ ": surrogates not allowed"
  | Some (i, _, S n) =>
      "'utf-8' codec can't encode characters in position " +:+ pretty i
      +:+ "-" +:+ pretty (i + N.of_nat (S n))%N +:+ ": surrogates not allowed"
  | None => EmptyString
  end.

End Utf8.

(** How Python orders two [str]. *)
Definition str_compare (a b : string) : comparison :=
  Utf8.compare_points (Utf8.code_points [] a) (Utf8.code_points [] b).

Definition str_leb (a b : string) : bool :=
  match str_compare a b with
  | Gt => false
  | _ => true
  end.

Definition str_le (a b : string) : Prop := str_leb a b = true.

#[global] Instance str_le_dec : RelDecision str_le :=
  fun a b => decide (str_leb a b = true).

Definition BACKSLASH : ascii := "092"%char.

(** [repr(text)] for a [str]: single quotes, or double quotes when the text
    has a single quote and no double one; the quote in use and the
    backslash are escaped, so are the control characters.  Characters
    outside ASCII are copied, as [repr] does with the printable ones; the
    program applies [repr] to its own keys and to cells read from the
    store. *)
Definition repr_char (quote c : ascii) : string :=
  let n := N_of_ascii c in
  if Ascii.eqb c quote || Ascii.eqb c BACKSLASH then String BACKSLASH (String c EmptyString)
  else if (n =? 9)%N then String BACKSLASH "t"
  else if (n =? 10)%N then String BACKSLASH "n"
  else if (n =? 13)%N then String BACKSLASH "r"
  else if (n <? 32)%N || (n =? 127)%N then String BACKSLASH "x" +:+ Utf8.hex2 n
  else String c EmptyString.

Fixpoint repr_chars (quote : ascii) (text : string) : string :=
  match text with
  | EmptyString => EmptyString
  | String c rest => repr_char quote c +:+ repr_chars quote rest
  end.

Definition repr (text : string) : string :=
  let quote :=
    if Py.contains "'" text && negb (Py.contains (String Py.QUOTE EmptyString) text)
    then Py.QUOTE else "'"%char in
  String quote (repr_chars quote text +:+ String quote EmptyString).

(** [str(e)]: the message the exception was made with; a [KeyError] gives
    the [repr] of its key. *)
Definition str_exn (e : Py.exn) : string :=
  match e with
  | Py.KeyError key => repr key
  | _ => Py.message e
  end.

(** ** Configuration (load_config) *)

(** What [json.load] produces. *)
#[warnings="-register-all"] Inductive json : Type :=
| JNull
| JBool (b : bool)
| JInt (n : Z)
| JFloat (x : spec_float)
| JStr (s : string)
| JList (l : list json)
| JObj (fields : list (string * json)).

(** The attributes [load_config] sets, as found in the payload.  Only
    [classes] is inspected; the three others are stored unchanged. *)
Module Cfg.
Record t : Type := {
  classes : list json;
  annotations_file : json;
  resized_image_size : json;
  max_display_size : json
}.
End Cfg.

Definition required_msg (field : string) : string :=
  "The '" +:+ field +:+ "' field is required in the configuration file.".

Definition classes_type_msg : string :=
  "The 'classes' field must be a list of strings.".

Definition classes_empty_msg : string :=
  "The configuration file must contain at least one class.".

Definition classes_many_msg (n : Z) : string :=
  "Number of classes must not exceed 9 (currently " +:+ Py.str n +:+ ")."
  +:+ String Py.LF "Keyboard shortcuts are limited to keys 1-9.".

(** [config[key]] guarded by [if key not in config: raise KeyError]. *)
Definition require (config : gmap string json) (key : string) : Py.result json :=
  match config !! key with
  | Some v => Py.Ok v
  | None => Py.Raise (Py.KeyError (required_msg key))
  end.

(** What [load_config] finds at the path of [config.json]: no file, a file
    [json.load] rejects, a file that cannot be read, or the mapping
    [json.load] returned (a JSON object). *)
Inductive config_file : Type :=
| Absent (path : string)
| NotJson (error : string)
| Unreadable (error : string)
| Parsed (config : gmap string json).

Definition not_found_msg (path : string) : string :=
  "Configuration file '" +:+ path +:+ "' not found."
  +:+ String Py.LF
  "Please create a config.json file in the same directory as the script.".

Definition not_json_msg (error : string) : string :=
  "JSON format error in configuration file: " +:+ error
  +:+ String Py.LF "Please verify that config.json is valid JSON.".

(** [load_config] *)
Definition load_config (file : config_file) : Py.result Cfg.t :=
  match file with
  | Absent path => Py.Raise (Py.FileNotFoundError (not_found_msg path))
  | NotJson error => Py.Raise (Py.ValueError (not_json_msg error))
  | Unreadable error =>
      Py.Raise (Py.Exception ("Error reading configuration file: " +:+ error))
  | Parsed config =>
      cls <- require config "classes" ;;
      match cls with
      | JList l =>
          if Py.len l =? 0 then Py.Raise (Py.ValueError classes_empty_msg)
          else if Py.len l >? 9 then
            Py.Raise (Py.ValueError (classes_many_msg (Py.len l)))
          else
            af <- require config "annotations_file" ;;
            rs <- require config "resized_image_size" ;;
            ms <- require config "max_original_display_size" ;;
            Py.Ok {| Cfg.classes := l; Cfg.annotations_file := af;
                     Cfg.resized_image_size := rs; Cfg.max_display_size := ms |}
      | _ => Py.Raise (Py.TypeError classes_type_msg)
      end
  end.

(** The message names [field] when it quotes it the way the source does. *)
Definition names_field (field : string) (e : Py.exn) : bool :=
  Py.contains ("'" +:+ field +:+ "'") (Py.message e).

Definition required_keys : list string :=
  ["classes"; "annotations_file"; "resized_image_size";
   "max_original_display_size"].

(** ** Python floats

    CPython's [float] is IEEE 754 binary64; its operations are the correctly
    rounded ones, which [SpecFloat] defines over [Z].  Integers are converted
    as Python converts them (exactly, below 2^53). *)

Module Float.

Definition prec : Z := 53.
Definition emax : Z := 1024.

(** [float(n)] *)
Definition of_int (n : Z) : spec_float := binary_normalize prec emax n 0 false.

Definition is_zero (x : spec_float) : bool :=
  match x with S754_zero _ => true | _ => false end.

(** [a / b] on two floats *)
Definition div (a b : spec_float) : Py.result spec_float :=
  if is_zero b then Py.Raise (Py.ZeroDivisionError "float division by zero")
  else Py.Ok (SFdiv prec emax a b).

(** [a / b] on two ints (true division) *)
Definition truediv (a b : Z) : Py.result spec_float :=
  if b =? 0 then Py.Raise (Py.ZeroDivisionError "division by zero")
  else Py.Ok (SFdiv prec emax (of_int a) (of_int b)).

Definition mul (a b : spec_float) : spec_float := SFmul prec emax a b.
Definition sub (a b : spec_float) : spec_float := SFsub prec emax a b.
Definition abs (a : spec_float) : spec_float := SFabs a.
Definition ltb (a b : spec_float) : bool := SFltb a b.
Definition leb (a b : spec_float) : bool := SFleb a b.

(** The integer part and whether something is left, for a finite
    magnitude [m * 2^e]. *)
Definition magnitude (m : positive) (e : Z) : Z * bool :=
  if 0 <=? e then (Z.pos m * 2 ^ e, true)
  else (Z.pos m / 2 ^ (- e), Z.pos m mod 2 ^ (- e) =? 0).

Definition not_finite {A} (x : spec_float) : Py.result A :=
  match x with
  | S754_nan => Py.Raise (Py.ValueError "cannot convert float NaN to integer")
  | _ => Py.Raise (Py.OverflowError "cannot convert float infinity to integer")
  end.

(** [int(x)]: truncation towards zero *)
Definition to_int (x : spec_float) : Py.result Z :=
  match x with
  | S754_zero _ => Py.Ok 0
  | S754_finite s m e =>
      let q := fst (magnitude m e) in Py.Ok (if s then - q else q)
  | _ => not_finite x
  end.

(** [math.floor(x)] *)
Definition floor (x : spec_float) : Py.result Z :=
  match x with
  | S754_zero _ => Py.Ok 0
  | S754_finite s m e =>
      let '(q, exact) := magnitude m e in
      Py.Ok (if s then (if exact then - q else - q - 1) else q)
  | _ => not_finite x
  end.

(** [math.ceil(x)] *)
Definition ceil (x : spec_float) : Py.result Z :=
  match x with
  | S754_zero _ => Py.Ok 0
  | S754_finite s m e =>
      let '(q, exact) := magnitude m e in
      Py.Ok (if s then - q else (if exact then q else q + 1))
  | _ => not_finite x
  end.

End Float.

(** ** Display policy (display_image)

    The attributes of the running [ImageAnnotator] the rest of the program
    reads, at the types it uses them: class labels are strings, sizes are
    integers.  The payload values [load_config] stored are not checked to
    have these types; see [settings_of]. *)
Record Settings : Type := {
  classes : list string;
  resized_image_size : Z;
  max_display_size : Z
}.

Definition json_str (v : json) : option string :=
  match v with JStr s => Some s | _ => None end.

Definition json_int (v : json) : option Z :=
  match v with JInt n => Some n | _ => None end.

(** The typed view of a loaded configuration, when it has one. *)
Definition settings_of (c : Cfg.t) : option Settings :=
  cs ← mapM json_str (Cfg.classes c);
  rs ← json_int (Cfg.resized_image_size c);
  ms ← json_int (Cfg.max_display_size c);
  Some {| classes := cs; resized_image_size := rs; max_display_size := ms |}.

(** What the left pane ("Original Size") is configured with: the bitmap at
    its native size, or a text. *)
Inductive original_pane : Type :=
| ShowImage (width height : Z)
| ShowMessage (text : string).

Definition too_large_message (w h : Z) : string :=
  "Image too large" +:+ String Py.LF "(" +:+ Py.str w +:+ "x" +:+ Py.str h
  +:+ "px)" +:+ String Py.LF (String Py.LF "→ See resized")
  +:+ String Py.LF "version".

(** The first [if] of [display_image]: original or message. *)
Definition decide_original_display (self : Settings) (w h : Z) : original_pane :=
  let max_original_side := Z.max w h in
  if max_original_side <=? resized_image_size self then ShowImage w h
  else ShowMessage (too_large_message w h).

(** Pillow, as the releases that provide [Image.Resampling] behave: what
    [Image.resize] and [Image.thumbnail] do to the size of an image. *)
Module Pillow.

(** [im.resize(new)] on an image of size [old]: a copy when the size is
    the same, an error when a side is below 1. *)
Definition resize (old new : Z * Z) : Py.result (Z * Z) :=
  if decide (new = old) then Py.Ok old
  else if (fst new <? 1) || (snd new <? 1) then
    Py.Raise (Py.ValueError "height and width must be > 0")
  else Py.Ok new.

(** [min(floor(number), ceil(number), key=key)], then [max(_, 1)] *)
Definition round_aspect (number : spec_float)
    (key : Z -> Py.result spec_float) : Py.result Z :=
  lo <- Float.floor number ;;
  hi <- Float.ceil number ;;
  klo <- key lo ;;
  khi <- key hi ;;
  Py.Ok (Z.max (if Float.ltb khi klo then hi else lo) 1).

(** [preserve_aspect_ratio()] inside [thumbnail((x, y))]: [None] when the
    image of size [(w, h)] already fits. *)
Definition preserve_aspect_ratio (w h : Z) (x y : Z) : Py.result (option (Z * Z)) :=
  if (w <=? x) && (h <=? y) then Py.Ok None
  else
    aspect <- Float.truediv w h ;;
    ratio <- Float.truediv x y ;;
    if Float.leb aspect ratio then
      x' <- round_aspect (Float.mul (Float.of_int y) aspect)
              (fun n => q <- Float.truediv n y ;;
                        Py.Ok (Float.abs (Float.sub aspect q))) ;;
      Py.Ok (Some (x', y))
    else
      number <- Float.div (Float.of_int x) aspect ;;
      y' <- round_aspect number
              (fun n => if n =? 0 then Py.Ok (Float.of_int 0)
                        else q <- Float.truediv x n ;;
                             Py.Ok (Float.abs (Float.sub aspect q))) ;;
      Py.Ok (Some (x, y')).

(** The size of the image after [im.thumbnail((x, y))]. *)
Definition thumbnail (w h : Z) (x y : Z) : Py.result (Z * Z) :=
  final_size <- preserve_aspect_ratio w h x y ;;
  match final_size with
  | None => Py.Ok (w, h)
  | Some size => resize (w, h) size
  end.

End Pillow.

(** The size of the right pane's bitmap: the second [if]/[elif] of
    [display_image]. *)
Definition decide_preview (self : Settings) (w h : Z) : Py.result (Z * Z) :=
  let max_original_side := Z.max w h in
  if max_original_side <? resized_image_size self then
    scale <- Float.truediv (resized_image_size self) max_original_side ;;
    new_width <- Float.to_int (Float.mul (Float.of_int w) scale) ;;
    new_height <- Float.to_int (Float.mul (Float.of_int h) scale) ;;
    Pillow.resize (w, h) (new_width, new_height)
  else if max_original_side >? resized_image_size self then
    Pillow.thumbnail w h (resized_image_size self) (resized_image_size self)
  else Py.Ok (w, h).

(** An image file as [Image.open] gives it: its size, read from the header,
    and what the calls that work on its pixels do.  The pixels are decoded
    at the first such call, and each call allocates: any of them can
    raise. *)
Module Image.
Record t : Type := {
  size : Z * Z;
  (* [ImageTk.PhotoImage(img_original)] *)
  photo_original : option Py.exn;
  (* [img_original.copy()] *)
  copy : option Py.exn;
  (* the pixel work of [resize] or [thumbnail] towards a size *)
  resample : Z * Z -> option Py.exn;
  (* [ImageTk.PhotoImage(img_resized)] *)
  photo_resized : Z * Z -> option Py.exn
}.
End Image.

(** The first [if] of [display_image] with its calls: what the left pane
    is configured with, once the bitmap is made when one is shown. *)
Definition left_pane (self : Settings) (img : Image.t) : Py.result original_pane :=
  let '(w, h) := Image.size img in
  match decide_original_display self w h with
  | ShowImage w' h' =>
      _ <- Py.check (Image.photo_original img) ;; Py.Ok (ShowImage w' h')
  | ShowMessage text => Py.Ok (ShowMessage text)
  end.

(** From [img_original.copy()] to the bitmap of the right pane: the size
    of the preview. *)
Definition right_pane (self : Settings) (img : Image.t) : Py.result (Z * Z) :=
  let '(w, h) := Image.size img in
  _ <- Py.check (Image.copy img) ;;
  resized_size <- decide_preview self w h ;;
  _ <- (if Z.max w h =? resized_image_size self then Py.Ok tt
        else Py.check (Image.resample img resized_size)) ;;
  _ <- Py.check (Image.photo_resized img resized_size) ;;
  Py.Ok resized_size.

(** An image of the given size on which every call passes. *)
Definition sound_image (w h : Z) : Image.t :=
  {| Image.size := (w, h); Image.photo_original := None; Image.copy := None;
     Image.resample := fun _ => None; Image.photo_resized := fun _ => None |}.

(** What the spec's wording asks of the left pane: the bound is
    [max_original_display_size]. *)
Definition decide_original_display_by_max (self : Settings) (w h : Z) : original_pane :=
  if Z.max w h <=? max_display_size self then ShowImage w h
  else ShowMessage (too_large_message w h).

(** ** Python's [csv] module, default ("excel") dialect

    delimiter comma, quotechar the double quote, doublequote, no escapechar, no
    skipinitialspace, lineterminator CR LF, QUOTE_MINIMAL, not strict.
    Resource limits ([csv.field_size_limit]) are not modelled. *)

Module Csv.

(** *** Writer *)

(** Characters that force a field to be quoted. *)
Definition special (c : ascii) : bool :=
  Ascii.eqb c Py.COMMA || Ascii.eqb c Py.QUOTE
  || Ascii.eqb c Py.LF || Ascii.eqb c Py.CR.

Fixpoint has_special (s : string) : bool :=
  match s with
  | EmptyString => false
  | String c s' => special c || has_special s'
  end.

(** The quote character is written twice inside a quoted field. *)
Fixpoint escape (s : string) : string :=
  match s with
  | EmptyString => EmptyString
  | String c s' =>
      if Ascii.eqb c Py.QUOTE then String c (String c (escape s'))
      else String c (escape s')
  end.

Definition field_text (s : string) : string :=
  if has_special s then String Py.QUOTE (escape s +:+ String Py.QUOTE EmptyString)
  else s.

Fixpoint join (fields : list string) : string :=
  match fields with
  | [] => EmptyString
  | [f] => field_text f
  | f :: fs => field_text f +:+ String Py.COMMA (join fs)
  end.

Definition lineterminator : string := String Py.CR (String Py.LF EmptyString).

(** [writer.writerow(fields)]: the text appended to the file.  A record
    made of one empty field is written as two quotes. *)
Definition writerow (fields : list string) : string :=
  let rec := join fields in
  match fields, rec with
  | _ :: _, EmptyString =>
      String Py.QUOTE (String Py.QUOTE EmptyString) +:+ lineterminator
  | _, _ => rec +:+ lineterminator
  end.

(** *** Reader *)

Inductive state : Type :=
| START_RECORD
| START_FIELD
| IN_FIELD
| IN_QUOTED_FIELD
| QUOTE_IN_QUOTED_FIELD
| EAT_CRNL.

(** What [parse_process_char] is called with: a character of the line, or
    the end-of-line mark after its last character. *)
Inductive input : Type :=
| Char (c : ascii)
| EOL.

Record parser : Type := {
  st : state;
  field : string;
  fields : list string
}.

Definition parse_reset : parser :=
  {| st := START_RECORD; field := EmptyString; fields := [] |}.

Definition set_state (p : parser) (s : state) : parser :=
  {| st := s; field := field p; fields := fields p |}.

Definition parse_save_field (p : parser) : parser :=
  {| st := st p; field := EmptyString; fields := fields p ++ [field p] |}.

Definition parse_add_char (p : parser) (c : ascii) : parser :=
  {| st := st p; field := field p +:+ String c EmptyString; fields := fields p |}.

Definition is_newline (c : ascii) : bool :=
  Ascii.eqb c Py.LF || Ascii.eqb c Py.CR.

Definition start_field (p : parser) (c : input) : parser :=
  match c with
  | EOL => set_state (parse_save_field p) START_RECORD
  | Char a =>
      if is_newline a then set_state (parse_save_field p) EAT_CRNL
      else if Ascii.eqb a Py.QUOTE then set_state p IN_QUOTED_FIELD
      else if Ascii.eqb a Py.COMMA then set_state (parse_save_field p) START_FIELD
      else set_state (parse_add_char p a) IN_FIELD
  end.

Definition parse_process_char (p : parser) (c : input) : Py.result parser :=
  match st p with
  | START_RECORD =>
      match c with
      | EOL => Py.Ok p
      | Char a =>
          if is_newline a then Py.Ok (set_state p EAT_CRNL)
          else Py.Ok (start_field p c)
      end
  | START_FIELD => Py.Ok (start_field p c)
  | IN_FIELD =>
      match c with
      | EOL => Py.Ok (set_state (parse_save_field p) START_RECORD)
      | Char a =>
          if is_newline a then Py.Ok (set_state (parse_save_field p) EAT_CRNL)
          else if Ascii.eqb a Py.COMMA then
            Py.Ok (set_state (parse_save_field p) START_FIELD)
          else Py.Ok (parse_add_char p a)
      end
  | IN_QUOTED_FIELD =>
      match c with
      | EOL => Py.Ok p
      | Char a =>
          if Ascii.eqb a Py.QUOTE then Py.Ok (set_state p QUOTE_IN_QUOTED_FIELD)
          else Py.Ok (parse_add_char p a)
      end
  | QUOTE_IN_QUOTED_FIELD =>
      match c with
      | EOL => Py.Ok (set_state (parse_save_field p) START_RECORD)
      | Char a =>
          if Ascii.eqb a Py.QUOTE then
            Py.Ok (set_state (parse_add_char p a) IN_QUOTED_FIELD)
          else if Ascii.eqb a Py.COMMA then
            Py.Ok (set_state (parse_save_field p) START_FIELD)
          else if is_newline a then
            Py.Ok (set_state (parse_save_field p) EAT_CRNL)
          else Py.Ok (set_state (parse_add_char p a) IN_FIELD)
      end
  | EAT_CRNL =>
      match c with
      | EOL => Py.Ok (set_state p START_RECORD)
      | Char a =>
          if is_newline a then Py.Ok p
          else Py.Raise (Py.CsvError
            "new-line character seen in unquoted field - do you need to open the file with newline=''?")
      end
  end.

(** One line of the file: its characters, then the end-of-line mark. *)
Fixpoint feed_line (p : parser) (line : string) : Py.result parser :=
  match line with
  | EmptyString => parse_process_char p EOL
  | String c rest => p' <- parse_process_char p (Char c) ;; feed_line p' rest
  end.

Definition is_start_record (s : state) : bool :=
  match s with START_RECORD => true | _ => false end.

Definition is_in_quoted_field (s : state) : bool :=
  match s with IN_QUOTED_FIELD => true | _ => false end.

Definition is_empty (s : string) : bool :=
  match s with EmptyString => true | _ => false end.

(** All the records [csv.reader(lines)] yields: lines are consumed until
    the parser is back at the start of a record; when the lines run out
    inside a record, what was read is yielded. *)
Fixpoint records (p : parser) (lines : list string) : Py.result (list (list string)) :=
  match lines with
  | [] =>
      if negb (is_empty (field p)) || is_in_quoted_field (st p)
      then Py.Ok [fields (parse_save_field p)]
      else Py.Ok []
  | line :: rest =>
      p' <- feed_line p line ;;
      if is_start_record (st p') then
        rows <- records parse_reset rest ;; Py.Ok (fields p' :: rows)
      else records p' rest
  end.

Definition reader (lines : list string) : Py.result (list (list string)) :=
  records parse_reset lines.

(** The records the reader has yielded when the lines stop coming because
    reading the file raised: a record under way is not yielded. *)
Fixpoint yielded (p : parser) (lines : list string) : Py.result (list (list string)) :=
  match lines with
  | [] => Py.Ok []
  | line :: rest =>
      p' <- feed_line p line ;;
      if is_start_record (st p') then
        rows <- yielded parse_reset rest ;; Py.Ok (fields p' :: rows)
      else yielded p' rest
  end.

(** *** DictReader *)

(** The position of the last occurrence of [key] in [names]. *)
Fixpoint last_position (key : string) (names : list string) : option nat :=
  match names with
  | [] => None
  | n :: ns =>
      match last_position key ns with
      | Some i => Some (S i)
      | None => if String.eqb n key then Some 0%nat else None
      end
  end.

(** [row[key]] for a row of [DictReader]: [None] when the column is not
    in the header ([KeyError]); otherwise the cell, or Python's [None]
    ([restval]) when the record is too short to have it. *)
Definition getitem (fieldnames record : list string) (key : string)
    : option (option string) :=
  match last_position key fieldnames with
  | None => None
  | Some i => Some (record !! i)
  end.

Definition is_blank (record : list string) : bool :=
  match record with [] => true | _ => false end.

(** The header and the rows [DictReader] iterates over: the first record
    read is the header, blank records after it are skipped. *)
Definition dict_rows (recs : list (list string)) : list string * list (list string) :=
  match recs with
  | [] => ([], [])
  | fieldnames :: rest => (fieldnames, filter (fun r => is_blank r = false) rest)
  end.

End Csv.

(** ** Text files *)

Module TextIO.

(** Reading with [open(path, 'r')]: universal newlines.  CR LF and a lone
    CR both arrive as LF; [pendingcr] tells that the previous character
    was a CR. *)
Fixpoint universal_newlines (pendingcr : bool) (s : string) : string :=
  match s with
  | EmptyString => EmptyString
  | String c s' =>
      if Ascii.eqb c Py.CR then String Py.LF (universal_newlines true s')
      else if Ascii.eqb c Py.LF then
        if pendingcr then universal_newlines false s'
        else String Py.LF (universal_newlines false s')
      else String c (universal_newlines false s')
  end.

(** Iterating over the file: lines, each with its final LF. *)
Fixpoint readlines (s : string) : list string :=
  match s with
  | EmptyString => []
  | String c s' =>
      if Ascii.eqb c Py.LF then String c EmptyString :: readlines s'
      else match readlines s' with
           | [] => [String c EmptyString]
           | l :: ls => String c l :: ls
           end
  end.

(** The lines [for line in open(path, 'r')] yields. *)
Definition read_text_lines (content : string) : list string :=
  readlines (universal_newlines false content).

(** *** The encoding, [encoding='utf-8'] *)

(** [f.write(text)] on a file that holds [f]: the text is encoded when it
    is written. *)
Definition write (f text : string) : Py.result string :=
  if Utf8.valid text then Py.Ok (f +:+ text)
  else Py.Raise (Py.UnicodeEncodeError (Utf8.encode_message text)).

(** The file is read [CHUNK_SIZE] bytes at a time, and each chunk is
    decoded when it is read; a sequence cut by the end of a chunk waits
    for the next one. *)
Definition CHUNK_SIZE : N := 8192.

Definition take (n : N) (s : string) : string := String.substring 0 (N.to_nat n) s.

(** The number of bytes waiting after the first [n] bytes were decoded. *)
Definition waiting (content : string) (n : N) : N :=
  match Utf8.scan [] 0 (take n content) with
  | inr pending => N.of_nat (List.length pending)
  | inl _ => 0
  end.

(** The first byte of an encoded surrogate (ED, then A0 to BF) whose
    second byte is the last one of a chunk or of the file: the decoder
    takes it for a sequence cut short, and refuses it at the next read. *)
Definition cut_surrogate (content : string) (ft : Utf8.fault) : bool :=
  (Utf8.refused ft - Utf8.first ft =? 1)%N
  && (Utf8.byte_at content (Utf8.first ft) =? 237)%N
  && (160 <=? Utf8.byte_at content (Utf8.refused ft))%N
  && (Utf8.byte_at content (Utf8.refused ft) <=? 191)%N
  && (((Utf8.refused ft + 1) mod CHUNK_SIZE =? 0)%N
      || (Utf8.refused ft + 1 =? N.of_nat (String.length content))%N).

(** When the file is not UTF-8: the bytes decoded before the read that
    fails, and the exception of that read.  [None] when the whole file
    decodes. *)
Definition read_fault (content : string) : option (string * Py.exn) :=
  match Utf8.scan [] 0 content with
  | inr [] => None
  | inr pending =>
      let n := N.of_nat (String.length content) in
      let base := (n - N.of_nat (List.length pending))%N in
      Some (take base content,
            Py.UnicodeDecodeError
              (Utf8.decode_message content base base n "unexpected end of data"))
  | inl ft =>
      let base :=
        if cut_surrogate content ft then Utf8.first ft
        else
          let chunk := (CHUNK_SIZE * (Utf8.refused ft / CHUNK_SIZE))%N in
          (chunk - waiting content chunk)%N in
      Some (take base content,
            Py.UnicodeDecodeError
              (Utf8.decode_message content base (Utf8.first ft) (Utf8.past ft)
                 (Utf8.reason ft)))
  end.

Fixpoint ends_with_newline (line : string) : bool :=
  match line with
  | EmptyString => false
  | String c EmptyString => Ascii.eqb c Py.LF
  | String _ rest => ends_with_newline rest
  end.

Fixpoint without_last_cr (s : string) : string :=
  match s with
  | EmptyString => EmptyString
  | String c EmptyString => if Ascii.eqb c Py.CR then EmptyString else s
  | String c rest => String c (without_last_cr rest)
  end.

(** The lines the file has yielded when a read fails after [text] was
    decoded: the complete ones; a CR at the very end still waits for the
    character after it. *)
Definition complete_lines (text : string) : list string :=
  filter (fun line => ends_with_newline line = true)
         (readlines (universal_newlines false (without_last_cr text))).

End TextIO.

(** ** The annotator: store and session *)

(** Message boxes shown to the operator. *)
Inductive dialog : Type :=
| ShowWarning (title message : string)
| ShowError (title message : string).

(** The attributes of [ImageAnnotator] that change, the widgets it
    configures, and the world it acts on: the annotations file ([None]
    while it does not exist) and the dialogs shown so far.

    The keys of [annotations] are what [row['filename']] can be: a string,
    or Python's [None] when a record of the store is too short to have the
    column. *)
Record State : Type := {
  image_folder : string;
  images : list string;
  current_index : Z;
  annotations : gmap (option string) Z;
  selected_class : Z;
  original_display : original_pane;
  resized_image_label : option (Z * Z);
  filename_label : string;
  progress_label : string;
  stats_labels : list string;
  store : option string;
  dialogs : list dialog
}.

Definition set_image_folder (v : string) (s : State) : State :=
  {| image_folder := v; images := images s; current_index := current_index s;
     annotations := annotations s; selected_class := selected_class s;
     original_display := original_display s;
     resized_image_label := resized_image_label s;
     filename_label := filename_label s; progress_label := progress_label s;
     stats_labels := stats_labels s; store := store s; dialogs := dialogs s |}.

Definition set_images (v : list string) (s : State) : State :=
  {| image_folder := image_folder s; images := v; current_index := current_index s;
     annotations := annotations s; selected_class := selected_class s;
     original_display := original_display s;
     resized_image_label := resized_image_label s;
     filename_label := filename_label s; progress_label := progress_label s;
     stats_labels := stats_labels s; store := store s; dialogs := dialogs s |}.

Definition set_current_index (v : Z) (s : State) : State :=
  {| image_folder := image_folder s; images := images s; current_index := v;
     annotations := annotations s; selected_class := selected_class s;
     original_display := original_display s;
     resized_image_label := resized_image_label s;
     filename_label := filename_label s; progress_label := progress_label s;
     stats_labels := stats_labels s; store := store s; dialogs := dialogs s |}.

Definition set_annotations (v : gmap (option string) Z) (s : State) : State :=
  {| image_folder := image_folder s; images := images s;
     current_index := current_index s;
     annotations := v; selected_class := selected_class s;
     original_display := original_display s;
     resized_image_label := resized_image_label s;
     filename_label := filename_label s; progress_label := progress_label s;
     stats_labels := stats_labels s; store := store s; dialogs := dialogs s |}.

Definition set_selected_class (v : Z) (s : State) : State :=
  {| image_folder := image_folder s; images := images s;
     current_index := current_index s;
     annotations := annotations s; selected_class := v;
     original_display := original_display s;
     resized_image_label := resized_image_label s;
     filename_label := filename_label s; progress_label := progress_label s;
     stats_labels := stats_labels s; store := store s; dialogs := dialogs s |}.

Definition set_original_display (v : original_pane) (s : State) : State :=
  {| image_folder := image_folder s; images := images s;
     current_index := current_index s;
     annotations := annotations s; selected_class := selected_class s;
     original_display := v;
     resized_image_label := resized_image_label s;
     filename_label := filename_label s; progress_label := progress_label s;
     stats_labels := stats_labels s; store := store s; dialogs := dialogs s |}.

Definition set_resized_image_label (v : option (Z * Z)) (s : State) : State :=
  {| image_folder := image_folder s; images := images s;
     current_index := current_index s;
     annotations := annotations s; selected_class := selected_class s;
     original_display := original_display s;
     resized_image_label := v;
     filename_label := filename_label s; progress_label := progress_label s;
     stats_labels := stats_labels s; store := store s; dialogs := dialogs s |}.

Definition set_filename_label (v : string) (s : State) : State :=
  {| image_folder := image_folder s; images := images s;
     current_index := current_index s;
     annotations := annotations s; selected_class := selected_class s;
     original_display := original_display s;
     resized_image_label := resized_image_label s;
     filename_label := v; progress_label := progress_label s;
     stats_labels := stats_labels s; store := store s; dialogs := dialogs s |}.

Definition set_progress_label (v : string) (s : State) : State :=
  {| image_folder := image_folder s; images := images s;
     current_index := current_index s;
     annotations := annotations s; selected_class := selected_class s;
     original_display := original_display s;
     resized_image_label := resized_image_label s;
     filename_label := filename_label s; progress_label := v;
     stats_labels := stats_labels s; store := store s; dialogs := dialogs s |}.

Definition set_stats_labels (v : list string) (s : State) : State :=
  {| image_folder := image_folder s; images := images s;
     current_index := current_index s;
     annotations := annotations s; selected_class := selected_class s;
     original_display := original_display s;
     resized_image_label := resized_image_label s;
     filename_label := filename_label s; progress_label := progress_label s;
     stats_labels := v; store := store s; dialogs := dialogs s |}.

Definition set_store (v : option string) (s : State) : State :=
  {| image_folder := image_folder s; images := images s;
     current_index := current_index s;
     annotations := annotations s; selected_class := selected_class s;
     original_display := original_display s;
     resized_image_label := resized_image_label s;
     filename_label := filename_label s; progress_label := progress_label s;
     stats_labels := stats_labels s; store := v; dialogs := dialogs s |}.

Definition show (d : dialog) (s : State) : State :=
  {| image_folder := image_folder s; images := images s;
     current_index := current_index s;
     annotations := annotations s; selected_class := selected_class s;
     original_display := original_display s;
     resized_image_label := resized_image_label s;
     filename_label := filename_label s; progress_label := progress_label s;
     stats_labels := stats_labels s; store := store s;
     dialogs := dialogs s ++ [d] |}.

(** How a method ends: it returns, or an exception leaves it.  Either way
    the state it reached stays (Tk reports the exception of a callback and
    goes on with the event loop). *)
Inductive outcome : Type :=
| Returned (s : State)
| Raised (e : Py.exn) (s : State).

Definition state_of (o : outcome) : State :=
  match o with Returned s | Raised _ s => s end.

Definition and_then (o : outcome) (k : State -> outcome) : outcome :=
  match o with
  | Returned s => k s
  | Raised e s => Raised e s
  end.

(** Order of [(filename, class_idx)] tuples; strings are ordered by code
    point. *)

Definition item_leb (x y : string * Z) : bool :=
  match str_compare (fst x) (fst y) with
  | Lt => true
  | Eq => snd x <=? snd y
  | Gt => false
  end.

Definition item_le (x y : string * Z) : Prop := item_leb x y = true.

#[global] Instance item_le_dec : RelDecision item_le :=
  fun x y => decide (item_leb x y = true).

(** The store's header row. *)
Definition header : list string := ["filename"; "class_index"; "class_name"].

(** File extensions [load_images] keeps. *)
Definition extensions : list string :=
  [".png"; ".jpg"; ".jpeg"; ".bmp"; ".gif"; ".tiff"].

(** [c.lower()] on ASCII letters. *)
Definition lower_ascii (c : ascii) : ascii :=
  let n := N_of_ascii c in
  if ((65 <=? n) && (n <=? 90))%N then ascii_of_N (n + 32) else c.

Fixpoint lower (s : string) : string :=
  match s with
  | EmptyString => EmptyString
  | String c s' => String (lower_ascii c) (lower s')
  end.

(** [s.endswith(suffix)] *)
Definition endswith (s suffix : string) : bool :=
  let n := String.length s in
  let k := String.length suffix in
  (k <=? n)%nat && String.eqb (String.substring (n - k) k s) suffix.

Definition is_image_name (f : string) : bool :=
  existsb (endswith (lower f)) extensions.

Section Annotator.

(** The configuration, fixed once loaded. *)
Variable self : Settings.

(** [int(text)]: the integer read, or [None] for the [ValueError] of an
    invalid literal.  Python accepts many spellings (blanks around, a sign,
    underscores, any decimal digits of Unicode); the program is modelled
    for any such reading.  The limit on the number of digits
    ([sys.set_int_max_str_digits]) is taken to be lifted. *)
Variable int : string -> option Z.

(** [Image.open] on a file of a folder: the image, or the exception raised
    instead. *)
Variable open_image : string -> string -> Py.result Image.t.

Definition progress_text (s : State) : string :=
  "Image " +:+ Py.str (current_index s + 1) +:+ " / "
  +:+ Py.str (Py.len (images s)) +:+ " ("
  +:+ Py.str (Z.of_nat (size (annotations s))) +:+ " annotated)".

Definition filename_text (name : string) (w h rw rh : Z) : string :=
  name +:+ " - Original: " +:+ Py.str w +:+ "x" +:+ Py.str h
  +:+ "px | Resized: " +:+ Py.str rw +:+ "x" +:+ Py.str rh +:+ "px".

Definition cannot_load (e : Py.exn) : dialog :=
  ShowError "Error" ("Cannot load image: " +:+ str_exn e).

(** [display_image]: everything from [Image.open] on is inside the [try];
    an exception there is reported and ends the method, with the widgets
    configured so far left as they are. *)
Definition display_image (s : State) : outcome :=
  match images s with
  | [] => Returned s
  | _ :: _ =>
      match Py.index (images s) (current_index s) with
      | Py.Raise e => Raised e s
      | Py.Ok current_image =>
          match open_image (image_folder s) current_image with
          | Py.Raise e => Returned (show (cannot_load e) s)
          | Py.Ok img =>
              match left_pane self img with
              | Py.Raise e => Returned (show (cannot_load e) s)
              | Py.Ok pane =>
                  let s1 := set_original_display pane s in
                  match right_pane self img with
                  | Py.Raise e => Returned (show (cannot_load e) s1)
                  | Py.Ok (rw, rh) =>
                      let s2 := set_resized_image_label (Some (rw, rh)) s1 in
                      let s3 := set_filename_label
                                  (filename_text current_image
                                     (fst (Image.size img)) (snd (Image.size img)) rw rh) s2 in
                      let s4 := set_progress_label (progress_text s3) s3 in
                      Returned
                        (match annotations s4 !! Some current_image with
                         | Some k => set_selected_class k s4
                         | None => set_selected_class (-1) s4
                         end)
                  end
              end
          end
      end
  end.

(** [previous_image] *)
Definition previous_image (s : State) : outcome :=
  match images s with
  | _ :: _ =>
      if current_index s >? 0 then
        display_image (set_current_index (current_index s - 1) s)
      else Returned s
  | [] => Returned s
  end.

(** [next_image] *)
Definition next_image (s : State) : outcome :=
  match images s with
  | _ :: _ =>
      if current_index s <? Py.len (images s) - 1 then
        display_image (set_current_index (current_index s + 1) s)
      else Returned s
  | [] => Returned s
  end.

(** [load_images], given what [os.listdir(self.image_folder)] returned. *)
Definition load_images (listing : list string) (s : State) : outcome :=
  let s1 := set_images (merge_sort str_le (filter (fun f => is_image_name f = true) listing)) s in
  match images s1 with
  | _ :: _ => display_image (set_current_index 0 s1)
  | [] => Returned (show (ShowWarning "Warning" "No images found in this folder") s1)
  end.

(** [select_folder]: [folder] is what the dialog returned, empty when it
    was cancelled. *)
Definition select_folder (folder : string) (listing : list string) (s : State) : outcome :=
  match folder with
  | EmptyString => Returned s
  | _ => load_images listing (set_image_folder folder s)
  end.

(** [sorted(self.annotations.items())].  Tuples are compared on the
    filename first; [None] cannot be compared with a string, which any
    sort of two items or more that has a [None] key runs into.  The two
    type names of the message come in the order of the operands of the
    comparison that fails, which follows from the order of insertion in
    the dictionary; the map does not keep that order, and the message is
    given with [None] as the left operand. *)
Definition str_item (kv : option string * Z) : option (string * Z) :=
  k ← fst kv; Some (k, snd kv).

Definition sorted_items (m : gmap (option string) Z)
    : Py.result (list (option string * Z)) :=
  let items := map_to_list m in
  match mapM str_item items with
  | Some named => Py.Ok (prod_map Some id <$> merge_sort item_le named)
  | None =>
      if (length items <=? 1)%nat then Py.Ok items
      else Py.Raise (Py.TypeError
             "'<' not supported between instances of 'NoneType' and 'str'")
  end.

(** The cell the writer produces for a key: [None] is written empty. *)
Definition cell (k : option string) : string :=
  match k with Some f => f | None => EmptyString end.

(** The [for] loop of [save_annotations]: rows are appended to the file
    text [f] until one fails, at the look-up of the class name or when the
    row is encoded; the text written so far is returned with the
    exception, if any. *)
Fixpoint write_items (items : list (option string * Z)) (f : string)
    : option Py.exn * string :=
  match items with
  | [] => (None, f)
  | (image, class_idx) :: rest =>
      match Py.index (classes self) class_idx with
      | Py.Raise e => (Some e, f)
      | Py.Ok class_name =>
          match TextIO.write f (Csv.writerow [cell image; Py.str class_idx; class_name]) with
          | Py.Raise e => (Some e, f)
          | Py.Ok f' => write_items rest f'
          end
      end
  end.

(** [save_annotations]: the file is truncated when opened and holds what
    was written when the [with] block is left, normally or not.  The
    header row is ASCII. *)
Definition save_annotations (s : State) : outcome :=
  let f := Csv.writerow header in
  match sorted_items (annotations s) with
  | Py.Raise e => Raised e (set_store (Some f) s)
  | Py.Ok items =>
      match write_items items f with
      | (Some e, f') => Raised e (set_store (Some f') s)
      | (None, f') => Returned (set_store (Some f') s)
      end
  end.

(** [update_statistics] *)
Definition class_counts (m : gmap (option string) Z) : list Z :=
  (fun i => Py.len (filter (fun kv => snd kv = Z.of_nat i) (map_to_list m)))
    <$> seq 0 (length (classes self)).

Definition update_statistics (s : State) : State :=
  set_stats_labels
    (zip_with (fun name count => name +:+ ": " +:+ Py.str count)
       (classes self) (class_counts (annotations s))) s.

(** [on_class_selected] *)
Definition on_class_selected (s : State) : outcome :=
  match images s with
  | _ :: _ =>
      if selected_class s >=? 0 then
        match Py.index (images s) (current_index s) with
        | Py.Raise e => Raised e s
        | Py.Ok current_image =>
            and_then
              (save_annotations
                 (set_annotations
                    (<[Some current_image := selected_class s]> (annotations s)) s))
              (fun s' =>
                 let s'' := update_statistics s' in
                 Returned (set_progress_label (progress_text s'') s''))
        end
      else Returned s
  | [] => Returned s
  end.

(** [select_class_by_key] *)
Definition select_class_by_key (class_index : Z) (s : State) : outcome :=
  on_class_selected (set_selected_class class_index s).

(** One data row of the store: [int(row['class_index'])] is evaluated
    first, then [row['filename']]. *)
Definition row_entry (fieldnames record : list string)
    : Py.result (option string * Z) :=
  match Csv.getitem fieldnames record "class_index" with
  | None => Py.Raise (Py.KeyError "class_index")
  | Some None =>
      Py.Raise (Py.TypeError
        "int() argument must be a string, a bytes-like object or a real number, not 'NoneType'")
  | Some (Some text) =>
      match int text with
      | None =>
          Py.Raise (Py.ValueError
            ("invalid literal for int() with base 10: "
             +:+ Utf8.prefix 200 (repr text)))
      | Some n =>
          match Csv.getitem fieldnames record "filename" with
          | None => Py.Raise (Py.KeyError "filename")
          | Some k => Py.Ok (k, n)
          end
      end
  end.

Fixpoint load_rows (fieldnames : list string) (rows : list (list string))
    (s : State) : outcome :=
  match rows with
  | [] => Returned s
  | r :: rest =>
      match row_entry fieldnames r with
      | Py.Raise e => Raised e s
      | Py.Ok (k, n) =>
          load_rows fieldnames rest (set_annotations (<[k := n]> (annotations s)) s)
      end
  end.

(** [load_previous_annotations].  When a read of the file raises
    [UnicodeDecodeError], the rows of the lines read before it have been
    stored. *)
Definition load_previous_annotations (s : State) : outcome :=
  match store s with
  | None => Returned s
  | Some content =>
      match TextIO.read_fault content with
      | None =>
          match Csv.reader (TextIO.read_text_lines content) with
          | Py.Raise e => Raised e s
          | Py.Ok recs =>
              let '(fieldnames, rows) := Csv.dict_rows recs in
              load_rows fieldnames rows s
          end
      | Some (text, e) =>
          match Csv.yielded Csv.parse_reset (TextIO.complete_lines text) with
          | Py.Raise e' => Raised e' s
          | Py.Ok recs =>
              let '(fieldnames, rows) := Csv.dict_rows recs in
              and_then (load_rows fieldnames rows s) (fun s' => Raised e s')
          end
      end
  end.

(** The state [__init__] builds before the annotations are loaded;
    [setup_ui] has set the labels. *)
Definition fresh (file : option string) : State :=
  {| image_folder := EmptyString; images := []; current_index := 0;
     annotations := ∅; selected_class := -1;
     original_display := ShowMessage EmptyString;
     resized_image_label := None;
     filename_label := EmptyString;
     progress_label := "No images loaded";
     stats_labels := (fun name => name +:+ ": 0") <$> classes self;
     store := file; dialogs := [] |}.

(** [__init__], once the configuration is loaded. *)
Definition init (file : option string) : outcome :=
  and_then (load_previous_annotations (fresh file))
           (fun s => Returned (update_statistics s)).

(** What the operator can trigger from the window. *)
Inductive action : Type :=
| SelectFolder (folder : string) (listing : list string)
| PreviousImage
| NextImage
| SelectClassByKey (class_index : Z)
| OnClassSelected
| SaveAnnotations.

Definition run (a : action) (s : State) : outcome :=
  match a with
  | SelectFolder folder listing => select_folder folder listing s
  | PreviousImage => previous_image s
  | NextImage => next_image s
  | SelectClassByKey k => select_class_by_key k s
  | OnClassSelected => on_class_selected s
  | SaveAnnotations => save_annotations s
  end.

(** The states the application can be in: after start-up, and after any
    callback, whether it returned or raised. *)
Inductive reachable : State -> Prop :=
| reachable_init file s :
    init file = Returned s -> reachable s
| reachable_run a s :
    reachable s -> reachable (state_of (run a s)).

End Annotator.

(** ** Definitions used to state the properties *)

(** What the specification asks of a size: a positive integer. *)
Definition is_positive_int (v : json) : bool :=
  match v with
  | JInt n => 0 <? n
  | _ => false
  end.

Definition is_list (v : json) : bool :=
  match v with
  | JList _ => true
  | _ => false
  end.

(** A payload with every key present and one class, whose sizes are a
    negative integer and a string. *)
Definition payload_bad_sizes : gmap string json :=
  <["classes" := JList [JStr "ice"]]>
  (<["annotations_file" := JStr "annotations.csv"]>
  (<["resized_image_size" := JInt (-5)]>
  (<["max_original_display_size" := JStr "large"]> ∅))).

(** A configuration with one class, a preview bound of 100 pixels and a
    maximal original display size of 500 pixels. *)
Definition settings_100_500 : Settings :=
  {| classes := ["ice"]; resized_image_size := 100; max_display_size := 500 |}.

(** Both axes multiplied by the one factor [bound / m], each product
    truncated by [int], and the image resized to that. *)
Definition upscale (bound m w h : Z) : Py.result (Z * Z) :=
  scale <- Float.truediv bound m ;;
  new_width <- Float.to_int (Float.mul (Float.of_int w) scale) ;;
  new_height <- Float.to_int (Float.mul (Float.of_int h) scale) ;;
  Pillow.resize (w, h) (new_width, new_height).

(** What no method but [select_folder] changes, and what [display_image]
    leaves alone. *)
Definition same_session (s s' : State) : Prop :=
  image_folder s' = image_folder s /\ images s' = images s /\
  current_index s' = current_index s /\ annotations s' = annotations s /\
  store s' = store s.

(** The [try] block of [display_image] runs to its end for the image
    [name] of [folder]: the image opens, the left pane is configured, and
    the preview is made. *)
Definition displayable (self : Settings)
    (open_image : string -> string -> Py.result Image.t)
    (folder name : string) : bool :=
  match open_image folder name with
  | Py.Ok img =>
      match left_pane self img, right_pane self img with
      | Py.Ok _, Py.Ok _ => true
      | _, _ => false
      end
  | Py.Raise _ => false
  end.

(** The selection the annotations record for an image: its class, or -1. *)
Definition recorded (m : gmap (option string) Z) (name : string) : Z :=
  match m !! Some name with
  | Some k => k
  | None => -1
  end.

(** The cursor points into the image list whenever there is one. *)
Definition cursor_ok (s : State) : Prop :=
  images s <> [] -> 0 <= current_index s < Py.len (images s).

(** A world where every image opens with size 50 x 100, except
    [broken.png], which does not open. *)
Definition opens_but_broken (folder name : string) : Py.result Image.t :=
  if String.eqb name "broken.png"
  then Py.Raise (Py.ValueError "cannot identify image file")
  else Py.Ok (sound_image 50 100).

(** An [int] that reads the one-digit class indices only. *)
Definition int_digit (text : string) : option Z :=
  match text with
  | String c EmptyString =>
      let n := Z.of_N (N_of_ascii c) - 48 in
      if (0 <=? n) && (n <=? 9) then Some n else None
  | _ => None
  end.

(** A session: start without a store, open a folder holding [a.png] and
    [broken.png], label [a.png] with class 0. *)
Definition session_start : State :=
  state_of (init settings_100_500 int_digit None).

Definition session_opened : State :=
  state_of (select_folder settings_100_500 opens_but_broken "photos"
              ["broken.png"; "notes.txt"; "a.png"] session_start).

Definition session_labelled : State :=
  state_of (select_class_by_key settings_100_500 0 session_opened).

(** The keys of the map are filenames: Python's [None] is not among them. *)
Definition filenames_only (m : gmap (option string) Z) : Prop :=
  m !! None = None.

(** The entries of the map in the order [sorted] gives them. *)
Definition entries (m : gmap (option string) Z) : list (string * Z) :=
  merge_sort item_le (omap str_item (map_to_list m)).

(** [self.classes[k]] does not raise: [k] lies in [-len, len). *)
Definition resolvable (self : Settings) (k : Z) : bool :=
  (- Py.len (classes self) <=? k) && (k <? Py.len (classes self)).

Definition class_name_of (self : Settings) (k : Z) : string :=
  match Py.index (classes self) k with
  | Py.Ok c => c
  | Py.Raise _ => EmptyString
  end.

(** The text of one data row, and of a list of them. *)
Definition row_text (self : Settings) (e : string * Z) : string :=
  Csv.writerow [fst e; Py.str (snd e); class_name_of self (snd e)].

Fixpoint rows_text (self : Settings) (l : list (string * Z)) : string :=
  match l with
  | [] => EmptyString
  | e :: l' => row_text self e +:+ rows_text self l'
  end.

(** The entries before the first one whose class index does not resolve. *)
Fixpoint resolved_prefix (self : Settings) (l : list (string * Z)) : list (string * Z) :=
  match l with
  | [] => []
  | e :: l' => if resolvable self (snd e) then e :: resolved_prefix self l' else []
  end.

(** The row of an entry can be written: its class index resolves, and the
    text of the row is UTF-8. *)
Definition writable (self : Settings) (e : string * Z) : bool :=
  resolvable self (snd e) && Utf8.valid (row_text self e).

(** The exception of a row that cannot be written. *)
Definition row_error (self : Settings) (e : string * Z) : Py.exn :=
  if resolvable self (snd e)
  then Py.UnicodeEncodeError (Utf8.encode_message (row_text self e))
  else Py.IndexError "list index out of range".

(** The entries before the first one that cannot be written, and the
    exception of that one. *)
Fixpoint written_prefix (self : Settings) (l : list (string * Z)) : list (string * Z) :=
  match l with
  | [] => []
  | e :: l' => if writable self e then e :: written_prefix self l' else []
  end.

Fixpoint first_error (self : Settings) (l : list (string * Z)) : option Py.exn :=
  match l with
  | [] => None
  | e :: l' => if writable self e then first_error self l' else Some (row_error self e)
  end.

(** The file names and the class names are text that UTF-8 encodes: none
    holds a byte that is not part of a character. *)
Definition encodable (self : Settings) (m : gmap (option string) Z) : Prop :=
  Forall (fun c => Utf8.valid c = true) (classes self) /\
  forall f k, m !! Some f = Some k -> Utf8.valid f = true.

(** The complete store for a map: header, then one row per entry. *)
Definition store_text (self : Settings) (m : gmap (option string) Z) : string :=
  Csv.writerow header +:+ rows_text self (entries m).

(** A state that holds the annotations [m] and nothing else. *)
Definition holding (self : Settings) (m : gmap (option string) Z) : State :=
  set_annotations m (fresh self None).

(** One annotation whose class index is -1. *)
Definition minus_one : gmap (option string) Z := {[ Some "a.png" := -1 ]}.

(** The value of the last pair of [l] whose key is [k]. *)
Fixpoint last_value (k : option string) (l : list (option string * Z)) : option Z :=
  match l with
  | [] => None
  | (k', n) :: rest =>
      match last_value k rest with
      | Some v => Some v
      | None => if decide (k' = k) then Some n else None
      end
  end.

(** The [(filename, class_index)] pairs of the data rows, when every row
    yields one. *)
Fixpoint row_entries (int : string -> option Z) (fieldnames : list string)
    (rows : list (list string)) : Py.result (list (option string * Z)) :=
  match rows with
  | [] => Py.Ok []
  | r :: rest =>
      e <- row_entry int fieldnames r ;;
      es <- row_entries int fieldnames rest ;;
      Py.Ok (e :: es)
  end.

(** The records the reader yields for a store text. *)
Definition store_records (content : string) : list (list string) :=
  match Csv.reader (TextIO.read_text_lines content) with
  | Py.Ok recs => recs
  | Py.Raise _ => []
  end.

(** A line has its newline characters last, if it has any. *)
Fixpoint newline_last (line : string) : bool :=
  match line with
  | EmptyString => true
  | String c rest => if Csv.is_newline c then Csv.is_empty rest else newline_last rest
  end.

Fixpoint no_cr (s : string) : bool :=
  match s with
  | EmptyString => true
  | String c rest => negb (Ascii.eqb c Py.CR) && no_cr rest
  end.

(** A store in which [a.png] occurs twice. *)
Definition store_with_repeat : string :=
  Csv.writerow header +:+ Csv.writerow ["a.png"; "0"; "ice"]
  +:+ Csv.writerow ["b.png"; "1"; "snow"] +:+ Csv.writerow ["a.png"; "2"; "rain"].

(** The lines still to come when the reader stands inside a line ([mid])
    or at the start of one. *)
Definition pending_lines (mid : bool) (t : string) : list string :=
  match t with
  | EmptyString => if mid then [EmptyString] else []
  | _ => TextIO.readlines t
  end.

(** Reading in one pass over the characters of the file: newline
    translation, line splitting and record parsing together.
    [read_csv_text_correct] shows it equal to the layered definition. *)
Fixpoint read_csv_text (pendingcr mid : bool) (p : Csv.parser) (r : string)
    : Py.result (list (list string)) :=
  match r with
  | EmptyString => Csv.records p (if mid then [EmptyString] else [])
  | String c r' =>
      if Ascii.eqb c Py.CR then
        p1 <- Csv.parse_process_char p (Csv.Char Py.LF) ;;
        p2 <- Csv.parse_process_char p1 Csv.EOL ;;
        if Csv.is_start_record (Csv.st p2) then
          rows <- read_csv_text true false Csv.parse_reset r' ;;
          Py.Ok (Csv.fields p2 :: rows)
        else read_csv_text true false p2 r'
      else if Ascii.eqb c Py.LF then
        if pendingcr then read_csv_text false mid p r'
        else
          p1 <- Csv.parse_process_char p (Csv.Char Py.LF) ;;
          p2 <- Csv.parse_process_char p1 Csv.EOL ;;
          if Csv.is_start_record (Csv.st p2) then
            rows <- read_csv_text false false Csv.parse_reset r' ;;
            Py.Ok (Csv.fields p2 :: rows)
          else read_csv_text false false p2 r'
      else
        p1 <- Csv.parse_process_char p (Csv.Char c) ;;
        read_csv_text false true p1 r'
  end.

(** What the reader makes of a written cell: the text with its CR LF and
    CR turned into LF. *)
Definition as_read (cell : string) : string :=
  TextIO.universal_newlines false cell.

(** The record the reader yields for the row of an entry. *)
Definition row_as_read (self : Settings) (e : string * Z) : list string :=
  [as_read (fst e); as_read (Py.str (snd e)); as_read (class_name_of self (snd e))].

(** A filename with a carriage return in it, and the same name as the
    store gives it back. *)
Definition cr_name : string := "a" +:+ String Py.CR "b.png".
Definition lf_name : string := "a" +:+ String Py.LF "b.png".
Definition cr_map : gmap (option string) Z := {[ Some cr_name := 0 ]}.
Definition lf_map : gmap (option string) Z := {[ Some lf_name := 0 ]}.

(** Filenames in strictly increasing order. *)
Definition filename_lt (x y : string * Z) : Prop :=
  str_compare (fst x) (fst y) = Lt.

(** One annotation, for [a.png] with class 0. *)
Definition one_label : gmap (option string) Z := {[ Some "a.png" := 0 ]}.

(** ** Text

    The bytes of a string. *)
Definition bytes (s : string) : list N := N_of_ascii <$> list_ascii_of_string s.

(** A sequence under way: a first byte and the continuation bytes the
    decoder has accepted after it, fewer than the first byte announces. *)
Definition partial (pending : list N) : Prop :=
  match pending with
  | [] => True
  | [lead] => (2 <= Utf8.need lead)%nat
  | [lead; b1] => (3 <= Utf8.need lead)%nat /\ Utf8.continues [lead] b1 = true
  | [lead; b1; b2] =>
      Utf8.need lead = 4%nat /\ Utf8.continues [lead] b1 = true /\
      Utf8.is_continuation b2 = true
  | _ => False
  end.

(** Every character is ASCII. *)
Fixpoint is_ascii (s : string) : bool :=
  match s with
  | EmptyString => true
  | String c rest => (N_of_ascii c <? 128)%N && is_ascii rest
  end.

(** A store whose second data row holds a byte that is not UTF-8. *)
Definition store_bad_byte : string :=
  Csv.writerow header +:+ Csv.writerow ["a.png"; "0"; "ice"]
  +:+ Csv.writerow [String (ascii_of_N 255) ".png"; "0"; "ice"].

(** ** Values of binary64 numbers

    The value of the finite number with mantissa [m] and exponent [e], in
    units of [2^-1000]: an integer for every exponent the display policy
    meets. *)
Definition scaled (m : positive) (e : Z) : Z := Z.pos m * 2 ^ (e + 1000).

(** A mantissa of exactly 53 bits. *)
Definition normal_mantissa (m : positive) : Prop := 2 ^ 52 <= Z.pos m < 2 ^ 53.

(** ** More of the annotator: definitions *)

(** The counting loop of [update_statistics]:
    [class_counts[class_idx] += 1] for a value in range, on the list that
    starts as [[0] * len(self.classes)]. *)
Definition count_class (self : Settings) (class_counts : list Z) (class_idx : Z)
    : list Z :=
  if (0 <=? class_idx) && (class_idx <? Py.len (classes self))
  then alter (fun count => count + 1) (Z.to_nat class_idx) class_counts
  else class_counts.

Definition tally (self : Settings) (values : list Z) : list Z :=
  foldl (count_class self) (replicate (length (classes self)) 0) values.

(** [sum(counts)] *)
Definition total (counts : list Z) : Z := foldr Z.add 0 counts.

(** How many of the values are [v], and how many are class indices. *)
Definition occurrences (v : Z) (values : list Z) : Z :=
  Py.len (filter (fun x => x = v) values).

Definition in_range (self : Settings) (values : list Z) : Z :=
  Py.len (filter (fun x => 0 <= x < Py.len (classes self)) values).

(** A configuration [load_config] accepts, whose preview bound is 0. *)
Definition settings_bound_0 : Settings :=
  {| classes := ["ice"]; resized_image_size := 0; max_display_size := 500 |}.

(** Every image opens with size 3 x 2. *)
Definition opens_3_2 (folder name : string) : Py.result Image.t :=
  Py.Ok (sound_image 3 2).

(** [k] presses of the right or left arrow key, each on the state the
    press before left. *)
Definition press_next (self : Settings)
    (open_image : string -> string -> Py.result Image.t) (k : nat) (s : State) : State :=
  Nat.iter k (fun t => state_of (next_image self open_image t)) s.

Definition press_previous (self : Settings)
    (open_image : string -> string -> Py.result Image.t) (k : nat) (s : State) : State :=
  Nat.iter k (fun t => state_of (previous_image self open_image t)) s.

(** The store holds what [save_annotations] writes for the annotations in
    memory. *)
Definition store_current (self : Settings) (s : State) : Prop :=
  store s = store (state_of (save_annotations self s)).

(** The statistics labels show what [update_statistics] computes from the
    annotations in memory. *)
Definition statistics_current (self : Settings) (s : State) : Prop :=
  stats_labels s = stats_labels (update_statistics self s).

(** The image under the cursor, if the cursor designates one. *)
Definition current_image (s : State) : option string :=
  match Py.index (images s) (current_index s) with
  | Py.Ok name => Some name
  | Py.Raise _ => None
  end.

(** What [on_class_selected] does once its guard is passed: the class is
    recorded for the image under the cursor; after saving, the statistics
    and the progress label are refreshed. *)
Definition labelled (s : State) (name : string) : State :=
  set_annotations (<[Some name := selected_class s]> (annotations s)) s.

Definition refreshed (self : Settings) (t : State) : State :=
  set_progress_label (progress_text (update_statistics self t))
    (update_statistics self t).

(** A configuration with other class names. *)
Definition settings_two_classes : Settings :=
  {| classes := ["column"; "plate"]; resized_image_size := 100;
     max_display_size := 500 |}.

(** ** The window (setup_ui)

    What [setup_ui] gives the operator to act with, each control with the
    callback it runs.  The button of the folder comes with what the folder
    dialog and [os.listdir] then answer. *)
Definition buttons : list (string * (string -> list string -> action)) :=
  [("Select Image Folder", SelectFolder);
   ("← Previous", fun _ _ => PreviousImage);
   ("Next →", fun _ _ => NextImage)].

(** One radio button per class, [enumerate(self.classes)]: Tk stores the
    button's [value] in [selected_class], then runs [on_class_selected]. *)
Definition radio_buttons (self : Settings) : list (string * action) :=
  imap (fun i class_name =>
          (Py.str (Z.of_nat i + 1) +:+ ". " +:+ class_name,
           SelectClassByKey (Z.of_nat i)))
       (classes self).

(** The bound keys; for [i] in [range(1, len(self.classes) + 1)] the key
    [str(i)] runs [select_class_by_key(i - 1)]. *)
Definition key_bindings (self : Settings) : list (string * action) :=
  [("<Left>", PreviousImage); ("<Right>", NextImage);
   ("<Control-s>", SaveAnnotations)]
  ++ ((fun i => (Py.str (Z.of_nat i), SelectClassByKey (Z.of_nat i - 1)))
        <$> seq 1 (length (classes self))).

(** The callbacks the window can run. *)
Definition window_action (self : Settings) (a : action) : Prop :=
  (exists text callback folder listing,
     (text, callback) ∈ buttons /\ a = callback folder listing) \/
  a ∈ (radio_buttons self).*2 \/
  a ∈ (key_bindings self).*2.

(** A session in order: the cursor is in the image list, the annotations
    are keyed by filenames and hold indices of the class list, and the
    file names, in the annotations and in the image list, are UTF-8. *)
Definition in_order (self : Settings) (s : State) : Prop :=
  cursor_ok s /\ filenames_only (annotations s) /\
  (forall f v, annotations s !! Some f = Some v -> 0 <= v < Py.len (classes self)) /\
  (forall f v, annotations s !! Some f = Some v -> Utf8.valid f = true) /\
  Forall (fun f => Utf8.valid f = true) (images s).

(** The folder an action opens holds file names that are UTF-8. *)
Definition well_named (a : action) : Prop :=
  match a with
  | SelectFolder _ listing => Forall (fun f => Utf8.valid f = true) listing
  | _ => True
  end.

(** ** Start-up (main) *)

(** How [main] ends: inside [root.mainloop()] on the window built, or with
    [sys.exit(1)] after an error box or a message printed. *)
Inductive ending : Type :=
| MainLoop (s : State)
| ErrorBox (title text : string)
| Printed (text : string).

(** The first [except] clause of [main] takes these; the two Unicode
    errors are subclasses of [ValueError]. *)
Definition is_configuration_error (e : Py.exn) : bool :=
  match e with
  | Py.FileNotFoundError _ | Py.ValueError _ | Py.KeyError _ | Py.TypeError _
  | Py.UnicodeDecodeError _ | Py.UnicodeEncodeError _ => true
  | _ => false
  end.

(** The [except] clauses of [main]; [tk_again] tells whether the second
    [tk.Tk()] gives a window for the error box. *)
Definition report (tk_again : bool) (e : Py.exn) : ending :=
  if is_configuration_error e then
    if tk_again then ErrorBox "Configuration Error" (str_exn e)
    else Printed (String Py.LF "CONFIGURATION ERROR"
                  +:+ String Py.LF (str_exn e) +:+ String Py.LF EmptyString)
  else Printed (String Py.LF "UNEXPECTED ERROR"
                +:+ String Py.LF (str_exn e) +:+ String Py.LF EmptyString).

(** [main].  [tk] is what the first [tk.Tk()] does: [None] when it gives a
    window, the message of its [TclError] otherwise.  The payload of an
    accepted configuration is followed when its values have the types the
    program uses them at (a string for the store path, strings for the
    classes, integers for the sizes); other payloads are left out
    ([None]). *)
Definition main (tk : option string) (tk_again : bool) (int : string -> option Z)
    (file : config_file) (store : option string) : option ending :=
  match tk with
  | Some error => Some (report tk_again (Py.Exception error))
  | None =>
      match load_config file with
      | Py.Raise e => Some (report tk_again e)
      | Py.Ok c =>
          match Cfg.annotations_file c, settings_of c with
          | JStr _, Some self =>
              Some (match init self int store with
                    | Returned s => MainLoop s
                    | Raised e _ => report tk_again e
                    end)
          | _, _ => None
          end
      end
  end.

(** A valid configuration file. *)
Definition config_one_class : config_file :=
  Parsed (<["classes" := JList [JStr "ice"]]>
         (<["annotations_file" := JStr "annotations.csv"]>
         (<["resized_image_size" := JInt 100]>
         (<["max_original_display_size" := JInt 500]> ∅)))).

(** A store whose second data row has a class index that is no integer. *)
Definition store_bad_index : string :=
  Csv.writerow header +:+ Csv.writerow ["a.png"; "0"; "ice"]
  +:+ Csv.writerow ["b.png"; "x"; "ice"] +:+ Csv.writerow ["c.png"; "0"; "ice"].

(** ** Binary64 arithmetic on normal numbers

    The sizes [display_image] computes go through a few correctly rounded
    operations on binary64 numbers.  This part relates the results of
    [SpecFloat]'s operations to the exact values, for positive normal
    operands: a finite number with mantissa [m] and exponent [e] stands for
    [m * 2^e], and is compared with other values through [scaled], its
    value in units of [2^-1000]. *)

Lemma pow2_pos (k : Z) : 0 <= k -> 0 < 2 ^ k.
Proof. intros H. apply Z.pow_pos_nonneg; lia. Qed.

Lemma pow2_add (a b : Z) : 0 <= a -> 0 <= b -> 2 ^ (a + b) = 2 ^ a * 2 ^ b.
Proof. intros Ha Hb. apply Z.pow_add_r; lia. Qed.

Lemma pow2_split (a b : Z) : 0 <= b <= a -> 2 ^ a = 2 ^ (a - b) * 2 ^ b.
Proof. intros H. rewrite <- pow2_add by lia. f_equal. lia. Qed.

Lemma pow2_le (a b : Z) : a <= b -> 2 ^ a <= 2 ^ b.
Proof. intros H. apply Z.pow_le_mono_r; lia. Qed.

Lemma pow2_lt (a b : Z) : 0 <= b -> a < b -> 2 ^ a < 2 ^ b.
Proof. intros Hb H. apply Z.pow_lt_mono_r; lia. Qed.

Lemma pow2_lt_inv (a b : Z) : 0 <= a -> 2 ^ a < 2 ^ b -> a < b.
Proof.
  intros Ha H. destruct (Z.lt_ge_cases a b) as [| Hge]; [assumption |].
  pose proof (pow2_le b a Hge). lia.
Qed.

Lemma digits2_pos_bounds (p : positive) :
  2 ^ (Z.pos (digits2_pos p) - 1) <= Z.pos p < 2 ^ Z.pos (digits2_pos p).
Proof.
  induction p as [p IH | p IH |]; simpl digits2_pos.
  - rewrite Pos2Z.inj_succ, (Pos2Z.inj_xI p).
    replace (Z.succ (Z.pos (digits2_pos p)) - 1)
      with (Z.succ (Z.pos (digits2_pos p) - 1)) by lia.
    rewrite !Z.pow_succ_r by lia. lia.
  - rewrite Pos2Z.inj_succ, (Pos2Z.inj_xO p).
    replace (Z.succ (Z.pos (digits2_pos p)) - 1)
      with (Z.succ (Z.pos (digits2_pos p) - 1)) by lia.
    rewrite !Z.pow_succ_r by lia. lia.
  - simpl. lia.
Qed.

Lemma Zdigits2_unique (m d : Z) :
  2 ^ (d - 1) <= m < 2 ^ d -> 0 < d -> Zdigits2 m = d.
Proof.
  intros [Hlo Hhi] Hd.
  assert (0 < m) as Hm by (pose proof (pow2_pos (d - 1)); lia).
  destruct m as [| p |]; try lia. simpl.
  pose proof (digits2_pos_bounds p) as [Hlo' Hhi'].
  destruct (Z.lt_trichotomy (Z.pos (digits2_pos p)) d) as [Hlt | [Heq | Hgt]].
  - pose proof (pow2_le (Z.pos (digits2_pos p)) (d - 1)). lia.
  - assumption.
  - pose proof (pow2_le d (Z.pos (digits2_pos p) - 1)). lia.
Qed.

Lemma fexp_normal (e : Z) :
  -1074 <= e - 53 -> SpecFloat.fexp Float.prec Float.emax e = e - 53.
Proof. unfold fexp, emin, Float.prec, Float.emax. lia. Qed.

(** *** Shifting a mantissa to the right *)

Lemma iter_pos_nat {A : Type} (f : A -> A) (p : positive) (x : A) :
  SpecFloat.iter_pos f p x = Nat.iter (Pos.to_nat p) f x.
Proof.
  revert x. induction p as [p IH | p IH |]; intros x; simpl SpecFloat.iter_pos.
  - rewrite !IH, <- Nat.iter_succ_r, <- Nat.iter_add. f_equal. lia.
  - rewrite !IH, <- Nat.iter_add. f_equal. lia.
  - reflexivity.
Qed.

Lemma shr_1_m (mrs : shr_record) :
  0 <= shr_m mrs -> shr_m (shr_1 mrs) = shr_m mrs / 2.
Proof.
  destruct mrs as [[| [p | p |] | p] r s]; simpl; intros H; try lia;
    rewrite <- Z.div2_div; reflexivity.
Qed.

Lemma shr_1_exact (m : Z) :
  0 <= m -> m mod 2 = 0 ->
  shr_1 (Build_shr_record m false false) = Build_shr_record (m / 2) false false.
Proof.
  intros Hm Hmod. rewrite Zmod_odd in Hmod. rewrite <- Z.div2_div.
  destruct m as [| [p | p |] | p]; simpl in *; try reflexivity; lia.
Qed.

Lemma iter_shr_m (n : nat) (mrs : shr_record) :
  0 <= shr_m mrs ->
  shr_m (Nat.iter n shr_1 mrs) = shr_m mrs / 2 ^ Z.of_nat n.
Proof.
  intros Hm. induction n as [| n IH]; simpl Nat.iter.
  - simpl. rewrite Z.div_1_r. reflexivity.
  - rewrite shr_1_m; rewrite IH.
    + rewrite Z.div_div by (pose proof (pow2_pos (Z.of_nat n)); lia).
      rewrite Nat2Z.inj_succ, Z.pow_succ_r by lia. f_equal. lia.
    + apply Z.div_pos; [assumption | apply pow2_pos; lia].
Qed.

Lemma iter_shr_exact (n : nat) (m : Z) :
  0 <= m -> m mod 2 ^ Z.of_nat n = 0 ->
  Nat.iter n shr_1 (Build_shr_record m false false)
  = Build_shr_record (m / 2 ^ Z.of_nat n) false false.
Proof.
  intros Hm. induction n as [| n IH]; intros Hmod; simpl Nat.iter.
  - simpl. rewrite Z.div_1_r. reflexivity.
  - rewrite Nat2Z.inj_succ, Z.pow_succ_r in Hmod by lia.
    pose proof (pow2_pos (Z.of_nat n) ltac:(lia)) as Hp.
    assert (m = 2 ^ Z.of_nat n * (2 * (m / (2 * 2 ^ Z.of_nat n)))) as Hdiv.
    { pose proof (Z.div_mod m (2 * 2 ^ Z.of_nat n) ltac:(lia)). lia. }
    assert (m mod 2 ^ Z.of_nat n = 0) as Hmod'.
    { rewrite Hdiv at 1. rewrite Z.mul_comm. apply Z.mod_mul. lia. }
    assert (m / 2 ^ Z.of_nat n = 2 * (m / (2 * 2 ^ Z.of_nat n))) as Hq.
    { rewrite Hdiv at 1. rewrite Z.mul_comm. apply Z.div_mul. lia. }
    rewrite (IH Hmod'), shr_1_exact.
    + rewrite Z.div_div by lia.
      rewrite Nat2Z.inj_succ, Z.pow_succ_r by lia.
      do 2 f_equal. lia.
    + apply Z.div_pos; lia.
    + rewrite Hq, Z.mul_comm. apply Z.mod_mul. lia.
Qed.

Lemma shr_spec (mrs : shr_record) (e n : Z) :
  0 <= n -> 0 <= shr_m mrs ->
  exists mrs', shr mrs e n = (mrs', e + n) /\
    shr_m mrs' = shr_m mrs / 2 ^ n /\
    (shr_r mrs = false -> shr_s mrs = false -> shr_m mrs mod 2 ^ n = 0 ->
     shr_r mrs' = false /\ shr_s mrs' = false).
Proof.
  intros Hn Hm. destruct n as [| p | p]; [| | lia].
  - exists mrs. simpl. rewrite Z.add_0_r, Z.div_1_r. auto.
  - exists (SpecFloat.iter_pos shr_1 p mrs). simpl shr.
    rewrite iter_pos_nat, iter_shr_m, positive_nat_Z by assumption.
    split; [reflexivity |]. split; [reflexivity |].
    intros Hr Hs Hmod. destruct mrs as [m r s]. simpl in *. subst r s.
    rewrite iter_shr_exact; [auto | assumption |].
    rewrite positive_nat_Z. assumption.
Qed.

Lemma shr_record_of_loc_m (m : Z) (l : location) :
  shr_m (shr_record_of_loc m l) = m.
Proof. destruct l as [| []]; reflexivity. Qed.

Lemma round_nearest_even_bounds (m : Z) (l : location) :
  m <= round_nearest_even m l <= m + 1.
Proof.
  destruct l as [| []]; simpl; try lia. destruct (Z.even m); lia.
Qed.

Lemma loc_of_exact (mrs : shr_record) :
  shr_r mrs = false -> shr_s mrs = false -> loc_of_shr_record mrs = loc_Exact.
Proof. destruct mrs as [m r s]. simpl. intros -> ->. reflexivity. Qed.

(** *** Rounding a long mantissa

    [binary_round_aux] on a mantissa of [d >= 53] bits, away from the
    underflow and overflow thresholds: the result is a normal number; [R]
    is its value in units of the last kept bit, which is the truncated
    mantissa or the next integer, and the truncated mantissa itself when
    nothing is lost. *)
Lemma binary_round_aux_normal (mx ex : Z) (lx : location) (d : Z) :
  2 ^ (d - 1) <= mx < 2 ^ d -> 53 <= d -> -1000 <= d + ex - 53 <= 900 ->
  exists m e,
    binary_round_aux Float.prec Float.emax false mx ex lx = S754_finite false m e /\
    2 ^ 52 <= Z.pos m < 2 ^ 53 /\
    d + ex - 53 <= e <= d + ex - 52 /\
    mx / 2 ^ (d - 53) <= Z.pos m * 2 ^ (e - (d + ex - 53)) <= mx / 2 ^ (d - 53) + 1 /\
    (lx = loc_Exact -> mx mod 2 ^ (d - 53) = 0 ->
     Z.pos m * 2 ^ (e - (d + ex - 53)) = mx / 2 ^ (d - 53)).
Proof.
  intros Hmx Hd He.
  pose proof (pow2_pos (d - 1) ltac:(lia)) as Hp1.
  pose proof (pow2_pos (d - 53) ltac:(lia)) as Hpk.
  assert (2 ^ d = 2 ^ 53 * 2 ^ (d - 53)) as Hsplit.
  { rewrite <- pow2_add by lia. f_equal. lia. }
  assert (2 ^ (d - 1) = 2 ^ 52 * 2 ^ (d - 53)) as Hsplit'.
  { rewrite <- pow2_add by lia. f_equal. lia. }
  unfold binary_round_aux, shr_fexp.
  rewrite (Zdigits2_unique mx d) by (assumption || lia).
  rewrite fexp_normal by lia.
  destruct (shr_spec (shr_record_of_loc mx lx) ex (d + ex - 53 - ex))
    as (mrs1 & -> & Hm1 & Hex1);
    [lia | rewrite shr_record_of_loc_m; lia |].
  rewrite shr_record_of_loc_m in Hm1, Hex1.
  replace (d + ex - 53 - ex) with (d - 53) in Hm1, Hex1 by lia.
  replace (ex + (d + ex - 53 - ex)) with (d + ex - 53) by lia.
  assert (2 ^ 52 <= shr_m mrs1 < 2 ^ 53) as Hr1.
  { rewrite Hm1. split.
    - apply Z.div_le_lower_bound; lia.
    - apply Z.div_lt_upper_bound; lia. }
  pose proof (round_nearest_even_bounds (shr_m mrs1) (loc_of_shr_record mrs1)) as Hrne.
  assert (lx = loc_Exact -> mx mod 2 ^ (d - 53) = 0 ->
          round_nearest_even (shr_m mrs1) (loc_of_shr_record mrs1) = shr_m mrs1) as Hexact.
  { intros -> Hmod. destruct (Hex1 eq_refl eq_refl Hmod) as [Hr Hs].
    rewrite loc_of_exact by assumption. reflexivity. }
  set (mr := round_nearest_even (shr_m mrs1) (loc_of_shr_record mrs1)) in *.
  destruct (Z.eq_dec mr (2 ^ 53)) as [Htop | Hntop].
  - (* the mantissa rounded up to 2^53: one more shift *)
    rewrite Htop. change (Zdigits2 (2 ^ 53)) with 54.
    rewrite fexp_normal by lia.
    replace (54 + (d + ex - 53) - 53 - (d + ex - 53)) with 1 by lia.
    cbn [shr_record_of_loc shr SpecFloat.iter_pos shr_1 shr_m]. change (2 ^ 53) with 9007199254740992.
    cbn [shr_1 shr_m].
    destruct (Z.leb_spec (d + ex - 53 + 1) (Float.emax - Float.prec)) as [_ | Hov];
      [| unfold Float.emax, Float.prec in Hov; lia].
    eexists _, _. split; [reflexivity |].
    replace (d + ex - 53 + 1 - (d + ex - 53)) with 1 by lia.
    change (Z.pos 4503599627370496 * 2 ^ 1) with (2 ^ 53). rewrite <- Htop.
    split; [vm_compute; split; [discriminate | reflexivity] |].
    rewrite <- Hm1. split; [lia |]. split; [lia |]. assumption.
  - assert (2 ^ 52 <= mr < 2 ^ 53) as Hmr by lia.
    rewrite (Zdigits2_unique mr 53) by (assumption || lia).
    rewrite fexp_normal by lia.
    replace (53 + (d + ex - 53) - 53 - (d + ex - 53)) with 0 by lia.
    cbn [shr_record_of_loc shr shr_m].
    destruct mr as [| m |] eqn:Emr; try lia.
    destruct (Z.leb_spec (d + ex - 53) (Float.emax - Float.prec)) as [_ | Hov];
      [| unfold Float.emax, Float.prec in Hov; lia].
    eexists _, _. split; [reflexivity |].
    replace (d + ex - 53 - (d + ex - 53)) with 0 by lia.
    rewrite Z.pow_0_r, Z.mul_1_r.
    split; [assumption |]. rewrite <- Hm1.
    split; [lia |]. split; [lia |]. assumption.
Qed.


Lemma binary_round_aux_bounds (mx ex : Z) (lx : location) (d : Z) :
  2 ^ (d - 1) <= mx < 2 ^ d -> 53 <= d -> -1000 <= d + ex - 53 <= 900 ->
  exists m e,
    binary_round_aux Float.prec Float.emax false mx ex lx = S754_finite false m e /\
    normal_mantissa m /\
    d + ex - 53 <= e <= d + ex - 52 /\
    (forall g, mx < g * 2 ^ (d - 53) \/ (mx = g * 2 ^ (d - 53) /\ lx = loc_Exact) ->
       scaled m e <= g * 2 ^ (d + ex - 53 + 1000)) /\
    (forall g, g * 2 ^ (d - 53) <= mx -> g * 2 ^ (d + ex - 53 + 1000) <= scaled m e).
Proof.
  intros Hmx Hd He.
  destruct (binary_round_aux_normal mx ex lx d Hmx Hd He)
    as (m & e & Hres & Hm & Hexp & HR & Hexact).
  exists m, e. split; [assumption |]. split; [assumption |]. split; [assumption |].
  pose proof (pow2_pos (d - 53) ltac:(lia)) as Hpk.
  pose proof (pow2_pos (d + ex - 53 + 1000) ltac:(lia)) as Hpu.
  assert (scaled m e = Z.pos m * 2 ^ (e - (d + ex - 53)) * 2 ^ (d + ex - 53 + 1000)) as Hs.
  { unfold scaled. rewrite <- Z.mul_assoc, <- pow2_add by lia. do 2 f_equal. lia. }
  rewrite Hs. split.
  - intros g Hg. apply Z.mul_le_mono_nonneg_r; [lia |].
    destruct Hg as [Hlt | [Heq Hlx]].
    + assert (mx / 2 ^ (d - 53) < g) by (apply Z.div_lt_upper_bound; lia). lia.
    + rewrite Hexact; [| assumption | rewrite Heq; apply Z.mod_mul; lia].
      rewrite Heq, Z.div_mul by lia. lia.
  - intros g Hg. apply Z.mul_le_mono_nonneg_r; [lia |].
    assert (g <= mx / 2 ^ (d - 53)) by (apply Z.div_le_lower_bound; lia). lia.
Qed.

(** *** Exponents and values *)

Lemma exponent_upper (m : positive) (e k : Z) :
  normal_mantissa m -> -1000 <= e -> 0 <= k + 1000 ->
  scaled m e <= 2 ^ (k + 1000) -> e <= k - 52.
Proof.
  intros [Hlo _] He Hk Hv. unfold scaled in Hv.
  destruct (Z.le_gt_cases e (k - 52)) as [| Hgt]; [assumption | exfalso].
  pose proof (pow2_pos (e + 1000) ltac:(lia)) as Hp.
  assert (2 ^ (k + 1000) < 2 ^ 52 * 2 ^ (e + 1000)).
  { rewrite <- pow2_add by lia. apply pow2_lt; lia. }
  assert (2 ^ 52 * 2 ^ (e + 1000) <= Z.pos m * 2 ^ (e + 1000))
    by (apply Z.mul_le_mono_nonneg_r; lia).
  lia.
Qed.

Lemma exponent_lower (m : positive) (e k : Z) :
  normal_mantissa m -> -1000 <= e -> 0 <= k + 1000 ->
  2 ^ (k + 1000) <= scaled m e -> k - 52 <= e.
Proof.
  intros [_ Hhi] He Hk Hv. unfold scaled in Hv.
  destruct (Z.le_gt_cases (k - 52) e) as [| Hgt]; [assumption | exfalso].
  pose proof (pow2_pos (e + 1000) ltac:(lia)) as Hp.
  assert (2 ^ 53 * 2 ^ (e + 1000) <= 2 ^ (k + 1000)).
  { rewrite <- pow2_add by lia. apply pow2_le; lia. }
  assert (Z.pos m * 2 ^ (e + 1000) < 2 ^ 53 * 2 ^ (e + 1000))
    by (apply Z.mul_lt_mono_pos_r; lia).
  lia.
Qed.

Lemma exponent_upper_lt (m : positive) (e k : Z) :
  normal_mantissa m -> -1000 <= e -> 0 <= k + 1000 ->
  scaled m e < 2 ^ (k + 1000) -> e <= k - 53.
Proof.
  intros [Hlo _] He Hk Hv. unfold scaled in Hv.
  destruct (Z.le_gt_cases e (k - 53)) as [| Hgt]; [assumption | exfalso].
  pose proof (pow2_pos (e + 1000) ltac:(lia)) as Hp.
  assert (2 ^ (k + 1000) <= 2 ^ 52 * 2 ^ (e + 1000)).
  { rewrite <- pow2_add by lia. apply pow2_le; lia. }
  assert (2 ^ 52 * 2 ^ (e + 1000) <= Z.pos m * 2 ^ (e + 1000))
    by (apply Z.mul_le_mono_nonneg_r; lia).
  lia.
Qed.

(** *** Conversions *)

Lemma Zpos_iter_xO (p k : positive) :
  Z.pos (Pos.iter xO p k) = Z.pos p * 2 ^ Z.pos k.
Proof.
  rewrite (Pos.iter_swap_gen _ _ Z.pos xO (Z.mul 2)) by reflexivity.
  change (Pos.iter (Z.mul 2) (Z.pos p) k) with (Z.shiftl (Z.pos p) (Z.pos k)).
  apply Z.shiftl_mul_pow2. lia.
Qed.

(** [float(n)] is exact below 2^53. *)
Lemma of_int_normal (n : Z) :
  1 <= n < 2 ^ 53 ->
  exists m e, Float.of_int n = S754_finite false m e /\
    normal_mantissa m /\ -52 <= e <= 0 /\ scaled m e = n * 2 ^ 1000.
Proof.
  intros Hn. destruct n as [| p |]; try lia.
  unfold Float.of_int, binary_normalize, binary_round, shl_align.
  pose proof (digits2_pos_bounds p) as Hd.
  set (d := Z.pos (digits2_pos p)) in *.
  assert (1 <= d <= 53) as Hd53.
  { split; [subst d; lia |].
    destruct (Z.le_gt_cases d 53) as [| Hgt]; [assumption |].
    pose proof (pow2_le 53 (d - 1) ltac:(lia)). lia. }
  rewrite fexp_normal by lia.
  assert (exists mz ez,
    (match d + 0 - 53 - 0 with
     | Z.neg k => (Pos.iter xO p k, d + 0 - 53)
     | _ => (p, 0)
     end) = (mz, ez) /\ ez = d - 53 /\ Z.pos mz = Z.pos p * 2 ^ (53 - d))
    as (mz & ez & -> & -> & Hmz).
  { destruct (d + 0 - 53 - 0) as [| k | k] eqn:Hk; try lia.
    - exists p, 0. replace (53 - d) with 0 by lia. split; [reflexivity |]. lia.
    - eexists _, _. split; [reflexivity |]. split; [lia |].
      rewrite Zpos_iter_xO. do 2 f_equal. lia. }
  pose proof (pow2_pos (53 - d) ltac:(lia)) as Hp.
  assert (2 ^ (53 - 1) <= Z.pos mz < 2 ^ 53) as Hmzr.
  { rewrite Hmz. rewrite (pow2_split 53 (53 - d)) by lia.
    rewrite (pow2_split (53 - 1) (53 - d)) by lia.
    replace (53 - (53 - d)) with d by lia.
    replace (53 - 1 - (53 - d)) with (d - 1) by lia.
    split; [apply Z.mul_le_mono_nonneg_r; lia | apply Z.mul_lt_mono_pos_r; lia]. }
  destruct (binary_round_aux_bounds (Z.pos mz) (d - 53) loc_Exact 53 Hmzr)
    as (m & e & -> & Hm & He & Hup & Hlo); [lia | lia |].
  exists m, e. split; [reflexivity |]. split; [assumption |].
  specialize (Hup (Z.pos mz)). specialize (Hlo (Z.pos mz)).
  replace (53 - 53) with 0 in Hup, Hlo by lia.
  rewrite Z.pow_0_r, Z.mul_1_r in Hup, Hlo.
  assert (Z.pos mz * 2 ^ (53 + (d - 53) - 53 + 1000) = Z.pos p * 2 ^ 1000) as Hv.
  { rewrite Hmz, <- Z.mul_assoc, <- pow2_add by lia. do 2 f_equal. lia. }
  rewrite Hv in Hup, Hlo.
  assert (scaled m e = Z.pos p * 2 ^ 1000) as Hs.
  { apply Z.le_antisymm; [apply Hup; right; auto | apply Hlo; lia]. }
  split; [| assumption].
  split; [lia |].
  assert (e <= 53 - 53); [| lia].
  apply (exponent_upper_lt m); [assumption | lia | lia |].
  rewrite Hs, (pow2_add 53 1000) by lia.
  apply Z.mul_lt_mono_pos_r; [apply pow2_pos; lia | lia].
Qed.

(** *** Multiplication *)

Lemma mul_round (mx my : positive) (ex ey : Z) :
  normal_mantissa mx -> normal_mantissa my ->
  -450 <= ex -> -450 <= ey -> ex + ey <= -54 ->
  exists m e d,
    Float.mul (S754_finite false mx ex) (S754_finite false my ey)
      = S754_finite false m e /\
    normal_mantissa m /\ ex + ey + 52 <= e <= 0 /\
    105 <= d <= 106 /\ 2 ^ (d - 1) <= Z.pos mx * Z.pos my /\
    (forall g, Z.pos mx * Z.pos my <= g * 2 ^ (d - 53) ->
       scaled m e <= g * 2 ^ (d + (ex + ey) - 53 + 1000)) /\
    (forall g, g * 2 ^ (d - 53) <= Z.pos mx * Z.pos my ->
       g * 2 ^ (d + (ex + ey) - 53 + 1000) <= scaled m e).
Proof.
  intros [Hxl Hxh] [Hyl Hyh] Hex Hey Hsum.
  unfold Float.mul, SFmul. cbn [xorb]. rewrite Pos2Z.inj_mul.
  set (P := Z.pos mx * Z.pos my).
  assert (2 ^ 104 <= P < 2 ^ 106) as HP.
  { subst P. change (2 ^ 104) with (2 ^ 52 * 2 ^ 52).
    change (2 ^ 106) with (2 ^ 53 * 2 ^ 53). split.
    - apply Z.mul_le_mono_nonneg; lia.
    - apply Z.mul_lt_mono_nonneg; lia. }
  assert (exists d, 105 <= d <= 106 /\ 2 ^ (d - 1) <= P < 2 ^ d) as (d & Hd & HPd).
  { destruct (Z.lt_ge_cases P (2 ^ 105)).
    - exists 105. split; [lia |]. change (105 - 1) with 104. lia.
    - exists 106. split; [lia |]. change (106 - 1) with 105. lia. }
  destruct (binary_round_aux_bounds P (ex + ey) loc_Exact d HPd)
    as (m & e & -> & Hm & He & Hup & Hlo); [lia | lia |].
  exists m, e, d. split; [reflexivity |]. split; [assumption |]. split; [lia |].
  split; [assumption |]. split; [lia |]. split; [| assumption].
  intros g Hg. apply Hup.
  destruct (Z.eq_dec P (g * 2 ^ (d - 53))); [right | left]; auto with zarith.
Qed.

Lemma scaled_mul (mx my : positive) (ex ey : Z) :
  -1000 <= ex -> -1000 <= ey ->
  scaled mx ex * scaled my ey = Z.pos mx * Z.pos my * 2 ^ (ex + ey + 2000).
Proof.
  intros Hex Hey. unfold scaled.
  replace (ex + ey + 2000) with ((ex + 1000) + (ey + 1000)) by lia.
  rewrite (pow2_add (ex + 1000) (ey + 1000)) by lia. ring.
Qed.

(** The product against a bound [B * 2^-rho]: rounding does not cross a
    number the format represents. *)
Lemma mul_normal_fine (mx my : positive) (ex ey : Z) :
  normal_mantissa mx -> normal_mantissa my ->
  -450 <= ex -> -450 <= ey -> ex + ey <= -54 ->
  exists m e,
    Float.mul (S754_finite false mx ex) (S754_finite false my ey)
      = S754_finite false m e /\
    normal_mantissa m /\ ex + ey + 52 <= e <= 0 /\
    (forall B rho, 0 <= rho <= 1000 -> B < 2 ^ 53 ->
       scaled mx ex * scaled my ey <= B * 2 ^ (2000 - rho) ->
       scaled m e <= B * 2 ^ (1000 - rho)) /\
    (forall B rho, 0 <= rho <= 1000 ->
       scaled mx ex * scaled my ey < 2 ^ (2053 - rho) ->
       B * 2 ^ (2000 - rho) <= scaled mx ex * scaled my ey ->
       B * 2 ^ (1000 - rho) <= scaled m e).
Proof.
  intros Hx Hy Hex Hey Hsum.
  destruct (mul_round mx my ex ey Hx Hy Hex Hey Hsum)
    as (m & e & d & Hres & Hm & He & Hd & HPd & Hup & Hlo).
  exists m, e. split; [assumption |]. split; [assumption |]. split; [assumption |].
  rewrite scaled_mul by lia.
  set (P := Z.pos mx * Z.pos my) in *.
  pose proof (pow2_pos (ex + ey + 2000) ltac:(lia)) as Hpxy.
  assert (forall rho, 0 <= rho <= 1000 -> P * 2 ^ (ex + ey + 2000) < 2 ^ (2053 - rho) ->
                      d + (ex + ey) - 53 <= - rho) as Hgrid.
  { intros rho Hrho Hlt.
    assert (d - 1 + (ex + ey + 2000) < 2053 - rho); [| lia].
    apply pow2_lt_inv; [lia |].
    rewrite pow2_add by lia.
    apply Z.le_lt_trans with (P * 2 ^ (ex + ey + 2000)); [| assumption].
    apply Z.mul_le_mono_nonneg_r; lia. }
  assert (forall B rho, 0 <= rho <= 1000 -> d + (ex + ey) - 53 <= - rho ->
            B * 2 ^ (2000 - rho)
            = B * 2 ^ (- rho - (d + (ex + ey) - 53)) * 2 ^ (d - 53) * 2 ^ (ex + ey + 2000))
    as H2000.
  { intros B rho Hrho Hg.
    rewrite <- !Z.mul_assoc, <- !pow2_add by lia. do 2 f_equal. lia. }
  assert (forall B rho, 0 <= rho <= 1000 -> d + (ex + ey) - 53 <= - rho ->
            B * 2 ^ (- rho - (d + (ex + ey) - 53)) * 2 ^ (d + (ex + ey) - 53 + 1000)
            = B * 2 ^ (1000 - rho)) as Hu.
  { intros B rho Hrho Hg.
    rewrite <- Z.mul_assoc, <- pow2_add by lia. do 2 f_equal. lia. }
  split.
  - intros B rho Hrho HB Hle.
    assert (d + (ex + ey) - 53 <= - rho) as Hg.
    { apply Hgrid; [assumption |].
      apply Z.le_lt_trans with (B * 2 ^ (2000 - rho)); [assumption |].
      replace (2053 - rho) with (53 + (2000 - rho)) by lia.
      rewrite pow2_add by lia.
      apply Z.mul_lt_mono_pos_r; [apply pow2_pos; lia | assumption]. }
    rewrite <- (Hu B rho Hrho Hg). apply Hup.
    rewrite (H2000 B rho Hrho Hg) in Hle.
    apply Z.mul_le_mono_pos_r in Hle; assumption.
  - intros B rho Hrho Hlt Hle.
    pose proof (Hgrid rho Hrho Hlt) as Hg.
    rewrite <- (Hu B rho Hrho Hg). apply Hlo.
    rewrite (H2000 B rho Hrho Hg) in Hle.
    apply Z.mul_le_mono_pos_r in Hle; assumption.
Qed.

Lemma mul_normal (mx my : positive) (ex ey : Z) :
  normal_mantissa mx -> normal_mantissa my ->
  -450 <= ex -> -450 <= ey -> ex + ey <= -54 ->
  exists m e,
    Float.mul (S754_finite false mx ex) (S754_finite false my ey)
      = S754_finite false m e /\
    normal_mantissa m /\ ex + ey + 52 <= e <= 0 /\
    (forall B, scaled mx ex * scaled my ey <= B * 2 ^ 2000 ->
       scaled m e <= B * 2 ^ 1000) /\
    (forall B, B * 2 ^ 2000 <= scaled mx ex * scaled my ey ->
       B * 2 ^ 1000 <= scaled m e).
Proof.
  intros Hx Hy Hex Hey Hsum.
  destruct (mul_round mx my ex ey Hx Hy Hex Hey Hsum)
    as (m & e & d & Hres & Hm & He & Hd & HPd & Hup & Hlo).
  exists m, e. split; [assumption |]. split; [assumption |]. split; [assumption |].
  rewrite scaled_mul by lia.
  set (P := Z.pos mx * Z.pos my) in *.
  pose proof (pow2_pos (ex + ey + 2000) ltac:(lia)) as Hpxy.
  assert (forall B, B * 2 ^ 2000 = B * 2 ^ (- (ex + ey)) * 2 ^ (ex + ey + 2000)) as H2000.
  { intros B. rewrite <- Z.mul_assoc, <- pow2_add by lia. do 2 f_equal. lia. }
  assert (forall B, B * 2 ^ (53 - (d + (ex + ey))) * 2 ^ (d - 53) = B * 2 ^ (- (ex + ey))) as Hg.
  { intros B. rewrite <- Z.mul_assoc, <- pow2_add by lia. do 2 f_equal. lia. }
  assert (forall B, B * 2 ^ (53 - (d + (ex + ey))) * 2 ^ (d + (ex + ey) - 53 + 1000) = B * 2 ^ 1000) as Hu.
  { intros B. rewrite <- Z.mul_assoc, <- pow2_add by lia. do 2 f_equal. lia. }
  split; intros B HB; rewrite H2000 in HB;
    apply Z.mul_le_mono_pos_r in HB; try assumption; rewrite <- (Hu B).
  - apply Hup. rewrite Hg. assumption.
  - apply Hlo. rewrite Hg. assumption.
Qed.

(** *** Division *)

Lemma new_location_exact (nb_steps : Z) : new_location nb_steps 0 = loc_Exact.
Proof.
  unfold new_location, new_location_even, new_location_odd.
  destruct (Z.even nb_steps); reflexivity.
Qed.

Lemma div_normal (mx my : positive) (ex ey : Z) :
  normal_mantissa mx -> normal_mantissa my ->
  -450 <= ex <= 0 -> -450 <= ey <= 0 -> ex - ey <= 51 ->
  exists m e,
    SFdiv Float.prec Float.emax (S754_finite false mx ex) (S754_finite false my ey)
      = S754_finite false m e /\
    normal_mantissa m /\ ex - ey - 53 <= e <= 0 /\
    (forall B, scaled mx ex <= B * scaled my ey -> scaled m e <= B * 2 ^ 1000) /\
    (forall B, B * scaled my ey <= scaled mx ex -> B * 2 ^ 1000 <= scaled m e) /\
    scaled m e * scaled my ey * (2 ^ 52 - 1) <= scaled mx ex * 2 ^ 1052 /\
    scaled mx ex * 2 ^ 1052 <= scaled m e * scaled my ey * (2 ^ 52 + 1).
Proof.
  intros Hx Hy Hex Hey Hdiff.
  pose proof Hx as [Hxl Hxh]. pose proof Hy as [Hyl Hyh].
  unfold SFdiv, SFdiv_core_binary. cbn [xorb]. cbv zeta.
  rewrite (Zdigits2_unique (Z.pos mx) 53), (Zdigits2_unique (Z.pos my) 53)
    by (assumption || lia).
  rewrite fexp_normal by lia.
  rewrite Z.min_l by lia.
  replace (ex - ey - (53 + ex - (53 + ey) - 53)) with 53 by lia.
  rewrite Z.shiftl_mul_pow2 by lia.
  pose proof (Z_div_mod (Z.pos mx * 2 ^ 53) (Z.pos my) ltac:(lia)) as Hqr.
  destruct (Z.div_eucl (Z.pos mx * 2 ^ 53) (Z.pos my)) as [q r].
  destruct Hqr as [Hqr Hr].
  assert (2 ^ 52 <= q < 2 ^ 54) as Hq.
  { change (2 ^ 54) with (2 * 2 ^ 53). change (2 ^ 53) with (2 * 2 ^ 52) in *.
    set (t := 2 ^ 52) in *. assert (0 < t) by (subst t; reflexivity). nia. }
  assert (exists d, 53 <= d <= 54 /\ 2 ^ (d - 1) <= q < 2 ^ d) as (d & Hd & Hqd).
  { destruct (Z.lt_ge_cases q (2 ^ 53)).
    - exists 53. split; [lia |]. change (53 - 1) with 52. lia.
    - exists 54. split; [lia |]. change (54 - 1) with 53. lia. }
  destruct (binary_round_aux_bounds q (53 + ex - (53 + ey) - 53)
              (new_location (Z.pos my) r) d Hqd)
    as (m & e & -> & Hm & He & Hup & Hlo); [lia | lia |].
  exists m, e. split; [reflexivity |]. split; [assumption |]. split; [lia |].
  pose proof (pow2_pos (ex + 1000) ltac:(lia)) as Hpx.
  pose proof (pow2_pos (ey + 1000) ltac:(lia)) as Hpy.
  pose proof (pow2_pos (53 - ex + ey) ltac:(lia)) as Hpn.
  (* the bound [B] in units of the quotient's last bit *)
  assert (forall B, B * 2 ^ (106 - d - ex + ey) * 2 ^ (d - 53) = B * 2 ^ (53 - ex + ey)) as Hg.
  { intros B. rewrite <- Z.mul_assoc, <- pow2_add by lia. do 2 f_equal. lia. }
  assert (forall B, B * 2 ^ (106 - d - ex + ey)
                    * 2 ^ (d + (53 + ex - (53 + ey) - 53) - 53 + 1000) = B * 2 ^ 1000) as Hu.
  { intros B. rewrite <- Z.mul_assoc, <- pow2_add by lia. do 2 f_equal. lia. }
  assert (2 ^ 53 * 2 ^ (ey + 1000) = 2 ^ (53 - ex + ey) * 2 ^ (ex + 1000)) as Hcross.
  { rewrite <- !pow2_add by lia. f_equal. lia. }
  assert (forall B,
    B * 2 ^ (53 - ex + ey) * Z.pos my * 2 ^ (ex + 1000)
    = B * (Z.pos my * 2 ^ (ey + 1000)) * 2 ^ 53) as Hcross'.
  { intros B.
    replace (B * 2 ^ (53 - ex + ey) * Z.pos my * 2 ^ (ex + 1000))
      with (B * Z.pos my * (2 ^ (53 - ex + ey) * 2 ^ (ex + 1000))) by ring.
    rewrite <- Hcross. ring. }
  split; [| split].
  - intros B HB. unfold scaled in HB. rewrite <- (Hu B).
    apply Hup. rewrite Hg.
    assert (Z.pos my * q + r <= B * 2 ^ (53 - ex + ey) * Z.pos my) as Hle.
    { rewrite <- Hqr.
      apply (Z.mul_le_mono_pos_r _ _ (2 ^ (ex + 1000))); [assumption |].
      rewrite Hcross'.
      replace (Z.pos mx * 2 ^ 53 * 2 ^ (ex + 1000))
        with (Z.pos mx * 2 ^ (ex + 1000) * 2 ^ 53) by ring.
      apply Z.mul_le_mono_nonneg_r; [lia | assumption]. }
    set (G := B * 2 ^ (53 - ex + ey)) in *.
    assert (q <= G) as HqG by nia.
    destruct (Z.eq_dec q G) as [-> | Hne]; [right | left; lia].
    split; [reflexivity |].
    assert (r = 0) as -> by nia. apply new_location_exact.
  - intros B HB. unfold scaled in HB. rewrite <- (Hu B).
    apply Hlo. rewrite Hg.
    assert (B * 2 ^ (53 - ex + ey) * Z.pos my <= Z.pos my * q + r) as Hle.
    { rewrite <- Hqr.
      apply (Z.mul_le_mono_pos_r _ _ (2 ^ (ex + 1000))); [assumption |].
      rewrite Hcross'.
      replace (Z.pos mx * 2 ^ 53 * 2 ^ (ex + 1000))
        with (Z.pos mx * 2 ^ (ex + 1000) * 2 ^ 53) by ring.
      apply Z.mul_le_mono_nonneg_r; [lia | assumption]. }
    set (G := B * 2 ^ (53 - ex + ey)) in *. nia.
  - (* the relative error: one unit of the last kept bit, at most 2^-52 of
       the result *)
    set (S := scaled m e) in *.
    set (K := 2 ^ (d - 53)) in *.
    set (u := 2 ^ (d + (53 + ex - (53 + ey) - 53) - 53 + 1000)) in *.
    set (c := 2 ^ (ex + 1947)).
    assert (0 < c) as Hc by (apply pow2_pos; lia).
    assert (0 < K) as HK by (apply pow2_pos; lia).
    assert (u * 2 ^ (ey + 1000) = K * c) as Hunit.
    { subst u K c. rewrite <- !pow2_add by lia. f_equal. lia. }
    assert (2 ^ (ex + 1000) * 2 ^ 1052 = 2 ^ 53 * c * 2 ^ 52) as Hexact.
    { subst c. rewrite <- !pow2_add by lia. f_equal. lia. }
    set (gl := q / K).
    assert (gl * K <= q < (gl + 1) * K) as Hgl.
    { pose proof (Z.div_mod q K ltac:(lia)).
      pose proof (Z.mod_pos_bound q K HK). subst gl. lia. }
    pose proof (Hlo gl ltac:(lia)) as HSlo.
    pose proof (Hup (gl + 1) ltac:(left; lia)) as HSup.
    fold u in HSlo, HSup.
    set (a := c * Z.pos my).
    assert (0 < a) as Ha by (subst a; lia).
    assert (forall g, g * u * (Z.pos my * 2 ^ (ey + 1000)) = g * K * a) as Hga.
    { intros g.
      replace (g * u * (Z.pos my * 2 ^ (ey + 1000)))
        with (g * Z.pos my * (u * 2 ^ (ey + 1000))) by ring.
      rewrite Hunit. subst a. ring. }
    assert (S * scaled my ey <= (gl + 1) * K * a /\ gl * K * a <= S * scaled my ey)
      as [Hprod_up Hprod_lo].
    { unfold scaled at 1 2. rewrite <- !Hga.
      split; apply Z.mul_le_mono_nonneg_r; lia. }
    assert (scaled mx ex * 2 ^ 1052 = (q * a + r * c) * 2 ^ 52) as Hsx.
    { unfold scaled. rewrite <- Z.mul_assoc, Hexact. subst a.
      replace (Z.pos mx * (2 ^ 53 * c * 2 ^ 52))
        with (Z.pos mx * 2 ^ 53 * c * 2 ^ 52) by ring.
      rewrite Hqr. ring. }
    assert (r * c <= a) as Hrc by (subst a; nia).
    assert (0 <= r * c) as Hrc0 by nia.
    assert ((gl + 1) * K * (2 ^ 52 - 1) <= q * 2 ^ 52 /\
            (q + 1) * 2 ^ 52 <= gl * K * (2 ^ 52 + 1)) as [Hint_up Hint_lo].
    { assert (d = 53 \/ d = 54) as [-> | ->] by lia.
      - change (2 ^ (53 - 53)) with 1 in K. subst K.
        change (2 ^ (53 - 1)) with (2 ^ 52) in Hqd.
        change (2 ^ 52) with 4503599627370496 in *. lia.
      - change (2 ^ (54 - 53)) with 2 in K. subst K.
        change (2 ^ (54 - 1)) with 9007199254740992 in Hqd.
        change (2 ^ 52) with 4503599627370496 in *. lia. }
    rewrite Hsx. split.
    + apply Z.le_trans with ((gl + 1) * K * a * (2 ^ 52 - 1)).
      { apply Z.mul_le_mono_nonneg_r; [vm_compute; discriminate | assumption]. }
      apply Z.le_trans with (q * 2 ^ 52 * a).
      { replace ((gl + 1) * K * a * (2 ^ 52 - 1))
          with ((gl + 1) * K * (2 ^ 52 - 1) * a) by ring.
        apply Z.mul_le_mono_nonneg_r; lia. }
      replace (q * 2 ^ 52 * a) with (q * a * 2 ^ 52) by ring.
      apply Z.mul_le_mono_nonneg_r; [vm_compute; discriminate | lia].
    + apply Z.le_trans with ((q + 1) * 2 ^ 52 * a).
      { replace ((q + 1) * 2 ^ 52 * a) with ((q * a + a) * 2 ^ 52) by ring.
        apply Z.mul_le_mono_nonneg_r; [vm_compute; discriminate | lia]. }
      apply Z.le_trans with (gl * K * (2 ^ 52 + 1) * a).
      { apply Z.mul_le_mono_nonneg_r; lia. }
      replace (gl * K * (2 ^ 52 + 1) * a) with (gl * K * a * (2 ^ 52 + 1)) by ring.
      apply Z.mul_le_mono_nonneg_r; [vm_compute; discriminate | assumption].
Qed.

(** *** Comparison and integer parts *)

Lemma scaled_lt_exponent (m1 m2 : positive) (e1 e2 : Z) :
  normal_mantissa m1 -> normal_mantissa m2 -> -1000 <= e1 -> e1 < e2 ->
  scaled m1 e1 < scaled m2 e2.
Proof.
  intros [_ Hh1] [Hl2 _] He1 Hlt. unfold scaled.
  pose proof (pow2_pos (e1 + 1000) ltac:(lia)) as Hp1.
  pose proof (pow2_pos (e2 + 1000) ltac:(lia)) as Hp2.
  assert (2 ^ 53 * 2 ^ (e1 + 1000) <= 2 ^ 52 * 2 ^ (e2 + 1000)).
  { rewrite <- !pow2_add by lia. apply pow2_le. lia. }
  assert (Z.pos m1 * 2 ^ (e1 + 1000) < 2 ^ 53 * 2 ^ (e1 + 1000))
    by (apply Z.mul_lt_mono_pos_r; lia).
  assert (2 ^ 52 * 2 ^ (e2 + 1000) <= Z.pos m2 * 2 ^ (e2 + 1000))
    by (apply Z.mul_le_mono_nonneg_r; lia).
  lia.
Qed.

Lemma leb_scaled (m1 m2 : positive) (e1 e2 : Z) :
  normal_mantissa m1 -> normal_mantissa m2 -> -1000 <= e1 -> -1000 <= e2 ->
  Float.leb (S754_finite false m1 e1) (S754_finite false m2 e2)
  = (scaled m1 e1 <=? scaled m2 e2).
Proof.
  intros H1 H2 He1 He2. unfold Float.leb, SFleb, SFcompare.
  destruct (Z.compare_spec e1 e2) as [-> | Hlt | Hgt].
  - change (Pos.compare_cont Eq m1 m2) with (Pos.compare m1 m2).
    pose proof (pow2_pos (e2 + 1000) ltac:(lia)) as Hp. unfold scaled.
    destruct (Pos.compare_spec m1 m2) as [-> | Hlt | Hgt]; symmetry.
    + apply Z.leb_refl.
    + apply Z.leb_le. apply Z.mul_le_mono_nonneg_r; lia.
    + apply Z.leb_gt. apply Z.mul_lt_mono_pos_r; lia.
  - pose proof (scaled_lt_exponent m1 m2 e1 e2 H1 H2 He1 Hlt).
    symmetry. apply Z.leb_le. lia.
  - pose proof (scaled_lt_exponent m2 m1 e2 e1 H2 H1 He2 ltac:(lia)).
    symmetry. apply Z.leb_gt. lia.
Qed.

Lemma magnitude_bounds (m : positive) (e : Z) :
  -1000 <= e <= 0 ->
  let '(q, exact) := Float.magnitude m e in
  0 <= q /\
  (forall B, scaled m e <= B * 2 ^ 1000 -> (if exact then q else q + 1) <= B) /\
  (forall B, B * 2 ^ 1000 <= scaled m e -> B <= q) /\
  (forall B, scaled m e < B * 2 ^ 1000 -> q < B).
Proof.
  intros He. unfold Float.magnitude, scaled.
  pose proof (pow2_pos (e + 1000) ltac:(lia)) as Hp.
  pose proof (pow2_pos (- e) ltac:(lia)) as Hn.
  assert (forall B, B * 2 ^ 1000 = B * 2 ^ (- e) * 2 ^ (e + 1000)) as H1000.
  { intros B. rewrite <- Z.mul_assoc, <- pow2_add by lia. do 2 f_equal. lia. }
  destruct (Z.leb_spec 0 e) as [Hz | Hneg].
  - assert (e = 0) as -> by lia. rewrite Z.pow_0_r, Z.mul_1_r. simpl.
    split; [lia |].
    split; [| split]; intros B HB;
      [apply Z.mul_le_mono_pos_r in HB | apply Z.mul_le_mono_pos_r in HB
       | apply Z.mul_lt_mono_pos_r in HB]; lia.
  - pose proof (Z.div_mod (Z.pos m) (2 ^ (- e)) ltac:(lia)) as Hdm.
    pose proof (Z.mod_pos_bound (Z.pos m) (2 ^ (- e)) Hn) as Hmod.
    split; [apply Z.div_pos; lia |].
    split; [| split]; intros B HB; rewrite H1000 in HB;
      [apply Z.mul_le_mono_pos_r in HB | apply Z.mul_le_mono_pos_r in HB
       | apply Z.mul_lt_mono_pos_r in HB]; try assumption.
    + destruct (Z.eqb_spec (Z.pos m mod 2 ^ (- e)) 0) as [Hex | Hinex].
      * apply Z.div_le_upper_bound; lia.
      * assert (Z.pos m / 2 ^ (- e) < B); [| lia].
        apply Z.div_lt_upper_bound; [lia |].
        destruct (Z.eq_dec (Z.pos m) (2 ^ (- e) * B)) as [Heq | Hne]; [| lia].
        exfalso. apply Hinex. rewrite Heq, Z.mul_comm. apply Z.mod_mul. lia.
    + apply Z.div_le_lower_bound; lia.
    + apply Z.div_lt_upper_bound; lia.
Qed.

Lemma floor_ceil_normal (m : positive) (e B : Z) :
  -1000 <= e <= 0 -> scaled m e <= B * 2 ^ 1000 ->
  exists lo hi,
    Float.floor (S754_finite false m e) = Py.Ok lo /\
    Float.ceil (S754_finite false m e) = Py.Ok hi /\
    0 <= lo <= B /\ 0 <= hi <= B.
Proof.
  intros He HB. pose proof (magnitude_bounds m e He) as Hmag.
  unfold Float.floor, Float.ceil.
  destruct (Float.magnitude m e) as [q exact].
  destruct Hmag as (Hq & Hup & _). specialize (Hup B HB).
  eexists _, _. split; [reflexivity |]. split; [reflexivity |].
  destruct exact; lia.
Qed.


Lemma to_int_bounds (m : positive) (e lo hi : Z) :
  -1000 <= e <= 0 ->
  lo * 2 ^ 1000 <= scaled m e -> scaled m e < (hi + 1) * 2 ^ 1000 ->
  exists n, Float.to_int (S754_finite false m e) = Py.Ok n /\ lo <= n <= hi.
Proof.
  intros He Hl Hh. pose proof (magnitude_bounds m e He) as Hmag.
  unfold Float.to_int.
  destruct (Float.magnitude m e) as [q exact].
  destruct Hmag as (_ & _ & Hlo & Hup).
  specialize (Hlo lo Hl). specialize (Hup (hi + 1) Hh).
  eexists. split; [reflexivity |]. simpl. lia.
Qed.

(** *** The operations of the display policy

    On image sides and bounds below 2^26. *)

Lemma of_int_side (n : Z) :
  1 <= n < 2 ^ 26 ->
  exists m e, Float.of_int n = S754_finite false m e /\
    normal_mantissa m /\ -52 <= e <= -27 /\ scaled m e = n * 2 ^ 1000.
Proof.
  intros Hn.
  destruct (of_int_normal n) as (m & e & Hof & Hm & He & Hs).
  { change (2 ^ 53) with (2 ^ 26 * 2 ^ 27). change (2 ^ 26) with 67108864 in *. lia. }
  exists m, e. split; [assumption |]. split; [assumption |]. split; [| assumption].
  split; [lia |].
  assert (e <= 26 - 53); [| lia].
  apply (exponent_upper_lt m); [assumption | lia | lia |].
  rewrite Hs, (pow2_add 26 1000) by lia.
  apply Z.mul_lt_mono_pos_r; [apply pow2_pos; lia | lia].
Qed.

Lemma truediv_ok (a b : Z) :
  b <> 0 -> Float.truediv a b
            = Py.Ok (SFdiv Float.prec Float.emax (Float.of_int a) (Float.of_int b)).
Proof.
  intros Hb. unfold Float.truediv.
  destruct (Z.eqb_spec b 0); [contradiction | reflexivity].
Qed.

Lemma truediv_sides (a b : Z) :
  1 <= a < 2 ^ 26 -> 1 <= b < 2 ^ 26 ->
  exists m e, Float.truediv a b = Py.Ok (S754_finite false m e) /\
    normal_mantissa m /\ -78 <= e <= 0 /\
    (forall B, a <= B * b -> scaled m e <= B * 2 ^ 1000) /\
    (forall B, B * b <= a -> B * 2 ^ 1000 <= scaled m e) /\
    scaled m e * b * (2 ^ 52 - 1) <= a * 2 ^ 1052 /\
    a * 2 ^ 1052 <= scaled m e * b * (2 ^ 52 + 1).
Proof.
  intros Ha Hb. rewrite truediv_ok by lia.
  destruct (of_int_side a Ha) as (ma & ea & -> & Hma & Hea & Hsa).
  destruct (of_int_side b Hb) as (mb & eb & -> & Hmb & Heb & Hsb).
  destruct (div_normal ma mb ea eb Hma Hmb)
    as (m & e & -> & Hm & He & Hup & Hlo & Herr_up & Herr_lo);
    [lia | lia | lia |].
  exists m, e. split; [reflexivity |]. split; [assumption |]. split; [lia |].
  pose proof (pow2_pos 1000 ltac:(lia)) as Hp.
  rewrite Hsa, Hsb in *.
  split; [| split; [| split]].
  - intros B HB. apply Hup.
    rewrite Z.mul_assoc. apply Z.mul_le_mono_nonneg_r; lia.
  - intros B HB. apply Hlo.
    rewrite Z.mul_assoc. apply Z.mul_le_mono_nonneg_r; lia.
  - apply (Z.mul_le_mono_pos_r _ _ (2 ^ 1000)); [assumption |].
    replace (scaled m e * b * (2 ^ 52 - 1) * 2 ^ 1000)
      with (scaled m e * (b * 2 ^ 1000) * (2 ^ 52 - 1)) by ring.
    replace (a * 2 ^ 1052 * 2 ^ 1000) with (a * 2 ^ 1000 * 2 ^ 1052) by ring.
    assumption.
  - apply (Z.mul_le_mono_pos_r _ _ (2 ^ 1000)); [assumption |].
    replace (scaled m e * b * (2 ^ 52 + 1) * 2 ^ 1000)
      with (scaled m e * (b * 2 ^ 1000) * (2 ^ 52 + 1)) by ring.
    replace (a * 2 ^ 1052 * 2 ^ 1000) with (a * 2 ^ 1000 * 2 ^ 1052) by ring.
    assumption.
Qed.

Lemma round_aspect_total (number : spec_float) (key : Z -> Py.result spec_float)
    (lo hi : Z) :
  Float.floor number = Py.Ok lo -> Float.ceil number = Py.Ok hi ->
  (forall n, exists v, key n = Py.Ok v) ->
  exists r, Pillow.round_aspect number key = Py.Ok r /\
    (r = Z.max lo 1 \/ r = Z.max hi 1).
Proof.
  intros Hlo Hhi Hkey. unfold Pillow.round_aspect. rewrite Hlo, Hhi. simpl.
  destruct (Hkey lo) as [klo ->]. destruct (Hkey hi) as [khi ->]. simpl.
  eexists. split; [reflexivity |]. destruct (Float.ltb khi klo); auto.
Qed.

(** [thumbnail((b, b))] on an image that does not fit: the requested size
    keeps one side at [b] and brings the other into [1 .. b]. *)
Lemma preserve_aspect_ratio_total (w h b : Z) :
  1 <= w < 2 ^ 26 -> 1 <= h < 2 ^ 26 -> 1 <= b < 2 ^ 26 -> b < Z.max w h ->
  exists x y, Pillow.preserve_aspect_ratio w h b b = Py.Ok (Some (x, y)) /\
    ((x = b /\ 1 <= y <= b) \/ (y = b /\ 1 <= x <= b)).
Proof.
  intros Hw Hh Hb Hmax. unfold Pillow.preserve_aspect_ratio.
  destruct ((w <=? b) && (h <=? b)) eqn:Hfit.
  { apply andb_prop in Hfit as [H1 H2]. lia. }
  destruct (truediv_sides w h Hw Hh) as (ma & ea & -> & Hma & Hea & _ & _).
  destruct (truediv_sides b b Hb Hb) as (mr & er & -> & Hmr & Her & Hrup & Hrlo & _).
  assert (scaled mr er = 2 ^ 1000) as Hratio.
  { specialize (Hrup 1). specialize (Hrlo 1). lia. }
  destruct (of_int_side b Hb) as (mb & eb & Hofb & Hmb & Heb & Hsb).
  pose proof (pow2_pos 1000 ltac:(lia)) as Hp.
  cbn [Py.bind]. rewrite leb_scaled, Hratio by (assumption || lia).
  rewrite Hofb.
  destruct (Z.leb_spec (scaled ma ea) (2 ^ 1000)) as [Hle | Hgt].
  - (* the height is kept, the width is computed *)
    assert (ea <= 0 - 52) as Hea'
      by (apply (exponent_upper ma); [assumption | lia | lia | assumption]).
    destruct (mul_normal mb ma eb ea Hmb Hma) as (m & e & -> & Hm & He & Hup & _);
      [lia | lia | lia |].
    destruct (floor_ceil_normal m e b) as (lo & hi & Hlo & Hhi & Hlob & Hhib);
      [lia | |].
    { apply Hup. rewrite Hsb. change (2 ^ 2000) with (2 ^ 1000 * 2 ^ 1000).
      rewrite Z.mul_assoc. apply Z.mul_le_mono_nonneg_l; lia. }
    destruct (round_aspect_total _
                (fun n => q <- Float.truediv n b ;;
                          Py.Ok (Float.abs (Float.sub (S754_finite false ma ea) q)))
                lo hi Hlo Hhi) as (r & -> & Hr).
    { intros n. rewrite truediv_ok by lia. eexists. reflexivity. }
    cbn [Py.bind]. exists r, b. split; [reflexivity |]. right. lia.
  - (* the width is kept, the height is computed *)
    assert (0 - 52 <= ea) as Hea'
      by (apply (exponent_lower ma); [assumption | lia | lia | lia]).
    unfold Float.div. cbn [Float.is_zero Py.bind].
    destruct (div_normal mb ma eb ea Hmb Hma) as (m & e & -> & Hm & He & Hup & _);
      [lia | lia | lia |].
    destruct (floor_ceil_normal m e b) as (lo & hi & Hlo & Hhi & Hlob & Hhib);
      [lia | |].
    { apply Hup. rewrite Hsb. apply Z.mul_le_mono_nonneg_l; lia. }
    destruct (round_aspect_total _
                (fun n => if n =? 0 then Py.Ok (Float.of_int 0)
                          else q <- Float.truediv b n ;;
                               Py.Ok (Float.abs (Float.sub (S754_finite false ma ea) q)))
                lo hi Hlo Hhi) as (r & -> & Hr).
    { intros n. destruct (Z.eqb_spec n 0); [eexists; reflexivity |].
      rewrite truediv_ok by assumption. eexists. reflexivity. }
    cbn [Py.bind]. exists b, r. split; [reflexivity |]. left. lia.
Qed.

Lemma thumbnail_total (w h b : Z) :
  1 <= w < 2 ^ 26 -> 1 <= h < 2 ^ 26 -> 1 <= b < 2 ^ 26 -> b < Z.max w h ->
  exists x y, Pillow.thumbnail w h b b = Py.Ok (x, y) /\
    Z.max x y = b /\ 1 <= Z.min x y.
Proof.
  intros Hw Hh Hb Hmax. unfold Pillow.thumbnail.
  destruct (preserve_aspect_ratio_total w h b Hw Hh Hb Hmax) as (x & y & -> & Hxy).
  cbn [Py.bind]. unfold Pillow.resize. cbn [fst snd].
  exists x, y. split; [| lia].
  destruct (decide ((x, y) = (w, h))) as [[= -> ->] | _]; [reflexivity |].
  destruct (Z.ltb_spec x 1); [lia |]. destruct (Z.ltb_spec y 1); [lia |].
  reflexivity.
Qed.

(** The factor of the enlargement, [b / m] for [m < b]: between 1 and
    [b], within 2^-52 of the quotient. *)
Lemma scale_factor (m b : Z) :
  1 <= m -> m < b < 2 ^ 26 ->
  exists ms es, Float.truediv b m = Py.Ok (S754_finite false ms es) /\
    normal_mantissa ms /\ -52 <= es <= -27 /\
    2 ^ 1000 <= scaled ms es /\
    scaled ms es * m * (2 ^ 52 - 1) <= b * 2 ^ 1052 /\
    b * 2 ^ 1052 <= scaled ms es * m * (2 ^ 52 + 1).
Proof.
  intros Hm Hb.
  destruct (truediv_sides b m) as (ms & es & -> & Hms & Hes & Hup & Hlo & Herr);
    [lia | lia |].
  exists ms, es. split; [reflexivity |]. split; [assumption |].
  pose proof (pow2_pos 1000 ltac:(lia)) as Hp.
  assert (2 ^ 1000 <= scaled ms es) as Hone.
  { specialize (Hlo 1). lia. }
  split; [| split; assumption].
  split.
  - assert (0 - 52 <= es); [| lia].
    apply (exponent_lower ms); [assumption | lia | lia | assumption].
  - assert (es <= 26 - 53); [| lia].
    apply (exponent_upper_lt ms); [assumption | lia | lia |].
    apply Z.le_lt_trans with (b * 2 ^ 1000).
    + apply Hup. nia.
    + rewrite (pow2_add 26 1000) by lia. apply Z.mul_lt_mono_pos_r; lia.
Qed.

(** One axis of the enlargement, [int(side * scale)]: the side does not
    shrink and stays within the bound; the longest side ends at the bound
    or one below it. *)
Lemma scaled_side_bounds (side m b : Z) (ms : positive) (es : Z) :
  1 <= side <= m -> m < b < 2 ^ 26 ->
  normal_mantissa ms -> -52 <= es <= -27 ->
  2 ^ 1000 <= scaled ms es ->
  scaled ms es * m * (2 ^ 52 - 1) <= b * 2 ^ 1052 ->
  b * 2 ^ 1052 <= scaled ms es * m * (2 ^ 52 + 1) ->
  exists n, Float.to_int (Float.mul (Float.of_int side) (S754_finite false ms es))
            = Py.Ok n /\
    side <= n <= b /\ (side = m -> b - 1 <= n).
Proof.
  intros Hside Hb Hms Hes Hone Herr_up Herr_lo.
  destruct (of_int_side side) as (m1 & e1 & -> & Hm1 & He1 & Hs1); [lia |].
  destruct (mul_normal m1 ms e1 es Hm1 Hms) as (p & e & Hmul & Hp & He & _ & Hlo);
    [lia | lia | lia |].
  destruct (mul_normal_fine m1 ms e1 es Hm1 Hms)
    as (p' & e' & Hmul' & _ & _ & Hfup & Hflo); [lia | lia | lia |].
  rewrite Hmul in Hmul'. injection Hmul' as <- <-. rewrite Hmul.
  set (S := scaled ms es) in *. rewrite Hs1 in *.
  set (T := 2 ^ 974).
  assert (0 < T) as HT by (apply pow2_pos; lia).
  assert (2 ^ 1000 = 2 ^ 26 * T) as H1000 by (subst T; rewrite <- pow2_add by lia; reflexivity).
  assert (2 ^ (2000 - 26) = 2 ^ 1000 * T) as H1974
    by (subst T; rewrite <- pow2_add by lia; reflexivity).
  assert (2 ^ (1000 - 26) = T) as H974 by reflexivity.
  assert (2 ^ 1052 = 2 ^ 78 * T) as H1052 by (subst T; rewrite <- pow2_add by lia; reflexivity).
  assert (0 < S) as HS by (pose proof (pow2_pos 1000); lia).
  assert (0 < 2 ^ 1000) as Hp1000 by (apply pow2_pos; lia).
  change (2 ^ 26) with 67108864 in Hb.
  (* the exact product stays below b + 1 - 2^-26 *)
  assert (m * S <= ((b + 1) * 2 ^ 26 - 1) * T) as Hmax.
  { apply (Z.mul_le_mono_pos_r _ _ (2 ^ 52 - 1)); [vm_compute; reflexivity |].
    apply Z.le_trans with (b * 2 ^ 1052); [rewrite (Z.mul_comm m S); assumption |].
    rewrite H1052.
    replace (((b + 1) * 2 ^ 26 - 1) * T * (2 ^ 52 - 1))
      with (((b + 1) * 2 ^ 26 - 1) * (2 ^ 52 - 1) * T) by ring.
    rewrite Z.mul_assoc. apply Z.mul_le_mono_nonneg_r; [lia |].
    change (2 ^ 78) with 302231454903657293676544.
    change (2 ^ 52) with 4503599627370496. change (2 ^ 26) with 67108864. lia. }
  assert (side * S <= ((b + 1) * 2 ^ 26 - 1) * T) as Hside_max.
  { apply Z.le_trans with (m * S); [| assumption].
    apply Z.mul_le_mono_nonneg_r; lia. }
  assert (side * 2 ^ 1000 * S <= ((b + 1) * 2 ^ 26 - 1) * 2 ^ (2000 - 26)) as Hprod.
  { rewrite H1974.
    replace (side * 2 ^ 1000 * S) with (side * S * 2 ^ 1000) by ring.
    replace (((b + 1) * 2 ^ 26 - 1) * (2 ^ 1000 * T))
      with (((b + 1) * 2 ^ 26 - 1) * T * 2 ^ 1000) by ring.
    apply Z.mul_le_mono_nonneg_r; lia. }
  assert (((b + 1) * 2 ^ 26 - 1) < 2 ^ 53) as Hrange.
  { change (2 ^ 53) with 9007199254740992. change (2 ^ 26) with 67108864. lia. }
  pose proof (Hfup _ 26 ltac:(lia) Hrange Hprod) as Hupper.
  rewrite H974 in Hupper.
  assert (scaled p e < (b + 1) * 2 ^ 1000) as Hbelow.
  { apply Z.le_lt_trans with (((b + 1) * 2 ^ 26 - 1) * T); [assumption |].
    rewrite H1000, Z.mul_assoc. apply Z.mul_lt_mono_pos_r; lia. }
  destruct (to_int_bounds p e side b) as (n & Hto & Hn); [lia | | assumption |].
  { apply Hlo. change (2 ^ 2000) with (2 ^ 1000 * 2 ^ 1000).
    rewrite Z.mul_assoc. apply Z.mul_le_mono_nonneg_l; lia. }
  exists n. split; [assumption |]. split; [assumption |].
  intros ->.
  (* the longest side: the exact product is at least b - 2^-26 *)
  assert ((b * 2 ^ 26 - 1) * T <= m * S) as Hmin.
  { apply (Z.mul_le_mono_pos_r _ _ (2 ^ 52 + 1)); [vm_compute; reflexivity |].
    apply Z.le_trans with (b * 2 ^ 1052); [| rewrite (Z.mul_comm m S); assumption].
    rewrite H1052.
    replace ((b * 2 ^ 26 - 1) * T * (2 ^ 52 + 1))
      with ((b * 2 ^ 26 - 1) * (2 ^ 52 + 1) * T) by ring.
    rewrite Z.mul_assoc. apply Z.mul_le_mono_nonneg_r; [lia |].
    change (2 ^ 78) with 302231454903657293676544.
    change (2 ^ 52) with 4503599627370496. change (2 ^ 26) with 67108864. lia. }
  assert ((b * 2 ^ 26 - 1) * 2 ^ (2000 - 26) <= m * 2 ^ 1000 * S) as Hprod_lo.
  { rewrite H1974.
    replace (m * 2 ^ 1000 * S) with (m * S * 2 ^ 1000) by ring.
    replace ((b * 2 ^ 26 - 1) * (2 ^ 1000 * T))
      with ((b * 2 ^ 26 - 1) * T * 2 ^ 1000) by ring.
    apply Z.mul_le_mono_nonneg_r; lia. }
  assert (m * 2 ^ 1000 * S < 2 ^ (2053 - 26)) as Hprod_lt.
  { apply Z.le_lt_trans with (((b + 1) * 2 ^ 26 - 1) * 2 ^ (2000 - 26)); [assumption |].
    replace (2053 - 26) with (53 + (2000 - 26)) by lia.
    rewrite (pow2_add 53 (2000 - 26)) by lia.
    apply Z.mul_lt_mono_pos_r; [apply pow2_pos; lia | assumption]. }
  pose proof (Hflo _ 26 ltac:(lia) Hprod_lt Hprod_lo) as Hlower.
  rewrite H974 in Hlower.
  destruct (to_int_bounds p e (b - 1) b) as (n' & Hto' & Hn');
    [lia | | assumption |].
  { replace (b - 1 + 1) with b in * by lia.
    apply Z.le_trans with ((b * 2 ^ 26 - 1) * T); [| assumption].
    rewrite H1000, Z.mul_assoc. apply Z.mul_le_mono_nonneg_r; lia. }
  rewrite Hto in Hto'. injection Hto' as <-. lia.
Qed.
(** ** Text: code points and their order *)

Lemma compare_points_refl (l : list N) : Utf8.compare_points l l = Eq.
Proof.
  induction l as [| x l IH]; [reflexivity |]. simpl.
  rewrite N.compare_refl. exact IH.
Qed.

Lemma compare_points_eq (a b : list N) : Utf8.compare_points a b = Eq -> a = b.
Proof.
  revert b. induction a as [| x a IH]; intros [| y b]; simpl; try congruence.
  destruct (x ?= y)%N eqn:Hxy; try discriminate.
  apply N.compare_eq_iff in Hxy as ->. intros H. f_equal. apply IH. exact H.
Qed.

Lemma compare_points_antisym (a b : list N) :
  Utf8.compare_points b a = CompOpp (Utf8.compare_points a b).
Proof.
  revert b. induction a as [| x a IH]; intros [| y b]; simpl; try reflexivity.
  rewrite (N.compare_antisym x y).
  destruct (x ?= y)%N; simpl; auto.
Qed.

Lemma compare_points_lt_trans (a b c : list N) :
  Utf8.compare_points a b = Lt -> Utf8.compare_points b c = Lt ->
  Utf8.compare_points a c = Lt.
Proof.
  revert b c. induction a as [| x a IH]; intros [| y b] [| z c]; simpl; try congruence.
  destruct (x ?= y)%N eqn:Hxy; try discriminate.
  - apply N.compare_eq_iff in Hxy as ->.
    destruct (y ?= z)%N; try discriminate; eauto.
  - destruct (y ?= z)%N eqn:Hyz; try discriminate.
    + apply N.compare_eq_iff in Hyz as <-. rewrite Hxy. reflexivity.
    + intros _ _. rewrite N.compare_lt_iff in *.
      assert (x < z)%N as H by lia.
      apply N.compare_lt_iff in H. rewrite H. reflexivity.
Qed.

Lemma need_cases (b : N) :
  ((b < 128)%N /\ Utf8.need b = 1%nat) \/
  ((128 <= b < 194)%N /\ Utf8.need b = 0%nat) \/
  ((194 <= b < 224)%N /\ Utf8.need b = 2%nat) \/
  ((224 <= b < 240)%N /\ Utf8.need b = 3%nat) \/
  ((240 <= b < 245)%N /\ Utf8.need b = 4%nat) \/
  ((245 <= b)%N /\ Utf8.need b = 0%nat).
Proof.
  unfold Utf8.need.
  destruct (N.ltb_spec b 128); [left; split; [lia | reflexivity] |].
  destruct (N.ltb_spec b 194); [right; left; split; [lia | reflexivity] |].
  destruct (N.ltb_spec b 224); [right; right; left; split; [lia | reflexivity] |].
  destruct (N.ltb_spec b 240); [right; right; right; left; split; [lia | reflexivity] |].
  destruct (N.ltb_spec b 245); [right; right; right; right; left; split; [lia | reflexivity] |].
  right; right; right; right; right; split; [lia | reflexivity].
Qed.

Lemma is_continuation_spec (b : N) :
  Utf8.is_continuation b = true <-> (128 <= b < 192)%N.
Proof.
  unfold Utf8.is_continuation. rewrite andb_true_iff, N.leb_le, N.ltb_lt. tauto.
Qed.

Lemma continues_spec (lead b : N) :
  Utf8.continues [lead] b = true <->
  (128 <= b < 192)%N /\
  (lead = 224 -> 160 <= b)%N /\ (lead = 237 -> b < 160)%N /\
  (lead = 240 -> 144 <= b)%N /\ (lead = 244 -> b < 144)%N.
Proof.
  unfold Utf8.continues. rewrite andb_true_iff, is_continuation_spec.
  destruct (N.eqb_spec lead 224) as [-> |]; [rewrite N.leb_le; intuition lia |].
  destruct (N.eqb_spec lead 237) as [-> |]; [rewrite N.ltb_lt; intuition lia |].
  destruct (N.eqb_spec lead 240) as [-> |]; [rewrite N.leb_le; intuition lia |].
  destruct (N.eqb_spec lead 244) as [-> |]; [rewrite N.ltb_lt; intuition lia |].
  intuition lia.
Qed.

Ltac cases_N :=
  repeat match goal with
  | |- context [(?a <? ?b)%N] => destruct (N.ltb_spec a b)
  | |- context [(?a <=? ?b)%N] => destruct (N.leb_spec a b)
  | |- context [(?a =? ?b)%N] => destruct (N.eqb_spec a b)
  end.

Ltac arith := try lia; (zify; Z.to_euclidean_division_equations; lia).

Lemma encode_one (b : N) : (b < 128)%N -> Utf8.encode_point b = [b].
Proof.
  intros Hb. unfold Utf8.encode_point, Utf8.is_escape.
  cases_N; simpl; try lia. all: reflexivity.
Qed.

Lemma encode_two (lead b : N) :
  (194 <= lead < 224)%N -> (128 <= b < 192)%N ->
  Utf8.encode_point ((lead - 192) * 64 + (b - 128)) = [lead; b].
Proof.
  intros Hl Hb. unfold Utf8.encode_point, Utf8.is_escape.
  cases_N; simpl; try lia.
  all: f_equal; [arith | f_equal; arith].
Qed.

Lemma encode_three (lead b c : N) :
  (224 <= lead < 240)%N -> (128 <= b < 192)%N -> (128 <= c < 192)%N ->
  (lead = 224 -> 160 <= b)%N -> (lead = 237 -> b < 160)%N ->
  Utf8.encode_point ((lead - 224) * 4096 + (b - 128) * 64 + (c - 128)) = [lead; b; c].
Proof.
  intros Hl Hb Hc H1 H2. unfold Utf8.encode_point, Utf8.is_escape.
  cases_N; simpl; try lia.
  all: f_equal; [arith | f_equal; [arith | f_equal; arith]].
Qed.

Lemma encode_four (lead b c d : N) :
  (240 <= lead < 245)%N -> (128 <= b < 192)%N -> (128 <= c < 192)%N ->
  (128 <= d < 192)%N -> (lead = 240 -> 144 <= b)%N ->
  Utf8.encode_point
    ((lead - 240) * 262144 + (b - 128) * 4096 + (c - 128) * 64 + (d - 128))
    = [lead; b; c; d].
Proof.
  intros Hl Hb Hc Hd H1. unfold Utf8.encode_point, Utf8.is_escape.
  cases_N; simpl; try lia.
  all: f_equal; [arith | f_equal; [arith | f_equal; [arith | f_equal; arith]]].
Qed.

Lemma encode_escape (b : N) :
  (128 <= b < 256)%N -> Utf8.encode_point (Utf8.escape b) = [b].
Proof.
  intros Hb. unfold Utf8.encode_point, Utf8.is_escape, Utf8.escape.
  cases_N; simpl; try lia. all: f_equal; lia.
Qed.

(** A byte that ends a character: the code point has the bytes of the
    sequence as its encoding. *)
Lemma step_complete (pending : list N) (b : N) :
  partial pending -> Utf8.step pending b = Some [] ->
  Utf8.encode_point (Utf8.scalar (pending ++ [b])) = (pending ++ [b])%list.
Proof.
  intros Hp Hs.
  destruct pending as [| lead [| b1 [| b2 [| b3 rest]]]]; simpl in Hp; [| | | | tauto].
  - unfold Utf8.step in Hs.
    destruct (need_cases b) as [[Hb Hn] | [[Hb Hn] | [[Hb Hn] | [[Hb Hn] | [[Hb Hn] | [Hb Hn]]]]]];
      rewrite Hn in Hs; try discriminate.
    apply encode_one. exact Hb.
  - unfold Utf8.step in Hs.
    destruct (Utf8.continues [lead] b) eqn:Hc; [| discriminate].
    apply continues_spec in Hc.
    destruct (need_cases lead) as [[Hb Hn] | [[Hb Hn] | [[Hb Hn] | [[Hb Hn] | [[Hb Hn] | [Hb Hn]]]]]];
      rewrite Hn in Hs, Hp; simpl in Hs; try discriminate; try lia.
    apply encode_two; lia.
  - destruct Hp as [Hp Hc1]. apply continues_spec in Hc1. unfold Utf8.step in Hs.
    destruct (Utf8.continues [lead; b1] b) eqn:Hc; [| discriminate].
    unfold Utf8.continues in Hc. rewrite andb_true_r in Hc.
    apply is_continuation_spec in Hc.
    destruct (need_cases lead) as [[Hb Hn] | [[Hb Hn] | [[Hb Hn] | [[Hb Hn] | [[Hb Hn] | [Hb Hn]]]]]];
      rewrite Hn in Hs, Hp; simpl in Hs; try discriminate; try lia.
    apply encode_three; lia.
  - destruct Hp as (Hp & Hc1 & Hc2). apply continues_spec in Hc1.
    apply is_continuation_spec in Hc2. unfold Utf8.step in Hs.
    destruct (Utf8.continues [lead; b1; b2] b) eqn:Hc; [| discriminate].
    unfold Utf8.continues in Hc. rewrite andb_true_r in Hc.
    apply is_continuation_spec in Hc.
    destruct (need_cases lead) as [[Hb Hn] | [[Hb Hn] | [[Hb Hn] | [[Hb Hn] | [[Hb Hn] | [Hb Hn]]]]]];
      rewrite Hn in Hp; try discriminate; try lia.
    apply encode_four; lia.
Qed.

(** A byte that goes on with a character. *)
Lemma step_more (pending : list N) (b x : N) (rest : list N) :
  partial pending -> Utf8.step pending b = Some (x :: rest) ->
  x :: rest = (pending ++ [b])%list /\ partial (x :: rest).
Proof.
  intros Hp Hs.
  destruct pending as [| lead [| b1 [| b2 [| b3 more]]]]; simpl in Hp; [| | | | tauto].
  - unfold Utf8.step in Hs.
    destruct (need_cases b) as [[Hb Hn] | [[Hb Hn] | [[Hb Hn] | [[Hb Hn] | [[Hb Hn] | [Hb Hn]]]]]];
      rewrite Hn in Hs; try discriminate; injection Hs as <- <-;
      (split; [reflexivity | simpl; lia]).
  - unfold Utf8.step in Hs.
    destruct (Utf8.continues [lead] b) eqn:Hc; [| discriminate].
    destruct (need_cases lead) as [[Hb Hn] | [[Hb Hn] | [[Hb Hn] | [[Hb Hn] | [[Hb Hn] | [Hb Hn]]]]]];
      rewrite Hn in Hs, Hp; simpl in Hs; try discriminate; try lia;
      injection Hs as <- <-; (split; [reflexivity |]); simpl; rewrite Hn; (split; [lia | exact Hc]).
  - destruct Hp as [Hp Hc1]. unfold Utf8.step in Hs.
    destruct (Utf8.continues [lead; b1] b) eqn:Hc; [| discriminate].
    unfold Utf8.continues in Hc. rewrite andb_true_r in Hc.
    destruct (need_cases lead) as [[Hb Hn] | [[Hb Hn] | [[Hb Hn] | [[Hb Hn] | [[Hb Hn] | [Hb Hn]]]]]];
      rewrite Hn in Hs, Hp; simpl in Hs; try discriminate; try lia.
    injection Hs as <- <-. split; [reflexivity |]. simpl. rewrite Hn. auto.
  - destruct Hp as (Hp & Hc1 & Hc2). unfold Utf8.step in Hs.
    destruct (Utf8.continues [lead; b1; b2] b) eqn:Hc; [| discriminate].
    rewrite Hp in Hs. simpl in Hs. discriminate.
Qed.

Lemma escape_pending (pending : list N) :
  partial pending ->
  flat_map Utf8.encode_point (Utf8.escape <$> pending) = pending.
Proof.
  intros Hp.
  assert (Hlead : forall lead, (2 <= Utf8.need lead)%nat -> (128 <= lead < 256)%N).
  { intros lead H.
    destruct (need_cases lead) as [[Hb Hn] | [[Hb Hn] | [[Hb Hn] | [[Hb Hn] | [[Hb Hn] | [Hb Hn]]]]]];
      rewrite Hn in H; lia. }
  destruct pending as [| lead [| b1 [| b2 [| b3 more]]]]; simpl in Hp; [| | | | tauto].
  - reflexivity.
  - simpl. rewrite encode_escape; [reflexivity | auto].
  - destruct Hp as [Hp Hc1]. apply continues_spec in Hc1. simpl.
    rewrite !encode_escape; [reflexivity | lia | apply Hlead; lia].
  - destruct Hp as (Hp & Hc1 & Hc2). apply continues_spec in Hc1.
    apply is_continuation_spec in Hc2. simpl.
    rewrite !encode_escape; [reflexivity | lia | lia | apply Hlead; lia].
Qed.

Lemma byte_bounded (c : ascii) : (N_of_ascii c < 256)%N.
Proof. apply N_ascii_bounded. Qed.

(** The bytes come back from the code points. *)
Lemma encode_code_points (s : string) (pending : list N) :
  partial pending ->
  flat_map Utf8.encode_point (Utf8.code_points pending s) = (pending ++ bytes s)%list.
Proof.
  revert pending. induction s as [| c s IH]; intros pending Hp.
  - simpl. rewrite escape_pending by exact Hp. unfold bytes. simpl.
    rewrite app_nil_r. reflexivity.
  - change (bytes (String c s)) with (N_of_ascii c :: bytes s).
    cbn [Utf8.code_points].
    destruct (Utf8.step pending (N_of_ascii c)) as [[| x l] |] eqn:Hs.
    + simpl. rewrite (IH [] I), (step_complete _ _ Hp Hs), <- app_assoc. reflexivity.
    + destruct (step_more _ _ _ _ Hp Hs) as [Heq Hp'].
      rewrite (IH _ Hp'), Heq, <- app_assoc. reflexivity.
    + rewrite flat_map_app, (escape_pending _ Hp). f_equal.
      destruct (Utf8.step [] (N_of_ascii c)) as [[| x l] |] eqn:Hs0.
      * simpl. rewrite (IH [] I).
        pose proof (step_complete [] _ I Hs0) as He. simpl in He. rewrite He. reflexivity.
      * destruct (step_more [] _ _ _ I Hs0) as [Heq Hp']. rewrite (IH _ Hp'), Heq.
        reflexivity.
      * simpl. rewrite (IH [] I). rewrite encode_escape; [reflexivity |].
        split; [| apply byte_bounded].
        unfold Utf8.step in Hs0.
        destruct (need_cases (N_of_ascii c))
          as [[Hb Hn] | [[Hb Hn] | [[Hb Hn] | [[Hb Hn] | [[Hb Hn] | [Hb Hn]]]]]];
          rewrite Hn in Hs0; try discriminate; lia.
Qed.

Lemma bytes_inj (a b : string) : bytes a = bytes b -> a = b.
Proof.
  unfold bytes. intros H.
  rewrite <- (string_of_list_ascii_of_string a), <- (string_of_list_ascii_of_string b).
  f_equal. revert H. generalize (list_ascii_of_string a) (list_ascii_of_string b).
  intros l. induction l as [| x l IH]; intros [| y l']; simpl; try discriminate; auto.
  intros [= Hxy Hl]. f_equal; [| apply IH; exact Hl].
  rewrite <- (ascii_N_embedding x), <- (ascii_N_embedding y), Hxy. reflexivity.
Qed.

(** Two strings with the same code points are the same string. *)
Lemma code_points_inj (a b : string) :
  Utf8.code_points [] a = Utf8.code_points [] b -> a = b.
Proof.
  intros H. apply bytes_inj.
  pose proof (encode_code_points a [] I) as Ha.
  pose proof (encode_code_points b [] I) as Hb.
  simpl in Ha, Hb. rewrite <- Ha, <- Hb, H. reflexivity.
Qed.

Lemma str_compare_refl (s : string) : str_compare s s = Eq.
Proof. apply compare_points_refl. Qed.

Lemma str_compare_eq (a b : string) : str_compare a b = Eq -> a = b.
Proof. intros H. apply code_points_inj, compare_points_eq, H. Qed.

Lemma str_compare_antisym (a b : string) :
  str_compare b a = CompOpp (str_compare a b).
Proof. apply compare_points_antisym. Qed.

Lemma str_compare_lt_trans (a b c : string) :
  str_compare a b = Lt -> str_compare b c = Lt -> str_compare a c = Lt.
Proof. apply compare_points_lt_trans. Qed.

#[global] Instance str_le_total : Total str_le.
Proof.
  intros a b. unfold str_le, str_leb. rewrite (str_compare_antisym a b).
  destruct (str_compare a b); simpl; auto.
Qed.

#[global] Instance str_le_trans : Transitive str_le.
Proof.
  intros a b c. unfold str_le, str_leb.
  destruct (str_compare a b) eqn:Hab; try discriminate.
  - apply str_compare_eq in Hab as ->. auto.
  - destruct (str_compare b c) eqn:Hbc; try discriminate.
    + apply str_compare_eq in Hbc as <-. rewrite Hab. auto.
    + rewrite (str_compare_lt_trans a b c Hab Hbc). auto.
Qed.

#[global] Instance str_le_antisym : AntiSymm (=) str_le.
Proof.
  intros a b. unfold str_le, str_leb. rewrite (str_compare_antisym a b).
  destruct (str_compare a b) eqn:Hab; simpl; try discriminate.
  intros _ _. apply str_compare_eq. exact Hab.
Qed.

(** ** Text that UTF-8 encodes *)

Lemma scan_shift (s : string) (p : list N) (pos pos' : N) (q : list N) :
  Utf8.scan p pos s = inr q -> Utf8.scan p pos' s = inr q.
Proof.
  revert p pos pos'. induction s as [| c s IH]; intros p pos pos'; simpl; [auto |].
  destruct (Utf8.step p (N_of_ascii c)); [apply IH | discriminate].
Qed.

Lemma scan_app (a b : string) (p : list N) (pos : N) (q : list N) :
  Utf8.scan p pos a = inr q ->
  Utf8.scan p pos (a +:+ b) = Utf8.scan q (pos + N.of_nat (String.length a)) b.
Proof.
  revert p pos. induction a as [| c a IH]; intros p pos; simpl.
  - intros [= ->]. rewrite N.add_0_r. reflexivity.
  - destruct (Utf8.step p (N_of_ascii c)); [| discriminate].
    intros H. rewrite (IH _ _ H). f_equal. lia.
Qed.

Lemma valid_scan (s : string) :
  Utf8.valid s = true <-> Utf8.scan [] 0 s = inr [].
Proof.
  unfold Utf8.valid. destruct (Utf8.scan [] 0 s) as [ft | [| x l]]; split; congruence.
Qed.

Lemma valid_app (a b : string) :
  Utf8.valid a = true -> Utf8.valid b = true -> Utf8.valid (a +:+ b) = true.
Proof.
  rewrite !valid_scan. intros Ha Hb.
  rewrite (scan_app _ _ _ _ _ Ha). apply (scan_shift _ _ 0%N). exact Hb.
Qed.

Lemma step_ascii (c : ascii) (p : list N) :
  (N_of_ascii c < 128)%N ->
  Utf8.step p (N_of_ascii c) = match p with [] => Some [] | _ => None end.
Proof.
  intros Hc. destruct p as [| lead rest]; simpl.
  - destruct (need_cases (N_of_ascii c))
      as [[Hb Hn] | [[Hb Hn] | [[Hb Hn] | [[Hb Hn] | [[Hb Hn] | [Hb Hn]]]]]];
      rewrite Hn; try reflexivity; lia.
  - unfold Utf8.continues, Utf8.is_continuation.
    destruct (N.leb_spec 128 (N_of_ascii c)); [lia | reflexivity].
Qed.

Lemma scan_ascii (c : ascii) (s : string) (pos : N) (q : list N) :
  (N_of_ascii c < 128)%N -> Utf8.scan [] pos s = inr q ->
  Utf8.scan [] pos (String c s) = inr q.
Proof.
  intros Hc Hs. cbn [Utf8.scan]. rewrite (step_ascii c [] Hc).
  apply (scan_shift _ _ pos). exact Hs.
Qed.

Lemma is_ascii_valid (s : string) : is_ascii s = true -> Utf8.valid s = true.
Proof.
  rewrite valid_scan. induction s as [| c s IH]; [reflexivity |].
  cbn [is_ascii Utf8.scan].
  intros H. apply andb_prop in H as [Hc Hs]. apply N.ltb_lt in Hc.
  rewrite (step_ascii c [] Hc). apply (scan_shift _ _ 0%N). apply IH. exact Hs.
Qed.

Lemma is_ascii_app (a b : string) :
  is_ascii (a +:+ b) = is_ascii a && is_ascii b.
Proof.
  induction a as [| c a IH]; simpl; [reflexivity |].
  rewrite IH, andb_assoc. reflexivity.
Qed.

Lemma pretty_N_go_ascii (x : N) (s : string) :
  is_ascii (pretty_N_go x s) = is_ascii s.
Proof.
  revert s. induction (N.lt_wf_0 x) as [x _ IH]; intros s.
  destruct (decide (x = 0)%N) as [-> | Hx]; [reflexivity |].
  rewrite pretty_N_go_step by lia.
  rewrite IH by (apply N.div_lt; lia).
  simpl. replace (N_of_ascii (pretty_N_char (x `mod` 10)) <? 128)%N with true;
    [reflexivity |].
  unfold pretty_N_char. repeat case_match; reflexivity.
Qed.

Lemma str_ascii (k : Z) : is_ascii (Py.str k) = true.
Proof.
  assert (Hp : forall p : positive, is_ascii (pretty p) = true).
  { intros p. unfold pretty, pretty_positive, pretty, pretty_N.
    case_decide; [reflexivity |]. apply pretty_N_go_ascii. }
  unfold Py.str, pretty, pretty_Z. destruct k as [| p | p].
  - reflexivity.
  - apply Hp.
  - rewrite is_ascii_app. simpl. apply Hp.
Qed.

(** Doubling the quotes of a cell leaves the decoder where it was. *)
Lemma scan_escape (f : string) (p : list N) (pos pos' : N) (q : list N) :
  Utf8.scan p pos f = inr q -> Utf8.scan p pos' (Csv.escape f) = inr q.
Proof.
  revert p pos pos'. induction f as [| c f IH]; intros p pos pos'; [simpl; auto |].
  cbn [Utf8.scan Csv.escape].
  destruct (Utf8.step p (N_of_ascii c)) as [p1 |] eqn:Hs; [| discriminate].
  intros H. destruct (Ascii.eqb_spec c Py.QUOTE) as [-> | Hc].
  - assert (Hq : (N_of_ascii Py.QUOTE < 128)%N) by (vm_compute; reflexivity).
    rewrite (step_ascii _ p Hq) in Hs. destruct p; [| discriminate].
    injection Hs as <-. cbn [Utf8.scan]. rewrite !(step_ascii _ [] Hq).
    apply (IH _ (pos + 1)%N). exact H.
  - cbn [Utf8.scan]. rewrite Hs. apply (IH _ (pos + 1)%N). exact H.
Qed.

Lemma field_text_valid (f : string) :
  Utf8.valid f = true -> Utf8.valid (Csv.field_text f) = true.
Proof.
  intros Hf. unfold Csv.field_text. destruct (Csv.has_special f); [| exact Hf].
  apply valid_scan. apply scan_ascii; [vm_compute; reflexivity |].
  apply valid_scan in Hf.
  rewrite (scan_app _ _ _ _ _ (scan_escape f _ _ 0%N _ Hf)).
  reflexivity.
Qed.

Lemma join_valid (fields : list string) :
  Forall (fun f => Utf8.valid f = true) fields ->
  Utf8.valid (Csv.join fields) = true.
Proof.
  induction 1 as [| f fs Hf _ IH]; [reflexivity |].
  destruct fs as [| g fs]; [apply field_text_valid; exact Hf |].
  change (Csv.join (f :: g :: fs))
    with (Csv.field_text f +:+ String Py.COMMA (Csv.join (g :: fs))).
  apply valid_app; [apply field_text_valid; exact Hf |].
  apply valid_scan. apply scan_ascii; [vm_compute; reflexivity |].
  apply valid_scan. exact IH.
Qed.

(** A row of cells that UTF-8 encodes is a line that UTF-8 encodes. *)
Lemma writerow_valid (fields : list string) :
  Forall (fun f => Utf8.valid f = true) fields ->
  Utf8.valid (Csv.writerow fields) = true.
Proof.
  intros H. unfold Csv.writerow.
  pose proof (join_valid fields H) as Hj.
  destruct fields as [| f fs]; [reflexivity |].
  destruct (Csv.join (f :: fs)) eqn:Heq; [reflexivity |].
  apply valid_app; [exact Hj | reflexivity].
Qed.

Lemma read_fault_valid (content : string) :
  Utf8.valid content = true -> TextIO.read_fault content = None.
Proof.
  rewrite valid_scan. unfold TextIO.read_fault. intros ->. reflexivity.
Qed.

Lemma write_valid (f text : string) :
  Utf8.valid text = true -> TextIO.write f text = Py.Ok (f +:+ text).
Proof. unfold TextIO.write. intros ->. reflexivity. Qed.

Lemma scan_prefix (a b : string) (p : list N) (pos : N) (q : list N) :
  Utf8.scan p pos (a +:+ b) = inr q -> exists q', Utf8.scan p pos a = inr q'.
Proof.
  revert p pos. induction a as [| c a IH]; intros p pos; [simpl; eauto |].
  change (String c a +:+ b) with (String c (a +:+ b)). cbn [Utf8.scan].
  destruct (Utf8.step p (N_of_ascii c)); [apply IH | discriminate].
Qed.

(** What comes before an ASCII character of a text that UTF-8 encodes is
    such a text too. *)
Lemma valid_before_ascii (a b : string) (c : ascii) :
  (N_of_ascii c < 128)%N ->
  Utf8.valid (a +:+ String c b) = true -> Utf8.valid a = true.
Proof.
  intros Hc. rewrite !valid_scan. intros H.
  destruct (scan_prefix _ _ _ _ _ H) as [q Hq].
  rewrite (scan_app _ _ _ _ _ Hq) in H. cbn [Utf8.scan] in H.
  rewrite (step_ascii c q Hc) in H. destruct q; [exact Hq | discriminate].
Qed.

Lemma scan_unescape (f : string) (p : list N) (pos pos' : N) (q : list N) :
  Utf8.scan p pos (Csv.escape f) = inr q -> Utf8.scan p pos' f = inr q.
Proof.
  revert p pos pos'. induction f as [| c f IH]; intros p pos pos'; [simpl; auto |].
  cbn [Utf8.scan Csv.escape].
  destruct (Ascii.eqb_spec c Py.QUOTE) as [-> | Hc].
  - assert (Hq : (N_of_ascii Py.QUOTE < 128)%N) by (vm_compute; reflexivity).
    cbn [Utf8.scan]. rewrite (step_ascii _ p Hq).
    destruct p; [| discriminate]. rewrite (step_ascii _ [] Hq).
    apply IH.
  - cbn [Utf8.scan].
    destruct (Utf8.step p (N_of_ascii c)); [apply IH | discriminate].
Qed.

Lemma field_text_valid_inv (f : string) :
  Utf8.valid (Csv.field_text f) = true -> Utf8.valid f = true.
Proof.
  unfold Csv.field_text. destruct (Csv.has_special f); [| auto].
  intros H.
  assert (Hq : (N_of_ascii Py.QUOTE < 128)%N) by (vm_compute; reflexivity).
  apply valid_scan in H. cbn [Utf8.scan] in H. rewrite (step_ascii _ [] Hq) in H.
  destruct (scan_prefix _ _ _ _ _ H) as [q' Hq'].
  rewrite (scan_app _ _ _ _ _ Hq') in H. cbn [Utf8.scan] in H.
  rewrite (step_ascii _ q' Hq) in H. destruct q'; [| discriminate].
  apply valid_scan. apply (scan_unescape f _ _ 0%N _ Hq').
Qed.

(** * Properties *)

(** ** Configuration *)

Lemma require_spec (config : gmap string json) (key : string) :
  match require config key with
  | Py.Ok v => config !! key = Some v
  | Py.Raise e => config !! key = None /\ e = Py.KeyError (required_msg key)
  end.
Proof.
  unfold require. destruct (config !! key); auto.
Qed.

Lemma required_msg_names (key : string) :
  key ∈ required_keys ->
  names_field key (Py.KeyError (required_msg key)) = true.
Proof.
  unfold required_keys. rewrite !elem_of_cons, elem_of_nil.
  intros [-> | [-> | [-> | [-> | []]]]]; vm_compute; reflexivity.
Qed.

(** C5, against the claim: sizes that are not positive integers are
    accepted, and stored as they are. *)
Lemma load_config_accepts_bad_sizes :
  is_positive_int (JInt (-5)) = false /\
  is_positive_int (JStr "large") = false /\
  load_config (Parsed payload_bad_sizes) =
    Py.Ok {| Cfg.classes := [JStr "ice"];
             Cfg.annotations_file := JStr "annotations.csv";
             Cfg.resized_image_size := JInt (-5);
             Cfg.max_display_size := JStr "large" |}.
Proof.
  repeat split; vm_compute; reflexivity.
Qed.

(** C5, as amended.  [load_config] fails exactly in these cases, looked
    for in this order: [classes] is absent (a [KeyError] naming classes);
    [classes] is not a list (a [TypeError] naming classes); the list has no
    entry or more than nine (a [ValueError]); one of annotations_file,
    resized_image_size, max_original_display_size is absent (a [KeyError]
    naming the first of them that is).  So a [KeyError] names the first
    absent key in the order classes, annotations_file, resized_image_size,
    max_original_display_size: every key before it is present.  Otherwise
    [load_config] succeeds and stores the four values unchanged, whatever
    the types of the last three. *)
Theorem load_config_checks (payload : gmap string json) :
  match load_config (Parsed payload) with
  | Py.Ok c =>
      payload !! "classes" = Some (JList (Cfg.classes c)) /\
      1 <= Py.len (Cfg.classes c) <= 9 /\
      payload !! "annotations_file" = Some (Cfg.annotations_file c) /\
      payload !! "resized_image_size" = Some (Cfg.resized_image_size c) /\
      payload !! "max_original_display_size" = Some (Cfg.max_display_size c)
  | Py.Raise e =>
      (exists before key after,
         required_keys = (before ++ key :: after)%list /\
         Forall (fun k => payload !! k <> None) before /\
         payload !! key = None /\
         e = Py.KeyError (required_msg key) /\
         names_field key e = true /\
         (key <> "classes" ->
          exists l, payload !! "classes" = Some (JList l) /\ 1 <= Py.len l <= 9)) \/
      (exists v, payload !! "classes" = Some v /\ is_list v = false /\
                 e = Py.TypeError classes_type_msg /\
                 names_field "classes" e = true) \/
      (exists l, payload !! "classes" = Some (JList l) /\
                 (Py.len l = 0 \/ 9 < Py.len l) /\
                 e = Py.ValueError (if Py.len l =? 0 then classes_empty_msg
                                    else classes_many_msg (Py.len l)))
  end.
Proof.
  unfold load_config.
  pose proof (require_spec payload "classes") as Hc.
  destruct (require payload "classes") as [cls | e]; simpl.
  2:{ destruct Hc as [Hn ->]. left.
      exists [], "classes", ["annotations_file"; "resized_image_size";
                             "max_original_display_size"].
      split; [reflexivity |]. split; [constructor |].
      split; [exact Hn |]. split; [reflexivity |].
      split; [vm_compute; reflexivity | congruence]. }
  destruct cls as [ | b | n | x | str | l | fs];
    try (right; left; eexists; split; [exact Hc |];
         split; [reflexivity |]; split; [reflexivity | vm_compute; reflexivity]).
  destruct (Py.len l =? 0) eqn:H0.
  { right; right. exists l. split; [exact Hc |]. split; [lia |].
    rewrite H0. reflexivity. }
  destruct (Py.len l >? 9) eqn:H9.
  { right; right. exists l. split; [exact Hc |]. split; [lia |].
    rewrite H0. reflexivity. }
  assert (Hl : exists l', payload !! "classes" = Some (JList l') /\ 1 <= Py.len l' <= 9).
  { exists l. split; [exact Hc |]. unfold Py.len in *. lia. }
  assert (Hc' : payload !! "classes" <> None) by congruence.
  pose proof (require_spec payload "annotations_file") as Ha.
  destruct (require payload "annotations_file") as [af | e]; simpl.
  2:{ destruct Ha as [Hn ->]. left.
      exists ["classes"], "annotations_file",
             ["resized_image_size"; "max_original_display_size"].
      split; [reflexivity |]. split; [repeat constructor; exact Hc' |].
      split; [exact Hn |]. split; [reflexivity |].
      split; [vm_compute; reflexivity | intros _; exact Hl]. }
  assert (Ha' : payload !! "annotations_file" <> None) by congruence.
  pose proof (require_spec payload "resized_image_size") as Hr.
  destruct (require payload "resized_image_size") as [rs | e]; simpl.
  2:{ destruct Hr as [Hn ->]. left.
      exists ["classes"; "annotations_file"], "resized_image_size",
             ["max_original_display_size"].
      split; [reflexivity |]. split; [repeat constructor; assumption |].
      split; [exact Hn |]. split; [reflexivity |].
      split; [vm_compute; reflexivity | intros _; exact Hl]. }
  assert (Hr' : payload !! "resized_image_size" <> None) by congruence.
  pose proof (require_spec payload "max_original_display_size") as Hm.
  destruct (require payload "max_original_display_size") as [ms | e]; simpl.
  2:{ destruct Hm as [Hn ->]. left.
      exists ["classes"; "annotations_file"; "resized_image_size"],
             "max_original_display_size", [].
      split; [reflexivity |]. split; [repeat constructor; assumption |].
      split; [exact Hn |]. split; [reflexivity |].
      split; [vm_compute; reflexivity | intros _; exact Hl]. }
  unfold Py.len in *. repeat split; auto; lia.
Qed.

(** ** Display policy *)

Lemma original_display_spec (self : Settings) (w h : Z) :
  (Z.max w h <= resized_image_size self ->
   decide_original_display self w h = ShowImage w h) /\
  (resized_image_size self < Z.max w h ->
   decide_original_display self w h = ShowMessage (too_large_message w h)).
Proof.
  unfold decide_original_display. split; intros H.
  - destruct (Z.leb_spec (Z.max w h) (resized_image_size self)); [reflexivity | lia].
  - destruct (Z.leb_spec (Z.max w h) (resized_image_size self)); [lia | reflexivity].
Qed.

(** C1, at the failing input: with a preview bound of 100 and a maximal
    original display size of 500, an image of 300 x 200 fits the maximal
    original display size, yet the left pane gets the text and no bitmap.
    The decision reads [resized_image_size]; [max_display_size] is never
    read. *)
Theorem original_display_ignores_max_display_size :
  Z.max 300 200 <= max_display_size settings_100_500 /\
  decide_original_display settings_100_500 300 200
    = ShowMessage (too_large_message 300 200) /\
  decide_original_display_by_max settings_100_500 300 200 = ShowImage 300 200 /\
  (forall self w h m,
     decide_original_display self w h =
     decide_original_display
       {| classes := classes self;
          resized_image_size := resized_image_size self;
          max_display_size := m |} w h).
Proof.
  split; [vm_compute; discriminate |].
  split; [reflexivity |].
  split; [reflexivity |].
  intros self w h m. reflexivity.
Qed.

(** C2, against the claim: an image of 50 x 100 under a bound of 100 has its
    longer side equal to the bound, so it is kept as it is; it is not
    enlarged to 100 x 200. *)
Lemma preview_50_100_unchanged :
  decide_preview settings_100_500 50 100 = Py.Ok (50, 100) /\
  decide_preview settings_100_500 50 100 <> Py.Ok (100, 200).
Proof.
  split; [reflexivity | discriminate].
Qed.

(** C2, as amended.  For an image of positive dimensions [(w, h)] with
    [m = max(w, h)] and preview bound [b]: when [m = b] the preview keeps
    [(w, h)]; when [m < b] both axes are multiplied by the one binary64
    factor [b / m], each product is truncated, and the image is resized to
    that: no side shrinks, no side exceeds [b], and the longer side ends at
    [b] or at [b - 1]; when [m > b] the size is the one Pillow's
    [thumbnail((b, b))] gives: the longer side becomes [b] and the other
    one stays at least 1.  The two resizing cases are shown to return for
    sides and bounds below 2^26.  So (50, 100) under 100 stays
    (50, 100), (20, 10) becomes (100, 50) and (4000, 2000) becomes
    (100, 50); the downscaled side is the nearer of floor and ceiling in
    aspect ratio, not always the floor: (4000, 2999) becomes (100, 75); and
    the enlarged longer side can miss the bound: (97, 97) becomes
    (99, 99). *)
Theorem preview_policy (self : Settings) (w h : Z) :
  0 < w -> 0 < h ->
  (Z.max w h = resized_image_size self ->
   decide_preview self w h = Py.Ok (w, h)) /\
  (Z.max w h < resized_image_size self ->
   decide_preview self w h = upscale (resized_image_size self) (Z.max w h) w h /\
   (resized_image_size self < 2 ^ 26 ->
    exists new_width new_height,
      decide_preview self w h = Py.Ok (new_width, new_height) /\
      w <= new_width <= resized_image_size self /\
      h <= new_height <= resized_image_size self /\
      resized_image_size self - 1 <= Z.max new_width new_height)) /\
  (resized_image_size self < Z.max w h ->
   decide_preview self w h =
     Pillow.thumbnail w h (resized_image_size self) (resized_image_size self) /\
   (0 < resized_image_size self -> w < 2 ^ 26 -> h < 2 ^ 26 ->
    exists x y,
      decide_preview self w h = Py.Ok (x, y) /\
      Z.max x y = resized_image_size self /\ 1 <= Z.min x y)) /\
  decide_preview settings_100_500 50 100 = Py.Ok (50, 100) /\
  decide_preview settings_100_500 20 10 = Py.Ok (100, 50) /\
  decide_preview settings_100_500 4000 2000 = Py.Ok (100, 50) /\
  decide_preview settings_100_500 4000 2999 = Py.Ok (100, 75) /\
  decide_preview settings_100_500 97 97 = Py.Ok (99, 99).
Proof.
  intros Hw Hh. unfold decide_preview.
  split; [| split; [| split]].
  - intros ->. rewrite Z.ltb_irrefl.
    destruct (Z.gtb_spec (resized_image_size self) (resized_image_size self));
      [lia | reflexivity].
  - intros Hlt.
    destruct (Z.ltb_spec (Z.max w h) (resized_image_size self)); [| lia].
    split; [reflexivity |].
    intros Hb.
    destruct (scale_factor (Z.max w h) (resized_image_size self))
      as (ms & es & -> & Hms & Hes & Hone & Herr_up & Herr_lo); [lia | lia |].
    cbn [Py.bind].
    destruct (scaled_side_bounds w (Z.max w h) (resized_image_size self) ms es)
      as (nw & -> & Hnw & Hnw'); try assumption; [lia | lia |].
    destruct (scaled_side_bounds h (Z.max w h) (resized_image_size self) ms es)
      as (nh & -> & Hnh & Hnh'); try assumption; [lia | lia |].
    cbn [Py.bind]. unfold Pillow.resize. cbn [fst snd].
    exists nw, nh. split; [| lia].
    destruct (decide ((nw, nh) = (w, h))) as [[= -> ->] | _]; [reflexivity |].
    destruct (Z.ltb_spec nw 1); [lia |]. destruct (Z.ltb_spec nh 1); [lia |].
    reflexivity.
  - intros Hgt.
    destruct (Z.ltb_spec (Z.max w h) (resized_image_size self)); [lia |].
    destruct (Z.gtb_spec (Z.max w h) (resized_image_size self)); [| lia].
    split; [reflexivity |].
    intros Hb Hw26 Hh26. apply thumbnail_total; lia.
  - repeat split; vm_compute; reflexivity.
Qed.

Lemma preview_policy_witness :
  (Z.max 20 10 = resized_image_size settings_100_500 ->
   decide_preview settings_100_500 20 10 = Py.Ok (20, 10)) /\
  (Z.max 20 10 < resized_image_size settings_100_500 ->
   decide_preview settings_100_500 20 10 =
     upscale (resized_image_size settings_100_500) (Z.max 20 10) 20 10 /\
   (resized_image_size settings_100_500 < 2 ^ 26 ->
    exists new_width new_height,
      decide_preview settings_100_500 20 10 = Py.Ok (new_width, new_height) /\
      20 <= new_width <= resized_image_size settings_100_500 /\
      10 <= new_height <= resized_image_size settings_100_500 /\
      resized_image_size settings_100_500 - 1 <= Z.max new_width new_height)) /\
  (resized_image_size settings_100_500 < Z.max 20 10 ->
   decide_preview settings_100_500 20 10 =
     Pillow.thumbnail 20 10 (resized_image_size settings_100_500)
       (resized_image_size settings_100_500) /\
   (0 < resized_image_size settings_100_500 -> 20 < 2 ^ 26 -> 10 < 2 ^ 26 ->
    exists x y,
      decide_preview settings_100_500 20 10 = Py.Ok (x, y) /\
      Z.max x y = resized_image_size settings_100_500 /\ 1 <= Z.min x y)) /\
  decide_preview settings_100_500 50 100 = Py.Ok (50, 100) /\
  decide_preview settings_100_500 20 10 = Py.Ok (100, 50) /\
  decide_preview settings_100_500 4000 2000 = Py.Ok (100, 50) /\
  decide_preview settings_100_500 4000 2999 = Py.Ok (100, 75) /\
  decide_preview settings_100_500 97 97 = Py.Ok (99, 99).
Proof.
  apply (preview_policy settings_100_500 20 10); lia.
Defined.

(** ** Session *)

Lemma index_in_range {A} (l : list A) (i : Z) :
  0 <= i < Py.len l ->
  exists x, Py.index l i = Py.Ok x /\ l !! Z.to_nat i = Some x.
Proof.
  intros Hi. unfold Py.index.
  destruct (Z.ltb_spec i 0); [lia |].
  destruct (Z.leb_spec 0 i); [| lia].
  destruct (Z.ltb_spec i (Py.len l)); [| lia]. simpl.
  destruct (l !! Z.to_nat i) as [x |] eqn:Hx; [eauto |].
  apply lookup_ge_None in Hx. unfold Py.len in *. lia.
Qed.

Section SessionProperties.

Variable self : Settings.
Variable int : string -> option Z.
Variable open_image : string -> string -> Py.result Image.t.

Lemma display_image_frame (s : State) :
  same_session s (state_of (display_image self open_image s)).
Proof.
  unfold display_image, same_session.
  destruct (images s) as [| i0 l] eqn:Hi; [simpl; rewrite Hi; auto |].
  destruct (Py.index (i0 :: l) (current_index s)) as [name |]; [| simpl; auto].
  destruct (open_image (image_folder s) name) as [img |]; [| simpl; auto].
  destruct (left_pane self img) as [pane |]; [| simpl; auto].
  destruct (right_pane self img) as [[rw rh] |]; [| simpl; auto].
  simpl. destruct (annotations s !! Some name); simpl; auto.
Qed.

Lemma display_image_returns (s : State) :
  cursor_ok s ->
  display_image self open_image s = Returned (state_of (display_image self open_image s)).
Proof.
  intros Hc. unfold display_image.
  destruct (images s) as [| i0 l] eqn:Hi; [reflexivity |].
  destruct (index_in_range (i0 :: l) (current_index s)) as (name & -> & _).
  { rewrite <- Hi. apply Hc. rewrite Hi. discriminate. }
  destruct (open_image (image_folder s) name) as [img |]; [| reflexivity].
  destruct (left_pane self img) as [pane |]; [| reflexivity].
  destruct (right_pane self img) as [[rw rh] |]; reflexivity.
Qed.

Lemma display_image_selection (s : State) (name : string) :
  0 <= current_index s < Py.len (images s) ->
  images s !! Z.to_nat (current_index s) = Some name ->
  displayable self open_image (image_folder s) name = true ->
  selected_class (state_of (display_image self open_image s))
    = recorded (annotations s) name.
Proof.
  intros Hc Hn Hd. unfold display_image, displayable, recorded in *.
  destruct (images s) as [| i0 l] eqn:Hi; [simpl in Hc; unfold Py.len in Hc; simpl in Hc; lia |].
  destruct (index_in_range (i0 :: l) (current_index s) Hc) as (name' & -> & Hn').
  assert (name' = name) as -> by congruence.
  destruct (open_image (image_folder s) name) as [img |]; [| discriminate].
  destruct (left_pane self img) as [pane |]; [| discriminate].
  destruct (right_pane self img) as [[rw rh] |]; [| discriminate].
  simpl. destruct (annotations s !! Some name); reflexivity.
Qed.

Lemma save_annotations_frame (s : State) :
  image_folder (state_of (save_annotations self s)) = image_folder s /\
  images (state_of (save_annotations self s)) = images s /\
  current_index (state_of (save_annotations self s)) = current_index s /\
  annotations (state_of (save_annotations self s)) = annotations s /\
  selected_class (state_of (save_annotations self s)) = selected_class s.
Proof.
  unfold save_annotations.
  destruct (sorted_items (annotations s)) as [items |]; [| simpl; auto].
  destruct (write_items self items _) as [[e |] f']; simpl; auto.
Qed.

Lemma on_class_selected_frame (s : State) :
  image_folder (state_of (on_class_selected self s)) = image_folder s /\
  images (state_of (on_class_selected self s)) = images s /\
  current_index (state_of (on_class_selected self s)) = current_index s.
Proof.
  unfold on_class_selected.
  destruct (images s) as [| i0 l] eqn:Hi; [simpl; auto |].
  destruct (selected_class s >=? 0); [| simpl; rewrite Hi; auto].
  destruct (Py.index (i0 :: l) (current_index s)) as [name |]; [| simpl; auto].
  match goal with |- context [save_annotations self ?t] =>
    pose proof (save_annotations_frame t) as (H1 & H2 & H3 & _);
    destruct (save_annotations self t) as [s' | e s'] end;
  simpl in *; rewrite ?H1, ?H2, ?H3; auto.
Qed.

Lemma load_images_spec (listing : list string) (s : State) :
  let s' := state_of (load_images self open_image listing s) in
  images s' = merge_sort str_le (filter (fun f => is_image_name f = true) listing) /\
  annotations s' = annotations s /\ store s' = store s /\
  (images s' <> [] -> current_index s' = 0) /\
  (images s' = [] ->
   load_images self open_image listing s =
     Returned (show (ShowWarning "Warning" "No images found in this folder")
                 (set_images [] s))).
Proof.
  unfold load_images. simpl.
  destruct (merge_sort str_le _) as [| i0 l] eqn:Hs; simpl.
  - repeat split; auto. congruence.
  - match goal with |- context [display_image self open_image ?t] =>
      pose proof (display_image_frame t) as (_ & H2 & H3 & H4 & H5) end.
    simpl in *. rewrite H2, H3, H4, H5. repeat split; auto.
    intros [=].
Qed.

Lemma run_preserves_cursor_ok (a : action) (s : State) :
  cursor_ok s -> cursor_ok (state_of (run self open_image a s)).
Proof.
  intros Hc. destruct a as [folder listing | | | k | |]; simpl.
  - unfold select_folder. destruct folder as [| c folder]; [exact Hc |].
    pose proof (load_images_spec listing (set_image_folder (String c folder) s))
      as (_ & _ & _ & H0 & _). simpl in H0.
    intros Hne. rewrite (H0 Hne).
    destruct (images _); [congruence | unfold Py.len; simpl; lia].
  - unfold previous_image.
    destruct (images s) as [| i0 l] eqn:Hi; [exact Hc |].
    destruct (Z.gtb_spec (current_index s) 0); [| exact Hc].
    match goal with |- context [display_image self open_image ?t] =>
      pose proof (display_image_frame t) as (_ & H2 & H3 & _) end.
    unfold cursor_ok in *. simpl in *. rewrite H2, H3, Hi in *.
    intros _. specialize (Hc ltac:(discriminate)). lia.
  - unfold next_image.
    destruct (images s) as [| i0 l] eqn:Hi; [exact Hc |].
    destruct (Z.ltb_spec (current_index s) (Py.len (i0 :: l) - 1)); [| exact Hc].
    match goal with |- context [display_image self open_image ?t] =>
      pose proof (display_image_frame t) as (_ & H2 & H3 & _) end.
    unfold cursor_ok in *. simpl in *. rewrite H2, H3, Hi in *.
    intros _. specialize (Hc ltac:(discriminate)). lia.
  - unfold select_class_by_key.
    pose proof (on_class_selected_frame (set_selected_class k s)) as (_ & H2 & H3).
    unfold cursor_ok in *. simpl in *. rewrite H2, H3. exact Hc.
  - pose proof (on_class_selected_frame s) as (_ & H2 & H3).
    unfold cursor_ok in *. rewrite H2, H3. exact Hc.
  - pose proof (save_annotations_frame s) as (_ & H2 & H3 & _).
    unfold cursor_ok in *. rewrite H2, H3. exact Hc.
Qed.

Lemma load_rows_images fieldnames rows (s : State) :
  images (state_of (load_rows int fieldnames rows s)) = images s.
Proof.
  revert s. induction rows as [| r rows IH]; intros s; simpl; [reflexivity |].
  destruct (row_entry int fieldnames r) as [[k n] |]; [| reflexivity].
  rewrite IH. reflexivity.
Qed.

Lemma init_images (file : option string) (s : State) :
  init self int file = Returned s -> images s = [].
Proof.
  unfold init, load_previous_annotations. simpl.
  destruct file as [content |]; simpl.
  - destruct (TextIO.read_fault content) as [[text e] |].
    { destruct (Csv.yielded _ _) as [recs |]; simpl; [| discriminate].
      destruct (Csv.dict_rows recs) as [fieldnames rows].
      destruct (load_rows int fieldnames rows _); simpl; discriminate. }
    destruct (Csv.reader _) as [recs |]; simpl; [| discriminate].
    destruct (Csv.dict_rows recs) as [fieldnames rows].
    pose proof (load_rows_images fieldnames rows (fresh self (Some content))) as Hi.
    destruct (load_rows int fieldnames rows _) as [s' | e s']; simpl in *; [| discriminate].
    intros [= <-]. simpl. exact Hi.
  - intros [= <-]. reflexivity.
Qed.

Lemma reachable_cursor_ok (s : State) :
  reachable self int open_image s -> cursor_ok s.
Proof.
  induction 1 as [file s Hinit | a s Hr IH].
  - intros Hne. apply init_images in Hinit. congruence.
  - apply run_preserves_cursor_ok. exact IH.
Qed.

(** C6.  In every state the application reaches, the cursor points into the
    image list when there is one; every callback keeps it so; class
    selection and saving leave the cursor where it is; and a folder
    selection that finds images puts it at 0. *)
Theorem cursor_invariant (s : State) :
  reachable self int open_image s ->
  (images s <> [] -> 0 <= current_index s < Py.len (images s)) /\
  (forall a, cursor_ok (state_of (run self open_image a s))) /\
  (forall k, current_index (state_of (select_class_by_key self k s)) = current_index s) /\
  current_index (state_of (on_class_selected self s)) = current_index s /\
  current_index (state_of (save_annotations self s)) = current_index s /\
  (forall c folder listing,
     images (state_of (select_folder self open_image (String c folder) listing s)) <> [] ->
     current_index (state_of (select_folder self open_image (String c folder) listing s)) = 0).
Proof.
  intros Hr. pose proof (reachable_cursor_ok s Hr) as Hc.
  split; [exact Hc |].
  split; [intros a; apply run_preserves_cursor_ok; exact Hc |].
  split.
  { intros k. unfold select_class_by_key.
    pose proof (on_class_selected_frame (set_selected_class k s)) as (_ & _ & H3).
    exact H3. }
  split; [apply on_class_selected_frame |].
  split; [apply save_annotations_frame |].
  intros c folder listing. unfold select_folder.
  pose proof (load_images_spec listing (set_image_folder (String c folder) s))
    as (_ & _ & _ & H0 & _).
  exact H0.
Qed.

(** C7, as amended.  On a non-empty image list with the cursor inside it,
    [next_image] and [previous_image] return without raising, move the
    cursor by one clamped to the list, and change neither the image list
    nor any annotation nor the store; when the cursor has moved to an image
    that [display_image] could display, the selection shown is the class
    recorded for that image, or -1 when none is. *)
Theorem navigation_moves_cursor_only (s : State) :
  images s <> [] -> 0 <= current_index s < Py.len (images s) ->
  (next_image self open_image s
     = Returned (state_of (next_image self open_image s)) /\
   previous_image self open_image s
     = Returned (state_of (previous_image self open_image s))) /\
  (current_index (state_of (next_image self open_image s))
     = Z.min (current_index s + 1) (Py.len (images s) - 1) /\
   current_index (state_of (previous_image self open_image s))
     = Z.max (current_index s - 1) 0) /\
  (same_session (set_current_index
                   (current_index (state_of (next_image self open_image s))) s)
                (state_of (next_image self open_image s)) /\
   same_session (set_current_index
                   (current_index (state_of (previous_image self open_image s))) s)
                (state_of (previous_image self open_image s))) /\
  (forall s' name,
     s' = state_of (next_image self open_image s) \/
     s' = state_of (previous_image self open_image s) ->
     current_index s' <> current_index s ->
     images s !! Z.to_nat (current_index s') = Some name ->
     displayable self open_image (image_folder s) name = true ->
     selected_class s' = recorded (annotations s) name).
Proof.
  intros Hne Hc.
  assert (Hnext :
    next_image self open_image s =
      if current_index s <? Py.len (images s) - 1
      then display_image self open_image (set_current_index (current_index s + 1) s)
      else Returned s).
  { unfold next_image. destruct (images s); [congruence | reflexivity]. }
  assert (Hprev :
    previous_image self open_image s =
      if current_index s >? 0
      then display_image self open_image (set_current_index (current_index s - 1) s)
      else Returned s).
  { unfold previous_image. destruct (images s); [congruence | reflexivity]. }
  rewrite Hnext, Hprev.
  pose proof (display_image_frame (set_current_index (current_index s + 1) s)) as Fn.
  pose proof (display_image_frame (set_current_index (current_index s - 1) s)) as Fp.
  destruct Fn as (Fn1 & Fn2 & Fn3 & Fn4 & Fn5).
  destruct Fp as (Fp1 & Fp2 & Fp3 & Fp4 & Fp5). simpl in *.
  destruct (Z.ltb_spec (current_index s) (Py.len (images s) - 1)) as [Hlt | Hge];
  destruct (Z.gtb_spec (current_index s) 0) as [Hgt | Hle].
  all: repeat split; simpl; auto; try lia.
  all: try (apply display_image_returns; unfold cursor_ok; simpl; lia).
  all: intros s' name [-> | ->] Hmoved Hname Hd; simpl in *; try congruence.
  all: rewrite ?Fn3, ?Fp3 in Hname.
  all: first
    [ apply (display_image_selection (set_current_index (current_index s + 1) s) name)
    | apply (display_image_selection (set_current_index (current_index s - 1) s) name) ];
    simpl; auto; lia.
Qed.

(** C9.  A folder whose listing holds no name with a recognised image
    extension: [load_images] returns (no exception), the image list is
    empty, one warning dialog is added to those shown so far, annotations
    and store are untouched.  Whatever the listing, folder selection leaves
    every annotation as it was. *)
Theorem load_images_without_images (listing : list string) (s : State) :
  Forall (fun f => is_image_name f = false) listing ->
  (load_images self open_image listing s =
     Returned (show (ShowWarning "Warning" "No images found in this folder")
                 (set_images [] s)) /\
   images (state_of (load_images self open_image listing s)) = [] /\
   dialogs (state_of (load_images self open_image listing s))
     = (dialogs s ++ [ShowWarning "Warning" "No images found in this folder"])%list /\
   annotations (state_of (load_images self open_image listing s)) = annotations s /\
   store (state_of (load_images self open_image listing s)) = store s) /\
  (forall c folder,
     select_folder self open_image (String c folder) listing s =
       Returned (show (ShowWarning "Warning" "No images found in this folder")
                   (set_images [] (set_image_folder (String c folder) s))) /\
     images (state_of (select_folder self open_image (String c folder) listing s)) = [] /\
     dialogs (state_of (select_folder self open_image (String c folder) listing s))
       = (dialogs s ++ [ShowWarning "Warning" "No images found in this folder"])%list) /\
  (forall folder listing' s',
     annotations (state_of (select_folder self open_image folder listing' s'))
       = annotations s' /\
     store (state_of (select_folder self open_image folder listing' s')) = store s').
Proof.
  intros Hnone.
  assert (Hf : filter (fun f => is_image_name f = true) listing = []).
  { induction Hnone as [| f l Hf _ IH]; [reflexivity |].
    rewrite filter_cons. destruct (decide (is_image_name f = true)); [congruence | exact IH]. }
  split; [| split].
  - unfold load_images. simpl. rewrite Hf. simpl. auto.
  - intros c folder. unfold select_folder, load_images. simpl. rewrite Hf. simpl. auto.
  - intros folder listing' s'. unfold select_folder.
    destruct folder as [| c folder]; [simpl; auto |].
    pose proof (load_images_spec listing' (set_image_folder (String c folder) s'))
      as (_ & H2 & H3 & _).
    simpl in *. auto.
Qed.

(** C4, as amended.  With no image loaded, [previous_image], [next_image]
    and class selection return normally and leave the state as it was
    (class selection only records the key in [selected_class]); so does
    class selection with a negative index on any state.  Nothing is
    raised. *)
Theorem invalid_actions_absorbed (k : Z) (s : State) :
  images s = [] \/ k < 0 ->
  select_class_by_key self k s = Returned (set_selected_class k s) /\
  (images s = [] ->
   previous_image self open_image s = Returned s /\
   next_image self open_image s = Returned s /\
   on_class_selected self s = Returned s).
Proof.
  intros H. split.
  - unfold select_class_by_key, on_class_selected. simpl.
    destruct (images s) as [| i0 l]; [reflexivity |].
    destruct H as [H | H]; [discriminate |].
    destruct (Z.geb_spec k 0); [lia | reflexivity].
  - intros Hi. unfold previous_image, next_image, on_class_selected.
    rewrite Hi. auto.
Qed.

End SessionProperties.

(** ** The session on concrete runs *)

Lemma session_start_reachable :
  reachable settings_100_500 int_digit opens_but_broken session_start.
Proof.
  apply (reachable_init settings_100_500 int_digit opens_but_broken None).
  reflexivity.
Defined.

Lemma session_opened_reachable :
  reachable settings_100_500 int_digit opens_but_broken session_opened.
Proof.
  apply (reachable_run settings_100_500 int_digit opens_but_broken
           (SelectFolder "photos" ["broken.png"; "notes.txt"; "a.png"])
           session_start session_start_reachable).
Defined.

Lemma cursor_invariant_witness :
  (images session_opened <> [] ->
   0 <= current_index session_opened < Py.len (images session_opened)) /\
  (forall a, cursor_ok (state_of (run settings_100_500 opens_but_broken a session_opened))) /\
  (forall k, current_index (state_of (select_class_by_key settings_100_500 k session_opened))
             = current_index session_opened) /\
  current_index (state_of (on_class_selected settings_100_500 session_opened))
    = current_index session_opened /\
  current_index (state_of (save_annotations settings_100_500 session_opened))
    = current_index session_opened /\
  (forall c folder listing,
     images (state_of (select_folder settings_100_500 opens_but_broken
                         (String c folder) listing session_opened)) <> [] ->
     current_index (state_of (select_folder settings_100_500 opens_but_broken
                                (String c folder) listing session_opened)) = 0).
Proof.
  exact (cursor_invariant settings_100_500 int_digit opens_but_broken
           session_opened session_opened_reachable).
Defined.

(** C4, against the claim: on the empty image list, navigation and a class
    index outside the class list return normally; nothing is raised. *)
Lemma empty_session_absorbs_actions :
  images session_start = [] /\
  Py.len (classes settings_100_500) <= 7 /\
  previous_image settings_100_500 opens_but_broken session_start
    = Returned session_start /\
  next_image settings_100_500 opens_but_broken session_start
    = Returned session_start /\
  select_class_by_key settings_100_500 7 session_start
    = Returned (set_selected_class 7 session_start).
Proof.
  split; [reflexivity |].
  split; [vm_compute; discriminate |].
  split; [reflexivity |].
  split; reflexivity.
Qed.

Lemma invalid_actions_absorbed_witness :
  select_class_by_key settings_100_500 7 session_start
    = Returned (set_selected_class 7 session_start) /\
  (images session_start = [] ->
   previous_image settings_100_500 opens_but_broken session_start
     = Returned session_start /\
   next_image settings_100_500 opens_but_broken session_start
     = Returned session_start /\
   on_class_selected settings_100_500 session_start = Returned session_start).
Proof.
  apply (invalid_actions_absorbed settings_100_500 opens_but_broken 7 session_start).
  left. reflexivity.
Defined.

(** C7, against the claim: after [a.png] was labelled with class 0, moving
    to [broken.png], which does not open, leaves class 0 selected although
    no class is recorded for [broken.png]. *)
Lemma next_image_keeps_stale_selection :
  images session_labelled = ["a.png"; "broken.png"] /\
  current_index session_labelled = 0 /\
  annotations session_labelled !! Some "a.png" = Some 0 /\
  annotations session_labelled !! Some "broken.png" = None /\
  current_index (state_of (next_image settings_100_500 opens_but_broken session_labelled)) = 1 /\
  selected_class (state_of (next_image settings_100_500 opens_but_broken session_labelled)) = 0 /\
  recorded (annotations session_labelled) "broken.png" = -1.
Proof.
  repeat split; vm_compute; reflexivity.
Qed.

Lemma navigation_moves_cursor_only_witness :
  (next_image settings_100_500 opens_but_broken session_opened
     = Returned (state_of (next_image settings_100_500 opens_but_broken session_opened)) /\
   previous_image settings_100_500 opens_but_broken session_opened
     = Returned (state_of (previous_image settings_100_500 opens_but_broken session_opened))) /\
  (current_index (state_of (next_image settings_100_500 opens_but_broken session_opened))
     = Z.min (current_index session_opened + 1) (Py.len (images session_opened) - 1) /\
   current_index (state_of (previous_image settings_100_500 opens_but_broken session_opened))
     = Z.max (current_index session_opened - 1) 0) /\
  (same_session
     (set_current_index
        (current_index (state_of (next_image settings_100_500 opens_but_broken session_opened)))
        session_opened)
     (state_of (next_image settings_100_500 opens_but_broken session_opened)) /\
   same_session
     (set_current_index
        (current_index (state_of (previous_image settings_100_500 opens_but_broken session_opened)))
        session_opened)
     (state_of (previous_image settings_100_500 opens_but_broken session_opened))) /\
  (forall s' name,
     s' = state_of (next_image settings_100_500 opens_but_broken session_opened) \/
     s' = state_of (previous_image settings_100_500 opens_but_broken session_opened) ->
     current_index s' <> current_index session_opened ->
     images session_opened !! Z.to_nat (current_index s') = Some name ->
     displayable settings_100_500 opens_but_broken (image_folder session_opened) name = true ->
     selected_class s' = recorded (annotations session_opened) name).
Proof.
  apply (navigation_moves_cursor_only settings_100_500 opens_but_broken session_opened).
  - vm_compute. discriminate.
  - vm_compute. split; [discriminate | reflexivity].
Defined.

Lemma load_images_without_images_witness :
  (load_images settings_100_500 opens_but_broken ["notes.txt"; "README"] session_labelled =
     Returned (show (ShowWarning "Warning" "No images found in this folder")
                 (set_images [] session_labelled)) /\
   images (state_of (load_images settings_100_500 opens_but_broken
                       ["notes.txt"; "README"] session_labelled)) = [] /\
   dialogs (state_of (load_images settings_100_500 opens_but_broken
                        ["notes.txt"; "README"] session_labelled))
     = (dialogs session_labelled
        ++ [ShowWarning "Warning" "No images found in this folder"])%list /\
   annotations (state_of (load_images settings_100_500 opens_but_broken
                            ["notes.txt"; "README"] session_labelled))
     = annotations session_labelled /\
   store (state_of (load_images settings_100_500 opens_but_broken
                      ["notes.txt"; "README"] session_labelled))
     = store session_labelled) /\
  (forall c folder,
     select_folder settings_100_500 opens_but_broken (String c folder)
       ["notes.txt"; "README"] session_labelled =
       Returned (show (ShowWarning "Warning" "No images found in this folder")
                   (set_images [] (set_image_folder (String c folder) session_labelled))) /\
     images (state_of (select_folder settings_100_500 opens_but_broken (String c folder)
                         ["notes.txt"; "README"] session_labelled)) = [] /\
     dialogs (state_of (select_folder settings_100_500 opens_but_broken (String c folder)
                          ["notes.txt"; "README"] session_labelled))
       = (dialogs session_labelled
          ++ [ShowWarning "Warning" "No images found in this folder"])%list) /\
  (forall folder listing' s',
     annotations (state_of (select_folder settings_100_500 opens_but_broken folder listing' s'))
       = annotations s' /\
     store (state_of (select_folder settings_100_500 opens_but_broken folder listing' s'))
       = store s').
Proof.
  apply (load_images_without_images settings_100_500 opens_but_broken
           ["notes.txt"; "README"] session_labelled).
  repeat constructor.
Defined.

(** ** The annotation store *)

Lemma app_cons (c : ascii) (s t : string) :
  String c s +:+ t = String c (s +:+ t).
Proof. reflexivity. Qed.

Lemma app_nil_l (s : string) : EmptyString +:+ s = s.
Proof. reflexivity. Qed.

Lemma app_nil_r (s : string) : s +:+ EmptyString = s.
Proof. induction s as [| c s IH]; [reflexivity |]. rewrite app_cons, IH. reflexivity. Qed.

Lemma app_assoc (s t u : string) : (s +:+ t) +:+ u = s +:+ (t +:+ u).
Proof.
  induction s as [| c s IH]; [reflexivity |].
  rewrite !app_cons, IH. reflexivity.
Qed.

#[global] Instance item_le_total : Total item_le.
Proof.
  intros [a i] [b j]. unfold item_le, item_leb. simpl.
  rewrite (str_compare_antisym a b).
  destruct (str_compare a b) eqn:Hab; simpl; auto.
  apply str_compare_eq in Hab as ->.
  destruct (Z.leb_spec i j); [auto |]. right. apply Z.leb_le. lia.
Qed.

#[global] Instance item_le_trans : Transitive item_le.
Proof.
  intros [a i] [b j] [c k]. unfold item_le, item_leb. simpl.
  destruct (str_compare a b) eqn:Hab; try discriminate.
  - apply str_compare_eq in Hab as ->.
    destruct (str_compare b c); try discriminate; auto.
    rewrite !Z.leb_le. lia.
  - destruct (str_compare b c) eqn:Hbc; try discriminate.
    + apply str_compare_eq in Hbc as <-. rewrite Hab. auto.
    + rewrite (str_compare_lt_trans a b c Hab Hbc). auto.
Qed.

#[global] Instance item_le_antisym : AntiSymm (=) item_le.
Proof.
  intros [a i] [b j]. unfold item_le, item_leb. simpl.
  rewrite (str_compare_antisym a b).
  destruct (str_compare a b) eqn:Hab; simpl; try discriminate.
  apply str_compare_eq in Hab as ->.
  rewrite !Z.leb_le. intros. f_equal. lia.
Qed.

Lemma entries_Permutation (m : gmap (option string) Z) :
  entries m ≡ₚ omap str_item (map_to_list m).
Proof. apply merge_sort_Permutation. Qed.

Lemma entries_Sorted (m : gmap (option string) Z) :
  StronglySorted item_le (entries m).
Proof. apply StronglySorted_merge_sort; apply _. Qed.

Lemma elem_of_entries (m : gmap (option string) Z) (f : string) (k : Z) :
  (f, k) ∈ entries m <-> m !! Some f = Some k.
Proof.
  rewrite entries_Permutation, list_elem_of_omap. split.
  - intros ([[g |] v] & Hin & Hs); simpl in Hs; [| discriminate].
    injection Hs as -> ->. apply elem_of_map_to_list in Hin. exact Hin.
  - intros H. exists (Some f, k). split; [| reflexivity].
    apply elem_of_map_to_list. exact H.
Qed.

Lemma mapM_str_item (l : list (option string * Z)) :
  Forall (fun kv => fst kv <> None) l ->
  mapM str_item l = Some (omap str_item l).
Proof.
  induction 1 as [| [[f |] v] l Hx _ IH]; [reflexivity | | simpl in Hx; congruence].
  cbn. rewrite IH. reflexivity.
Qed.

Lemma sorted_items_filenames (m : gmap (option string) Z) :
  filenames_only m ->
  sorted_items m = Py.Ok (prod_map Some id <$> entries m).
Proof.
  intros Hn. unfold sorted_items, entries.
  rewrite mapM_str_item; [reflexivity |].
  apply Forall_forall. intros [k v] Hin Hk. simpl in Hk. subst k.
  apply elem_of_map_to_list in Hin. unfold filenames_only in Hn. congruence.
Qed.

Section StoreProperties.

Variable self : Settings.

Lemma index_resolvable (k : Z) :
  resolvable self k = true ->
  Py.index (classes self) k = Py.Ok (class_name_of self k).
Proof.
  unfold resolvable, class_name_of, Py.index. intros H.
  apply andb_prop in H as [H1 H2]. apply Z.leb_le in H1. apply Z.ltb_lt in H2.
  destruct (Z.ltb_spec k 0).
  - destruct (Z.leb_spec 0 (k + Py.len (classes self))); [| lia].
    destruct (Z.ltb_spec (k + Py.len (classes self)) (Py.len (classes self))); [| lia].
    simpl. destruct (classes self !! _) eqn:Hl; [reflexivity |].
    apply lookup_ge_None in Hl. unfold Py.len in *. lia.
  - destruct (Z.leb_spec 0 k); [| lia].
    destruct (Z.ltb_spec k (Py.len (classes self))); [| lia].
    simpl. destruct (classes self !! _) eqn:Hl; [reflexivity |].
    apply lookup_ge_None in Hl. unfold Py.len in *. lia.
Qed.

Lemma index_unresolvable (k : Z) :
  resolvable self k = false ->
  Py.index (classes self) k = Py.Raise (Py.IndexError "list index out of range").
Proof.
  unfold resolvable, Py.index. intros H.
  apply andb_false_iff in H. rewrite Z.leb_gt, Z.ltb_ge in H.
  destruct (Z.ltb_spec k 0).
  - destruct (Z.leb_spec 0 (k + Py.len (classes self))); [| reflexivity].
    destruct (Z.ltb_spec (k + Py.len (classes self)) (Py.len (classes self))); [lia |].
    reflexivity.
  - destruct (Z.leb_spec 0 k); [| lia].
    destruct (Z.ltb_spec k (Py.len (classes self))); [lia | reflexivity].
Qed.

Lemma row_text_eq (f : string) (k : Z) :
  resolvable self k = true ->
  Csv.writerow [f; Py.str k; class_name_of self k] = row_text self (f, k).
Proof. reflexivity. Qed.

Lemma write_items_cons (g : string) (k : Z) (l : list (option string * Z)) (f : string) :
  write_items self ((Some g, k) :: l) f =
    match Py.index (classes self) k with
    | Py.Raise e => (Some e, f)
    | Py.Ok class_name =>
        match TextIO.write f (Csv.writerow [g; Py.str k; class_name]) with
        | Py.Raise e => (Some e, f)
        | Py.Ok f' => write_items self l f'
        end
    end.
Proof. reflexivity. Qed.

(** The loop of [save_annotations] over entries keyed by filenames: the
    rows before the first one that cannot be written are in the file, and
    the exception is the one of that row. *)
Lemma write_items_spec (l : list (string * Z)) (f : string) :
  write_items self (prod_map Some id <$> l) f =
    (first_error self l, f +:+ rows_text self (written_prefix self l)).
Proof.
  revert f. induction l as [| [g k] l IH]; intros f.
  - simpl. rewrite app_nil_r. reflexivity.
  - change (prod_map Some id <$> (g, k) :: l)
      with ((Some g, k) :: (prod_map Some id <$> l)).
    rewrite write_items_cons. cbn [first_error written_prefix].
    unfold writable, row_error. cbn [snd].
    destruct (resolvable self k) eqn:Hk; cbn [andb].
    + rewrite (index_resolvable k Hk), (row_text_eq g k Hk).
      unfold TextIO.write.
      destruct (Utf8.valid (row_text self (g, k))) eqn:Hv.
      * rewrite IH. cbn [rows_text]. rewrite app_assoc. reflexivity.
      * cbn [rows_text]. rewrite app_nil_r. reflexivity.
    + rewrite (index_unresolvable k Hk). cbn [rows_text].
      rewrite app_nil_r. reflexivity.
Qed.

Lemma resolved_prefix_all (l : list (string * Z)) :
  forallb (fun e => resolvable self (snd e)) l = true ->
  resolved_prefix self l = l.
Proof.
  induction l as [| e l IH]; simpl; [reflexivity |].
  intros H. apply andb_prop in H as [H1 H2]. rewrite H1, (IH H2). reflexivity.
Qed.

Lemma resolved_prefix_short (l : list (string * Z)) :
  forallb (fun e => resolvable self (snd e)) l = false ->
  (length (resolved_prefix self l) < length l)%nat.
Proof.
  induction l as [| e l IH]; simpl; [discriminate |].
  destruct (resolvable self (snd e)); simpl; [| lia].
  intros H. specialize (IH H). lia.
Qed.

Lemma save_annotations_written (s : State) :
  filenames_only (annotations s) ->
  save_annotations self s =
    (match first_error self (entries (annotations s)) with
     | None => Returned
     | Some e => Raised e
     end)
      (set_store
         (Some (Csv.writerow header
                +:+ rows_text self (written_prefix self (entries (annotations s))))) s).
Proof.
  intros Hn. unfold save_annotations.
  rewrite (sorted_items_filenames _ Hn), write_items_spec.
  destruct (first_error _ _); reflexivity.
Qed.

(** The row of an entry whose file name and class name are UTF-8 is
    UTF-8. *)
Lemma row_text_valid (f : string) (k : Z) :
  Forall (fun c => Utf8.valid c = true) (classes self) ->
  Utf8.valid f = true -> resolvable self k = true ->
  Utf8.valid (row_text self (f, k)) = true.
Proof.
  intros Hc Hf Hk. unfold row_text. apply writerow_valid.
  repeat constructor; simpl.
  - exact Hf.
  - apply is_ascii_valid, str_ascii.
  - pose proof (index_resolvable k Hk) as Hi.
    unfold Py.index in Hi.
    destruct (_ && _); [| discriminate].
    destruct (classes self !! _) as [c |] eqn:Hl; [| discriminate].
    injection Hi as <-. rewrite Forall_forall in Hc. apply Hc.
    apply list_elem_of_lookup. eauto.
Qed.

Lemma encodable_rows (l : list (string * Z)) :
  Forall (fun c => Utf8.valid c = true) (classes self) ->
  Forall (fun e => Utf8.valid (fst e) = true) l ->
  first_error self l =
    (if forallb (fun e => resolvable self (snd e)) l then None
     else Some (Py.IndexError "list index out of range")) /\
  written_prefix self l = resolved_prefix self l.
Proof.
  intros Hc Hl. induction Hl as [| [g k] l Hg _ IH]; simpl; [auto |].
  unfold writable, row_error. simpl in *.
  destruct (resolvable self k) eqn:Hk; simpl; [| auto].
  rewrite (row_text_valid g k Hc Hg Hk). destruct IH as [-> ->]. auto.
Qed.

Lemma encodable_entries (m : gmap (option string) Z) :
  encodable self m ->
  Forall (fun c => Utf8.valid c = true) (classes self) /\
  Forall (fun e => Utf8.valid (fst e) = true) (entries m).
Proof.
  intros [Hc Hm]. split; [exact Hc |].
  apply Forall_forall. intros [f k] Hin. apply elem_of_entries in Hin.
  simpl. eauto.
Qed.

Lemma save_annotations_spec (s : State) :
  filenames_only (annotations s) -> encodable self (annotations s) ->
  save_annotations self s =
    (if forallb (fun e => resolvable self (snd e)) (entries (annotations s))
     then Returned
     else Raised (Py.IndexError "list index out of range"))
      (set_store
         (Some (Csv.writerow header
                +:+ rows_text self (resolved_prefix self (entries (annotations s))))) s).
Proof.
  intros Hn He. rewrite (save_annotations_written s Hn).
  destruct (encodable_entries _ He) as [Hc Hl].
  destruct (encodable_rows _ Hc Hl) as [-> ->].
  destruct (forallb _ _); reflexivity.
Qed.

Lemma forallb_resolvable (m : gmap (option string) Z) :
  forallb (fun e => resolvable self (snd e)) (entries m) = true <->
  (forall f k, m !! Some f = Some k -> resolvable self k = true).
Proof.
  rewrite forallb_forall. split.
  - intros H f k Hfk. apply (H (f, k)).
    apply list_elem_of_In, elem_of_entries. exact Hfk.
  - intros H [f k] Hin. apply list_elem_of_In, elem_of_entries in Hin.
    simpl. eauto.
Qed.

Lemma save_annotations_resolvable (s : State) :
  filenames_only (annotations s) -> encodable self (annotations s) ->
  (forall f k, annotations s !! Some f = Some k -> resolvable self k = true) ->
  save_annotations self s =
    Returned (set_store (Some (store_text self (annotations s))) s).
Proof.
  intros Hn He Hall. rewrite (save_annotations_spec s Hn He).
  apply forallb_resolvable in Hall.
  rewrite Hall, (resolved_prefix_all _ Hall). reflexivity.
Qed.


End StoreProperties.


Lemma one_name_encodable (self : Settings) (name : string) (k : Z) :
  Forall (fun c => Utf8.valid c = true) (classes self) ->
  Utf8.valid name = true ->
  encodable self {[ Some name := k ]}.
Proof.
  intros Hc Hn. split; [exact Hc |].
  intros f v Hfv. apply lookup_singleton_Some in Hfv as [[= <-] _]. exact Hn.
Qed.


(** ** Loading the store *)

Lemma universal_newlines_no_cr (b : bool) (s : string) :
  no_cr (TextIO.universal_newlines b s) = true.
Proof.
  revert b. induction s as [| c s IH]; intros b; simpl; [reflexivity |].
  destruct (Ascii.eqb c Py.CR) eqn:Hcr; simpl; [apply IH |].
  destruct (Ascii.eqb c Py.LF) eqn:Hlf.
  - destruct b; simpl; apply IH.
  - simpl. rewrite Hcr. simpl. apply IH.
Qed.

Lemma readlines_newline_last (s : string) :
  no_cr s = true -> Forall (fun line => newline_last line = true) (TextIO.readlines s).
Proof.
  induction s as [| c s IH]; simpl; [constructor |].
  intros H. apply andb_prop in H as [Hc Hs]. specialize (IH Hs).
  destruct (Ascii.eqb c Py.LF) eqn:Hlf.
  - constructor; [| exact IH]. simpl. unfold Csv.is_newline. rewrite Hlf. reflexivity.
  - assert (Hn : Csv.is_newline c = false).
    { unfold Csv.is_newline. rewrite Hlf. simpl. apply negb_true_iff. exact Hc. }
    destruct (TextIO.readlines s) as [| l ls].
    + constructor; [| constructor]. simpl. rewrite Hn. reflexivity.
    + inversion IH as [| ? ? Hl Hls]; subst.
      constructor; [| exact Hls]. simpl. rewrite Hn. exact Hl.
Qed.

Lemma process_eol_total (p : Csv.parser) :
  exists p', Csv.parse_process_char p Csv.EOL = Py.Ok p' /\ Csv.st p' <> Csv.EAT_CRNL.
Proof.
  unfold Csv.parse_process_char.
  destruct p as [[] f fs]; simpl; eexists; split; try reflexivity; simpl; discriminate.
Qed.

Lemma process_char_total (p : Csv.parser) (c : ascii) :
  Csv.st p <> Csv.EAT_CRNL ->
  exists p', Csv.parse_process_char p (Csv.Char c) = Py.Ok p' /\
             (Csv.is_newline c = false -> Csv.st p' <> Csv.EAT_CRNL).
Proof.
  intros Hs. unfold Csv.parse_process_char, Csv.start_field.
  destruct p as [[] f fs]; simpl in *; try congruence;
    destruct (Csv.is_newline c) eqn:Hn;
    repeat match goal with
           | |- context [Ascii.eqb ?a ?b] => destruct (Ascii.eqb a b)
           end;
    eexists; (split; [reflexivity | simpl; intros; congruence]).
Qed.

Lemma feed_line_total (line : string) (p : Csv.parser) :
  newline_last line = true -> Csv.st p <> Csv.EAT_CRNL ->
  exists p', Csv.feed_line p line = Py.Ok p' /\ Csv.st p' <> Csv.EAT_CRNL.
Proof.
  revert p. induction line as [| c rest IH]; intros p Hl Hs; simpl.
  - apply process_eol_total.
  - simpl in Hl. destruct (Csv.is_newline c) eqn:Hn.
    + destruct rest; [| discriminate].
      destruct (process_char_total p c Hs) as (p1 & -> & _). simpl.
      apply process_eol_total.
    + destruct (process_char_total p c Hs) as (p1 & -> & H1). simpl.
      apply IH; auto.
Qed.

Lemma records_total (lines : list string) (p : Csv.parser) :
  Forall (fun line => newline_last line = true) lines ->
  Csv.st p <> Csv.EAT_CRNL ->
  exists recs, Csv.records p lines = Py.Ok recs.
Proof.
  intros Hl. revert p. induction Hl as [| line lines Hline _ IH]; intros p Hs; simpl.
  - destruct (_ || _); eauto.
  - destruct (feed_line_total line p Hline Hs) as (p' & -> & Hs'). simpl.
    destruct (Csv.is_start_record (Csv.st p')).
    + destruct (IH Csv.parse_reset) as (recs & ->); [simpl; discriminate |].
      simpl. eauto.
    + apply IH. exact Hs'.
Qed.

(** Read through [open(path, 'r')], a text never makes the reader fail. *)
Lemma reader_total (content : string) :
  Csv.reader (TextIO.read_text_lines content) = Py.Ok (store_records content).
Proof.
  unfold store_records.
  destruct (records_total (TextIO.read_text_lines content) Csv.parse_reset) as (recs & H).
  - apply readlines_newline_last, universal_newlines_no_cr.
  - simpl. discriminate.
  - unfold Csv.reader. rewrite H. reflexivity.
Qed.

Lemma lookup_foldl_insert (es : list (option string * Z)) (m : gmap (option string) Z)
    (k : option string) :
  foldl (fun m e => <[fst e := snd e]> m) m es !! k =
    match last_value k es with
    | Some v => Some v
    | None => m !! k
    end.
Proof.
  revert m. induction es as [| [k' n] es IH]; intros m; simpl; [reflexivity |].
  rewrite IH. destruct (last_value k es); [reflexivity |].
  destruct (decide (k' = k)) as [-> | Hne].
  - apply lookup_insert_eq.
  - apply lookup_insert_ne. exact Hne.
Qed.

Section LoadProperties.

Variable self : Settings.
Variable int : string -> option Z.

Lemma load_rows_spec (fieldnames : list string) (rows : list (list string))
    (es : list (option string * Z)) (s : State) :
  row_entries int fieldnames rows = Py.Ok es ->
  load_rows int fieldnames rows s =
    Returned (set_annotations
                (foldl (fun m e => <[fst e := snd e]> m) (annotations s) es) s).
Proof.
  revert es s. induction rows as [| r rows IH]; intros es s; simpl.
  - intros [= <-]. destruct s; reflexivity.
  - destruct (row_entry int fieldnames r) as [[k n] |]; simpl; [| discriminate].
    destruct (row_entries int fieldnames rows) as [es' |]; simpl; [| discriminate].
    intros [= <-]. rewrite (IH es' _ eq_refl). reflexivity.
Qed.

Lemma read_fault_invalid (content : string) :
  Utf8.valid content = false ->
  exists text msg,
    TextIO.read_fault content = Some (text, Py.UnicodeDecodeError msg).
Proof.
  unfold Utf8.valid, TextIO.read_fault.
  destruct (Utf8.scan [] 0 content) as [ft | [| x l]]; [| discriminate |]; eauto.
Qed.

Lemma load_previous_annotations_invalid (s : State) (content : string) :
  store s = Some content -> Utf8.valid content = false ->
  exists e s', load_previous_annotations int s = Raised e s'.
Proof.
  intros Hs Hv. unfold load_previous_annotations. rewrite Hs.
  destruct (read_fault_invalid content Hv) as (text & msg & ->).
  destruct (Csv.yielded _ _) as [recs |]; [| eauto].
  destruct (Csv.dict_rows recs) as [fieldnames rows].
  destruct (load_rows int fieldnames rows s) as [s' | e s']; simpl; eauto.
Qed.


(** X20.  A store with a byte that is not UTF-8 among its first 8192
    bytes loads nothing: the first read of the file raises
    [UnicodeDecodeError], which leaves [load_previous_annotations] with the
    annotations as they were, even when complete rows come before the
    byte.  (The one exception is the first byte of an encoded surrogate cut
    by the end of the chunk, which the decoder refuses one read later.) *)
Theorem load_not_utf8_first_chunk (s : State) (content : string) (ft : Utf8.fault) :
  store s = Some content ->
  Utf8.scan [] 0 content = inl ft ->
  (Utf8.refused ft < TextIO.CHUNK_SIZE)%N ->
  TextIO.cut_surrogate content ft = false ->
  Utf8.valid content = false /\
  load_previous_annotations int s
    = Raised (Py.UnicodeDecodeError
                (Utf8.decode_message content 0 (Utf8.first ft) (Utf8.past ft)
                   (Utf8.reason ft))) s.
Proof.
  intros Hs Hscan Hlt Hcut.
  split; [unfold Utf8.valid; rewrite Hscan; reflexivity |].
  unfold load_previous_annotations, TextIO.read_fault. rewrite Hs, Hscan, Hcut.
  rewrite (N.div_small _ _ Hlt), N.mul_0_r, N.sub_0_l.
  unfold TextIO.take. change (N.to_nat 0) with 0%nat.
  replace (String.substring 0 0 content) with EmptyString
    by (destruct content; reflexivity).
  change (TextIO.complete_lines EmptyString) with (@nil string).
  reflexivity.
Qed.

End LoadProperties.


Lemma load_not_utf8_first_chunk_witness :
  Utf8.valid store_bad_byte = false /\
  load_previous_annotations int_digit (fresh settings_100_500 (Some store_bad_byte))
    = Raised (Py.UnicodeDecodeError
                (Utf8.decode_message store_bad_byte 0 46 47 "invalid start byte"))
        (fresh settings_100_500 (Some store_bad_byte)).
Proof.
  apply (load_not_utf8_first_chunk int_digit
           (fresh settings_100_500 (Some store_bad_byte)) store_bad_byte
           {| Utf8.refused := 46; Utf8.first := 46; Utf8.past := 47;
              Utf8.reason := "invalid start byte" |});
    vm_compute; reflexivity.
Defined.

(** ** Reading back what was written *)

Lemma bind_assoc {A B C} (r : Py.result A) (f : A -> Py.result B) (g : B -> Py.result C) :
  Py.bind (Py.bind r f) g = Py.bind r (fun a => Py.bind (f a) g).
Proof. destruct r; reflexivity. Qed.

Lemma records_cons_char (p : Csv.parser) (c : ascii) (l : string) (ls : list string) :
  Csv.records p (String c l :: ls) =
    (p1 <- Csv.parse_process_char p (Csv.Char c) ;; Csv.records p1 (l :: ls)).
Proof.
  simpl. rewrite bind_assoc. reflexivity.
Qed.

Lemma readlines_cons_char (c : ascii) (t : string) :
  Ascii.eqb c Py.LF = false ->
  exists l ls, pending_lines true t = l :: ls /\
               TextIO.readlines (String c t) = String c l :: ls.
Proof.
  intros Hc. simpl. rewrite Hc.
  destruct t as [| d t]; [simpl; eauto |].
  unfold pending_lines.
  destruct (TextIO.readlines (String d t)) as [| l ls] eqn:Hl; [| eauto].
  simpl in Hl. destruct (Ascii.eqb d Py.LF); [discriminate |].
  destruct (TextIO.readlines t); discriminate.
Qed.

Lemma pending_lines_cons (mid : bool) (c : ascii) (t : string) :
  pending_lines mid (String c t) = TextIO.readlines (String c t).
Proof. reflexivity. Qed.

Lemma read_csv_text_correct (r : string) (pendingcr mid : bool) (p : Csv.parser) :
  Csv.records p (pending_lines mid (TextIO.universal_newlines pendingcr r))
    = read_csv_text pendingcr mid p r.
Proof.
  revert pendingcr mid p. induction r as [| c r IH]; intros b mid p.
  - simpl. destruct mid; reflexivity.
  - assert (Hline : forall b',
      Csv.records p (TextIO.readlines (String Py.LF (TextIO.universal_newlines b' r))) =
      (p1 <- Csv.parse_process_char p (Csv.Char Py.LF) ;;
       p2 <- Csv.parse_process_char p1 Csv.EOL ;;
       if Csv.is_start_record (Csv.st p2) then
         rows <- read_csv_text b' false Csv.parse_reset r ;;
         Py.Ok (Csv.fields p2 :: rows)
       else read_csv_text b' false p2 r)).
    { intros b'. change (TextIO.readlines (String Py.LF ?t))
        with (String Py.LF EmptyString :: TextIO.readlines t).
      rewrite records_cons_char.
      destruct (Csv.parse_process_char p (Csv.Char Py.LF)) as [p1 |]; [| reflexivity].
      simpl. destruct (Csv.parse_process_char p1 Csv.EOL) as [p2 |]; [| reflexivity].
      simpl.
      pose proof (IH b' false) as IH'.
      assert (Hp : forall q, Csv.records q (TextIO.readlines (TextIO.universal_newlines b' r))
                             = read_csv_text b' false q r).
      { intros q. rewrite <- IH'. unfold pending_lines.
        destruct (TextIO.universal_newlines b' r); reflexivity. }
      rewrite !Hp. reflexivity. }
    simpl TextIO.universal_newlines. simpl read_csv_text.
    destruct (Ascii.eqb c Py.CR) eqn:Hcr.
    { rewrite pending_lines_cons. apply Hline. }
    destruct (Ascii.eqb c Py.LF) eqn:Hlf.
    { destruct b; [apply IH |]. rewrite pending_lines_cons. apply Hline. }
    rewrite pending_lines_cons.
    destruct (readlines_cons_char c (TextIO.universal_newlines false r) Hlf)
      as (l & ls & Hp & ->).
    rewrite records_cons_char, <- Hp.
    destruct (Csv.parse_process_char p (Csv.Char c)) as [p1 |]; [| reflexivity].
    simpl. apply IH.
Qed.

Lemma reader_read_csv_text (content : string) :
  Csv.reader (TextIO.read_text_lines content)
    = read_csv_text false false Csv.parse_reset content.
Proof.
  unfold Csv.reader, TextIO.read_text_lines.
  rewrite <- read_csv_text_correct. unfold pending_lines.
  destruct (TextIO.universal_newlines false content); reflexivity.
Qed.

Lemma special_false (c : ascii) :
  Csv.special c = false ->
  Ascii.eqb c Py.COMMA = false /\ Ascii.eqb c Py.QUOTE = false /\
  Ascii.eqb c Py.LF = false /\ Ascii.eqb c Py.CR = false.
Proof.
  unfold Csv.special. intros H.
  repeat (apply orb_false_elim in H as [H ?]). auto.
Qed.

Lemma read_char (c : ascii) (r : string) (b mid : bool) (p : Csv.parser) :
  Ascii.eqb c Py.CR = false -> Ascii.eqb c Py.LF = false ->
  read_csv_text b mid p (String c r) =
    (p1 <- Csv.parse_process_char p (Csv.Char c) ;; read_csv_text false true p1 r).
Proof. intros H1 H2. simpl. rewrite H1, H2. reflexivity. Qed.

Lemma read_cr (r : string) (b mid : bool) (p : Csv.parser) :
  read_csv_text b mid p (String Py.CR r) =
    (p1 <- Csv.parse_process_char p (Csv.Char Py.LF) ;;
     p2 <- Csv.parse_process_char p1 Csv.EOL ;;
     if Csv.is_start_record (Csv.st p2) then
       rows <- read_csv_text true false Csv.parse_reset r ;;
       Py.Ok (Csv.fields p2 :: rows)
     else read_csv_text true false p2 r).
Proof. reflexivity. Qed.

Lemma read_lf (r : string) (mid : bool) (p : Csv.parser) :
  read_csv_text false mid p (String Py.LF r) =
    (p1 <- Csv.parse_process_char p (Csv.Char Py.LF) ;;
     p2 <- Csv.parse_process_char p1 Csv.EOL ;;
     if Csv.is_start_record (Csv.st p2) then
       rows <- read_csv_text false false Csv.parse_reset r ;;
       Py.Ok (Csv.fields p2 :: rows)
     else read_csv_text false false p2 r).
Proof. reflexivity. Qed.

Lemma read_lf_pending (r : string) (mid : bool) (p : Csv.parser) :
  read_csv_text true mid p (String Py.LF r) = read_csv_text false mid p r.
Proof. reflexivity. Qed.

Arguments read_csv_text : simpl never.

Lemma bind_ok {A B} (a : A) (k : A -> Py.result B) : Py.bind (Py.Ok a) k = k a.
Proof. reflexivity. Qed.

(** A cell without special characters is read as it stands. *)
Lemma as_read_plain (f : string) (b : bool) :
  Csv.has_special f = false -> TextIO.universal_newlines b f = f.
Proof.
  revert b. induction f as [| c f IH]; intros b; simpl; [reflexivity |].
  intros H. apply orb_false_elim in H as [Hc Hf].
  apply special_false in Hc as (_ & _ & Hlf & Hcr).
  rewrite Hcr, Hlf, (IH false Hf). reflexivity.
Qed.

Lemma as_read_no_cr (f : string) :
  no_cr f = true -> as_read f = f.
Proof.
  unfold as_read. induction f as [| c f IH]; simpl; [reflexivity |].
  intros H. apply andb_prop in H as [Hc Hf]. apply negb_true_iff in Hc.
  rewrite Hc, (IH Hf). destruct (Ascii.eqb c Py.LF) eqn:Hlf; [| reflexivity].
  apply Ascii.eqb_eq in Hlf as ->. reflexivity.
Qed.

(** [parse_process_char] on the states and characters a written row
    goes through. *)
Section ProcessChar.

Variables (acc : string) (fs : list string).


Lemma process_plain_in_field (c : ascii) :
  Csv.special c = false ->
  Csv.parse_process_char {| Csv.st := Csv.IN_FIELD; Csv.field := acc; Csv.fields := fs |} (Csv.Char c)
    = Py.Ok {| Csv.st := Csv.IN_FIELD; Csv.field := acc +:+ String c EmptyString; Csv.fields := fs |}.
Proof.
  intros H. apply special_false in H as (Hcomma & _ & Hlf & Hcr).
  unfold Csv.parse_process_char, Csv.is_newline. simpl.
  rewrite Hlf, Hcr, Hcomma. reflexivity.
Qed.

Lemma process_plain_at_start (s : Csv.state) (c : ascii) :
  s = Csv.START_RECORD \/ s = Csv.START_FIELD ->
  Csv.special c = false ->
  Csv.parse_process_char {| Csv.st := s; Csv.field := acc; Csv.fields := fs |} (Csv.Char c)
    = Py.Ok {| Csv.st := Csv.IN_FIELD; Csv.field := acc +:+ String c EmptyString; Csv.fields := fs |}.
Proof.
  intros Hs H. apply special_false in H as (Hcomma & Hquote & Hlf & Hcr).
  unfold Csv.parse_process_char, Csv.start_field, Csv.is_newline.
  destruct Hs as [-> | ->]; simpl; rewrite Hlf, Hcr, Hquote, Hcomma; reflexivity.
Qed.

Lemma process_quote_at_start (s : Csv.state) :
  s = Csv.START_RECORD \/ s = Csv.START_FIELD ->
  Csv.parse_process_char {| Csv.st := s; Csv.field := acc; Csv.fields := fs |} (Csv.Char Py.QUOTE)
    = Py.Ok {| Csv.st := Csv.IN_QUOTED_FIELD; Csv.field := acc; Csv.fields := fs |}.
Proof. intros [-> | ->]; reflexivity. Qed.

Lemma process_comma_at_start (s : Csv.state) :
  s = Csv.START_RECORD \/ s = Csv.START_FIELD ->
  Csv.parse_process_char {| Csv.st := s; Csv.field := acc; Csv.fields := fs |} (Csv.Char Py.COMMA)
    = Py.Ok {| Csv.st := Csv.START_FIELD; Csv.field := EmptyString; Csv.fields := fs ++ [acc] |}.
Proof. intros [-> | ->]; reflexivity. Qed.

Lemma process_other_in_quoted (c : ascii) :
  Ascii.eqb c Py.QUOTE = false ->
  Csv.parse_process_char {| Csv.st := Csv.IN_QUOTED_FIELD; Csv.field := acc; Csv.fields := fs |} (Csv.Char c)

    = Py.Ok {| Csv.st := Csv.IN_QUOTED_FIELD; Csv.field := acc +:+ String c EmptyString; Csv.fields := fs |}.
Proof.
  intros H. unfold Csv.parse_process_char. simpl. rewrite H. reflexivity.
Qed.

Lemma process_line_end {B} (s : Csv.state) (k : Csv.parser -> Py.result B) :
  s = Csv.START_FIELD \/ s = Csv.IN_FIELD \/ s = Csv.QUOTE_IN_QUOTED_FIELD ->
  (p1 <- Csv.parse_process_char {| Csv.st := s; Csv.field := acc; Csv.fields := fs |} (Csv.Char Py.LF) ;;
   p2 <- Csv.parse_process_char p1 Csv.EOL ;; k p2) = k {| Csv.st := Csv.START_RECORD; Csv.field := EmptyString; Csv.fields := fs ++ [acc] |}.
Proof. intros [-> | [-> | ->]]; reflexivity. Qed.

Lemma process_comma_after_field (s : Csv.state) :
  s = Csv.IN_FIELD \/ s = Csv.QUOTE_IN_QUOTED_FIELD ->
  Csv.parse_process_char {| Csv.st := s; Csv.field := acc; Csv.fields := fs |} (Csv.Char Py.COMMA)
    = Py.Ok {| Csv.st := Csv.START_FIELD; Csv.field := EmptyString; Csv.fields := fs ++ [acc] |}.
Proof. intros [-> | ->]; reflexivity. Qed.

End ProcessChar.

(** Inside an unquoted field, plain characters are appended. *)
Lemma read_plain_chars (f rest : string) (b mid : bool) (acc : string) (fs : list string) :
  Csv.has_special f = false ->
  read_csv_text b mid
    {| Csv.st := Csv.IN_FIELD; Csv.field := acc; Csv.fields := fs |} (f +:+ rest) =
  read_csv_text (if Csv.is_empty f then b else false) (if Csv.is_empty f then mid else true)
    {| Csv.st := Csv.IN_FIELD; Csv.field := acc +:+ f; Csv.fields := fs |} rest.
Proof.
  revert b mid acc. induction f as [| c f IH]; intros b mid acc H.
  - simpl. rewrite app_nil_r. reflexivity.
  - simpl in H. apply orb_false_elim in H as [Hc Hf].
    pose proof (special_false c Hc) as (_ & _ & Hlf & Hcr).
    rewrite app_cons, (read_char c _ b mid _ Hcr Hlf).
    rewrite (process_plain_in_field acc fs c Hc), bind_ok. cbv beta.
    rewrite (IH false true _ Hf).
    rewrite app_assoc, app_cons, app_nil_l.
    destruct (Csv.is_empty f); reflexivity.
Qed.

(** Inside a quoted field, up to the closing quote: the cell is read with
    its newlines translated. *)
Lemma read_quoted_body (f rest : string) (b mid : bool) (acc : string) (fs : list string) :
  read_csv_text b mid
    {| Csv.st := Csv.IN_QUOTED_FIELD; Csv.field := acc; Csv.fields := fs |}
    (Csv.escape f +:+ String Py.QUOTE rest) =
  read_csv_text false true
    {| Csv.st := Csv.QUOTE_IN_QUOTED_FIELD;
       Csv.field := acc +:+ TextIO.universal_newlines b f; Csv.fields := fs |} rest.
Proof.
  revert b mid acc. induction f as [| c f IH]; intros b mid acc.
  - simpl Csv.escape. rewrite app_nil_l.
    rewrite read_char by reflexivity.
    simpl TextIO.universal_newlines. rewrite app_nil_r. reflexivity.
  - simpl Csv.escape. simpl TextIO.universal_newlines.
    destruct (Ascii.eqb c Py.QUOTE) eqn:Hq.
    + apply Ascii.eqb_eq in Hq as ->.
      rewrite !app_cons.
      rewrite read_char by reflexivity.
      change (Csv.parse_process_char _ (Csv.Char Py.QUOTE))
        with (Py.Ok {| Csv.st := Csv.QUOTE_IN_QUOTED_FIELD; Csv.field := acc; Csv.fields := fs |}).
      rewrite bind_ok; cbv beta. rewrite read_char by reflexivity.
      change (Csv.parse_process_char _ (Csv.Char Py.QUOTE))
        with (Py.Ok {| Csv.st := Csv.IN_QUOTED_FIELD;
                       Csv.field := acc +:+ String Py.QUOTE EmptyString; Csv.fields := fs |}).
      rewrite bind_ok; cbv beta. rewrite IH.
      change (Ascii.eqb Py.QUOTE Py.CR) with false.
      change (Ascii.eqb Py.QUOTE Py.LF) with false. cbv iota.
      rewrite app_assoc. reflexivity.
    + rewrite app_cons.
      destruct (Ascii.eqb c Py.CR) eqn:Hcr.
      * apply Ascii.eqb_eq in Hcr as ->. rewrite read_cr.
        change (Csv.parse_process_char _ (Csv.Char Py.LF))
          with (Py.Ok {| Csv.st := Csv.IN_QUOTED_FIELD;
                         Csv.field := acc +:+ String Py.LF EmptyString; Csv.fields := fs |}).
        rewrite bind_ok; cbv beta.
        change (Csv.parse_process_char _ Csv.EOL)
          with (Py.Ok {| Csv.st := Csv.IN_QUOTED_FIELD;
                         Csv.field := acc +:+ String Py.LF EmptyString; Csv.fields := fs |}).
        rewrite bind_ok; cbv beta. cbn [Csv.is_start_record Csv.st].
        rewrite IH, app_assoc. reflexivity.
      * destruct (Ascii.eqb c Py.LF) eqn:Hlf.
        -- apply Ascii.eqb_eq in Hlf as ->. destruct b.
           ++ rewrite read_lf_pending. apply IH.
           ++ rewrite read_lf.
              change (Csv.parse_process_char _ (Csv.Char Py.LF))
                with (Py.Ok {| Csv.st := Csv.IN_QUOTED_FIELD;
                               Csv.field := acc +:+ String Py.LF EmptyString;
                               Csv.fields := fs |}).
              rewrite bind_ok; cbv beta.
              change (Csv.parse_process_char _ Csv.EOL)
                with (Py.Ok {| Csv.st := Csv.IN_QUOTED_FIELD;
                               Csv.field := acc +:+ String Py.LF EmptyString;
                               Csv.fields := fs |}).
              rewrite bind_ok; cbv beta. cbn [Csv.is_start_record Csv.st].
              rewrite IH, app_assoc. reflexivity.
        -- rewrite (read_char c _ b mid _ Hcr Hlf).
           rewrite (process_other_in_quoted acc fs c Hq), bind_ok. cbv beta.
           rewrite IH, app_assoc. reflexivity.
Qed.

(** A written cell followed by the delimiter. *)
Lemma read_field_comma (f rest : string) (b mid : bool) (s : Csv.state) (fs : list string) :
  s = Csv.START_RECORD \/ s = Csv.START_FIELD ->
  read_csv_text b mid
    {| Csv.st := s; Csv.field := EmptyString; Csv.fields := fs |}
    (Csv.field_text f +:+ String Py.COMMA rest) =
  read_csv_text false true
    {| Csv.st := Csv.START_FIELD; Csv.field := EmptyString;
       Csv.fields := fs ++ [as_read f] |} rest.
Proof.
  intros Hs. unfold Csv.field_text, as_read.
  destruct (Csv.has_special f) eqn:Hsp.
  - rewrite app_cons, app_assoc, app_cons, app_nil_l.
    rewrite read_char by reflexivity.
    rewrite (process_quote_at_start EmptyString fs s Hs), bind_ok. cbv beta.
    rewrite read_quoted_body, app_nil_l.
    rewrite read_char by reflexivity.
    rewrite (process_comma_after_field _ fs Csv.QUOTE_IN_QUOTED_FIELD), bind_ok by auto.
    reflexivity.
  - rewrite (as_read_plain f false Hsp).
    destruct f as [| c f].
    + rewrite app_nil_l. rewrite read_char by reflexivity.
      rewrite (process_comma_at_start EmptyString fs s Hs), bind_ok. reflexivity.
    + simpl in Hsp. apply orb_false_elim in Hsp as [Hc Hf].
      pose proof (special_false c Hc) as (_ & _ & Hlf & Hcr).
      rewrite app_cons, (read_char c _ b mid _ Hcr Hlf).
      rewrite (process_plain_at_start EmptyString fs s c Hs Hc), bind_ok. cbv beta.
      rewrite (read_plain_chars f _ false true _ fs Hf).
      rewrite read_char by reflexivity.
      rewrite (process_comma_after_field _ fs Csv.IN_FIELD), bind_ok by auto.
      rewrite app_nil_l, app_cons, app_nil_l. reflexivity.
Qed.

(** The last written cell of a row, followed by the line terminator. *)
Lemma read_field_crlf (f rest : string) (b mid : bool) (fs : list string) :
  read_csv_text b mid
    {| Csv.st := Csv.START_FIELD; Csv.field := EmptyString; Csv.fields := fs |}
    (Csv.field_text f +:+ Csv.lineterminator +:+ rest) =
  (rows <- read_csv_text false false Csv.parse_reset rest ;;
   Py.Ok ((fs ++ [as_read f])%list :: rows)).
Proof.
  unfold Csv.field_text, as_read, Csv.lineterminator.
  rewrite !app_cons, app_nil_l.
  destruct (Csv.has_special f) eqn:Hsp.
  - rewrite app_cons, app_assoc, app_cons, app_nil_l.
    rewrite read_char by reflexivity.
    rewrite (process_quote_at_start EmptyString fs Csv.START_FIELD), bind_ok by auto.
    cbv beta. rewrite read_quoted_body, app_nil_l.
    rewrite read_cr.
    rewrite (process_line_end _ fs Csv.QUOTE_IN_QUOTED_FIELD) by auto.
    cbn [Csv.is_start_record Csv.st Csv.fields].
    rewrite read_lf_pending. reflexivity.
  - rewrite (as_read_plain f false Hsp).
    destruct f as [| c f].
    + rewrite app_nil_l, read_cr.
      rewrite (process_line_end _ fs Csv.START_FIELD) by auto.
      cbn [Csv.is_start_record Csv.st Csv.fields].
      rewrite read_lf_pending. reflexivity.
    + simpl in Hsp. apply orb_false_elim in Hsp as [Hc Hf].
      pose proof (special_false c Hc) as (_ & _ & Hlf & Hcr).
      rewrite app_cons, (read_char c _ b mid _ Hcr Hlf).
      rewrite (process_plain_at_start EmptyString fs Csv.START_FIELD c), bind_ok by auto.
      cbv beta.
      rewrite (read_plain_chars f _ false true _ fs Hf).
      rewrite read_cr.
      rewrite (process_line_end _ fs Csv.IN_FIELD) by auto.
      cbn [Csv.is_start_record Csv.st Csv.fields].
      rewrite read_lf_pending.
      rewrite app_nil_l, app_cons, app_nil_l. reflexivity.
Qed.

Lemma writerow_three (a b c : string) :
  Csv.writerow [a; b; c] =
    Csv.field_text a +:+ String Py.COMMA
      (Csv.field_text b +:+ String Py.COMMA (Csv.field_text c +:+ Csv.lineterminator)).
Proof.
  unfold Csv.writerow. cbn [Csv.join].
  destruct (Csv.field_text a) as [| x fa] eqn:Ha.
  - rewrite !app_nil_l, !app_cons, !app_assoc, !app_cons. reflexivity.
  - rewrite !app_cons, !app_assoc, !app_cons, !app_assoc, !app_cons. reflexivity.
Qed.

(** A written row of three cells is read back as one record, each cell
    with its newlines translated. *)
Lemma read_row (a b c rest : string) :
  read_csv_text false false Csv.parse_reset (Csv.writerow [a; b; c] +:+ rest) =
    (rows <- read_csv_text false false Csv.parse_reset rest ;;
     Py.Ok ([as_read a; as_read b; as_read c] :: rows)).
Proof.
  rewrite writerow_three. unfold Csv.parse_reset.
  rewrite !app_assoc, app_cons.
  rewrite read_field_comma by auto.
  rewrite !app_assoc, app_cons.
  rewrite read_field_comma by auto.
  rewrite !app_assoc.
  rewrite read_field_crlf. reflexivity.
Qed.

(** [str] of an integer has no special character. *)
Lemma pretty_N_go_plain (x : N) (s : string) :
  Csv.has_special (pretty_N_go x s) = Csv.has_special s.
Proof.
  revert s. induction (N.lt_wf_0 x) as [x _ IH]; intros s.
  destruct (decide (x = 0)%N) as [-> | Hx]; [reflexivity |].
  rewrite pretty_N_go_step by lia.
  rewrite IH by (apply N.div_lt; lia).
  simpl. replace (Csv.special (pretty_N_char (x `mod` 10))) with false; [reflexivity |].
  unfold pretty_N_char. repeat case_match; reflexivity.
Qed.

Lemma str_plain (k : Z) : Csv.has_special (Py.str k) = false.
Proof.
  assert (Hp : forall p : positive, Csv.has_special (pretty p) = false).
  { intros p. unfold pretty, pretty_positive, pretty, pretty_N.
    case_decide; [reflexivity |]. apply pretty_N_go_plain. }
  unfold Py.str, pretty, pretty_Z. destruct k as [| p | p].
  - reflexivity.
  - apply Hp.
  - rewrite app_cons, app_nil_l. simpl. apply Hp.
Qed.

Section RoundTrip.

Variable self : Settings.
Variable int : string -> option Z.

Lemma read_rows_text (l : list (string * Z)) :
  read_csv_text false false Csv.parse_reset (rows_text self l)
    = Py.Ok (row_as_read self <$> l).
Proof.
  induction l as [| e l IH]; [reflexivity |].
  cbn [rows_text]. unfold row_text. rewrite read_row, IH. reflexivity.
Qed.

Lemma store_records_store_text (m : gmap (option string) Z) :
  store_records (store_text self m) = header :: (row_as_read self <$> entries m).
Proof.
  unfold store_records. rewrite reader_read_csv_text.
  unfold store_text, header. rewrite read_row, read_rows_text. reflexivity.
Qed.

Lemma row_entry_header (a b c : string) :
  row_entry int header [a; b; c] =
    match int b with
    | Some n => Py.Ok (Some a, n)
    | None => Py.Raise (Py.ValueError
                ("invalid literal for int() with base 10: "
                 +:+ Utf8.prefix 200 (repr b)))
    end.
Proof. reflexivity. Qed.

Lemma row_entries_as_read (l : list (string * Z)) :
  Forall (fun e => int (Py.str (snd e)) = Some (snd e)) l ->
  row_entries int header (row_as_read self <$> l)
    = Py.Ok ((fun e => (Some (as_read (fst e)), snd e)) <$> l).
Proof.
  induction 1 as [| e l He _ IH]; [reflexivity |].
  cbn [fmap list_fmap row_entries]. unfold row_as_read at 1.
  rewrite row_entry_header.
  unfold as_read at 1. rewrite (as_read_plain _ false (str_plain _)), He.
  rewrite bind_ok. cbv beta. fold (row_as_read self).
  change (list_fmap _ _ (row_as_read self) l) with (row_as_read self <$> l).
  rewrite IH. reflexivity.
Qed.

Lemma filter_not_blank (l : list (string * Z)) :
  filter (fun r => Csv.is_blank r = false) (row_as_read self <$> l)
    = row_as_read self <$> l.
Proof.
  induction l as [| e l IH]; [reflexivity |].
  cbn [fmap list_fmap]. rewrite filter_cons.
  destruct (decide _) as [_ | Hn]; [| exfalso; apply Hn; reflexivity].
  f_equal. exact IH.
Qed.

End RoundTrip.

Lemma last_value_None (l : list (string * Z)) :
  last_value None ((fun e => (Some (fst e), snd e)) <$> l) = None.
Proof.
  induction l as [| [g w] l IH]; [reflexivity |].
  cbn. rewrite IH. destruct (decide (Some g = None)); [discriminate | reflexivity].
Qed.

Lemma last_value_Some_elem (l : list (string * Z)) (f : string) (v : Z) :
  last_value (Some f) ((fun e => (Some (fst e), snd e)) <$> l) = Some v -> (f, v) ∈ l.
Proof.
  induction l as [| [g w] l IH]; [discriminate |].
  cbn. destruct (last_value (Some f) _) as [v' |].
  - intros [= ->]. right. apply IH. reflexivity.
  - destruct (decide (Some g = Some f)) as [[= ->] |]; [| discriminate].
    intros [= ->]. left.
Qed.

Lemma last_value_None_notin (l : list (string * Z)) (f : string) (v : Z) :
  last_value (Some f) ((fun e => (Some (fst e), snd e)) <$> l) = None -> (f, v) ∉ l.
Proof.
  induction l as [| [g w] l IH]; [intros _ H; inversion H |].
  cbn. destruct (last_value (Some f) _) as [v' |]; [discriminate |].
  destruct (decide (Some g = Some f)) as [| Hne]; [discriminate |].
  intros _ Hin. apply elem_of_cons in Hin as [[= -> ->] | Hin]; [congruence |].
  exact (IH eq_refl Hin).
Qed.

Lemma foldl_insert_entries (m : gmap (option string) Z) :
  filenames_only m ->
  foldl (fun acc e => <[fst e := snd e]> acc) ∅
        ((fun e => (Some (fst e), snd e)) <$> entries m) = m.
Proof.
  intros Hn. apply map_eq. intros k. rewrite lookup_foldl_insert.
  destruct k as [f |].
  - destruct (last_value (Some f) _) as [v |] eqn:Hl.
    + apply last_value_Some_elem, elem_of_entries in Hl. congruence.
    + rewrite lookup_empty. symmetry.
      destruct (m !! Some f) as [v |] eqn:Hm; [| reflexivity].
      apply elem_of_entries in Hm.
      exfalso. exact (last_value_None_notin _ _ v Hl Hm).
  - rewrite last_value_None, lookup_empty. symmetry. exact Hn.
Qed.

Lemma save_store_by_annotations (self : Settings) (s1 s2 : State) :
  annotations s1 = annotations s2 ->
  store (state_of (save_annotations self s1)) = store (state_of (save_annotations self s2)).
Proof.
  intros H. unfold save_annotations. rewrite H.
  destruct (sorted_items (annotations s2)) as [items |]; [| reflexivity].
  destruct (write_items self items _) as [[e |] f']; reflexivity.
Qed.

(** Saving twice with nothing in between writes the same bytes, whether
    saving returns or raises. *)
Lemma save_annotations_idempotent (self : Settings) (s : State) :
  store (state_of (save_annotations self (state_of (save_annotations self s))))
    = store (state_of (save_annotations self s)).
Proof.
  apply save_store_by_annotations. apply save_annotations_frame.
Qed.

Section RoundTripTheorem.

Variable self : Settings.
Variable int : string -> option Z.

Lemma rows_text_valid (l : list (string * Z)) :
  Forall (fun e => Utf8.valid (row_text self e) = true) l ->
  Utf8.valid (rows_text self l) = true.
Proof.
  induction 1 as [| e l He _ IH]; [reflexivity |].
  cbn [rows_text]. apply valid_app; assumption.
Qed.

(** The store written for a map of resolvable class indices, with file
    names and class names that UTF-8 encodes, is UTF-8. *)
Lemma store_text_valid (m : gmap (option string) Z) :
  encodable self m ->
  (forall f k, m !! Some f = Some k -> resolvable self k = true) ->
  Utf8.valid (store_text self m) = true.
Proof.
  intros [Hc Hm] Hr. unfold store_text.
  apply valid_app; [vm_compute; reflexivity |].
  apply rows_text_valid, Forall_forall. intros [f k] Hin.
  apply elem_of_entries in Hin.
  apply (row_text_valid self f k Hc); eauto.
Qed.

Lemma load_store_text (m : gmap (option string) Z) (s : State) :
  filenames_only m ->
  (forall f k, m !! Some f = Some k -> no_cr f = true /\ int (Py.str k) = Some k) ->
  Utf8.valid (store_text self m) = true ->
  store s = Some (store_text self m) ->
  annotations s = ∅ ->
  load_previous_annotations int s = Returned (set_annotations m s).
Proof.
  intros Hn Hm Hv Hs Ha. unfold load_previous_annotations.
  rewrite Hs, (read_fault_valid _ Hv), reader_total, store_records_store_text.
  cbn [Csv.dict_rows]. rewrite filter_not_blank.
  assert (Hes : row_entries int header (row_as_read self <$> entries m)
                = Py.Ok ((fun e => (Some (fst e), snd e)) <$> entries m)).
  { rewrite row_entries_as_read.
    - f_equal. apply list_fmap_ext. intros i [f k] Hi. simpl.
      apply list_elem_of_lookup_2, elem_of_entries in Hi.
      rewrite (as_read_no_cr f); [reflexivity |]. apply (Hm f k Hi).
    - apply Forall_forall. intros [f k] Hin.
      apply elem_of_entries in Hin. apply (Hm f k Hin). }
  rewrite (load_rows_spec int _ _ _ s Hes), Ha, (foldl_insert_entries m Hn).
  reflexivity.
Qed.


End RoundTripTheorem.

(** C3, at the failing input: one annotation, for a file whose name holds
    a carriage return.  Saving writes the name quoted, with its carriage
    return; the store is then read with universal newlines, so start-up
    finds the name with a line feed instead: the map differs, and saving
    it writes different bytes. *)
Theorem save_load_save_differs (int : string -> option Z) :
  int "0" = Some 0 ->
  save_annotations settings_100_500 (holding settings_100_500 cr_map)
    = Returned (set_store (Some (store_text settings_100_500 cr_map))
                  (holding settings_100_500 cr_map)) /\
  annotations (state_of (init settings_100_500 int
                           (Some (store_text settings_100_500 cr_map)))) = lf_map /\
  lf_map <> cr_map /\
  store (state_of (save_annotations settings_100_500
                     (state_of (init settings_100_500 int
                                  (Some (store_text settings_100_500 cr_map))))))
    = Some (store_text settings_100_500 lf_map) /\
  store_text settings_100_500 lf_map <> store_text settings_100_500 cr_map.
Proof.
  intros H0.
  assert (Hload : annotations (state_of (init settings_100_500 int
                    (Some (store_text settings_100_500 cr_map)))) = lf_map).
  { unfold init, load_previous_annotations.
    cbn [store fresh].
    rewrite (read_fault_valid (store_text settings_100_500 cr_map))
      by (vm_compute; reflexivity).
    rewrite reader_total.
    replace (store_records (store_text settings_100_500 cr_map))
      with [header; [lf_name; "0"; "ice"]] by (vm_compute; reflexivity).
    cbn [Csv.dict_rows]. rewrite filter_cons.
    destruct (decide _) as [_ | Hn]; [| exfalso; apply Hn; reflexivity].
    rewrite filter_nil. cbn [load_rows]. rewrite row_entry_header, H0.
    reflexivity. }
  split; [vm_compute; reflexivity |].
  split; [exact Hload |].
  split.
  { intros H. assert (Hl : lf_map !! Some cr_name = cr_map !! Some cr_name) by (rewrite H; reflexivity).
    vm_compute in Hl. discriminate. }
  split.
  { erewrite save_store_by_annotations with (s2 := holding settings_100_500 lf_map);
      [vm_compute; reflexivity |].
    rewrite Hload. reflexivity. }
  vm_compute. discriminate.
Qed.

Lemma save_load_save_differs_witness :
  save_annotations settings_100_500 (holding settings_100_500 cr_map)
    = Returned (set_store (Some (store_text settings_100_500 cr_map))
                  (holding settings_100_500 cr_map)) /\
  annotations (state_of (init settings_100_500 int_digit
                           (Some (store_text settings_100_500 cr_map)))) = lf_map /\
  lf_map <> cr_map /\
  store (state_of (save_annotations settings_100_500
                     (state_of (init settings_100_500 int_digit
                                  (Some (store_text settings_100_500 cr_map))))))
    = Some (store_text settings_100_500 lf_map) /\
  store_text settings_100_500 lf_map <> store_text settings_100_500 cr_map.
Proof.
  apply (save_load_save_differs int_digit). reflexivity.
Defined.

(** ** What a saved store holds *)

Lemma NoDup_fst_omap_str_item (l : list (option string * Z)) :
  NoDup l.*1 -> NoDup (omap str_item l).*1.
Proof.
  induction l as [| [k v] l IH]; [constructor |].
  rewrite fmap_cons, NoDup_cons. intros [Hk Hl]. specialize (IH Hl).
  destruct k as [f |]; [| exact IH].
  cbn. rewrite NoDup_cons. split; [| exact IH].
  intros Hin. apply Hk.
  apply list_elem_of_fmap in Hin as ([g w] & -> & Hin).
  apply list_elem_of_omap in Hin as ([[g' |] w'] & Hin & Hs); [| discriminate].
  injection Hs as -> ->.
  apply list_elem_of_fmap. exists (Some g, w). split; [reflexivity | exact Hin].
Qed.

Lemma NoDup_fst_entries (m : gmap (option string) Z) : NoDup (entries m).*1.
Proof.
  rewrite entries_Permutation.
  apply NoDup_fst_omap_str_item, NoDup_fst_map_to_list.
Qed.

Lemma length_entries (m : gmap (option string) Z) :
  filenames_only m -> length (entries m) = size m.
Proof.
  intros Hn. rewrite entries_Permutation.
  assert (H : mapM str_item (map_to_list m) = Some (omap str_item (map_to_list m))).
  { apply mapM_str_item, Forall_forall. intros [k v] Hin Hk. simpl in Hk. subst k.
    apply elem_of_map_to_list in Hin. unfold filenames_only in Hn. congruence. }
  apply length_mapM in H. rewrite <- H. apply length_map_to_list.
Qed.

Lemma entries_filename_lt (m : gmap (option string) Z) :
  StronglySorted filename_lt (entries m).
Proof.
  pose proof (entries_Sorted m) as Hs. pose proof (NoDup_fst_entries m) as Hd.
  induction Hs as [| x l Hs IH Hx]; [constructor |].
  rewrite fmap_cons, NoDup_cons in Hd. destruct Hd as [Hx' Hd].
  constructor; [exact (IH Hd) |].
  rewrite Forall_forall in Hx |- *. intros y Hy.
  specialize (Hx y Hy). unfold item_le, item_leb, filename_lt in *.
  destruct (str_compare (fst x) (fst y)) eqn:Hc; [| reflexivity | discriminate].
  apply str_compare_eq in Hc. exfalso. apply Hx'.
  rewrite Hc. apply list_elem_of_fmap. exists y. split; [reflexivity | exact Hy].
Qed.

Section SavedRows.

Variable self : Settings.

(** X3.  What [save_annotations] writes for a map keyed by filenames
    whose class indices resolve, with file names and class names that
    UTF-8 encodes: the header row, then exactly one row per entry of the
    map, in strictly increasing order of filename (the order of code
    points), each with the class name the class list gives for its index
    at that moment. *)
Theorem save_writes_sorted_rows (s : State) :
  filenames_only (annotations s) -> encodable self (annotations s) ->
  (forall f k, annotations s !! Some f = Some k -> resolvable self k = true) ->
  save_annotations self s =
    Returned (set_store
      (Some (Csv.writerow header +:+ rows_text self (entries (annotations s)))) s) /\
  StronglySorted filename_lt (entries (annotations s)) /\
  length (entries (annotations s)) = size (annotations s) /\
  (forall f k, (f, k) ∈ entries (annotations s) <-> annotations s !! Some f = Some k) /\
  (forall f k, (f, k) ∈ entries (annotations s) ->
     Py.index (classes self) k = Py.Ok (class_name_of self k) /\
     row_text self (f, k) = Csv.writerow [f; Py.str k; class_name_of self k]).
Proof.
  intros Hn He Hall.
  split; [exact (save_annotations_resolvable self s Hn He Hall) |].
  split; [apply entries_filename_lt |].
  split; [apply length_entries; exact Hn |].
  split; [intros f k; apply elem_of_entries |].
  intros f k Hin. apply elem_of_entries in Hin.
  split; [apply index_resolvable; eauto | reflexivity].
Qed.

End SavedRows.

Lemma one_label_ok (f : string) (k : Z) :
  one_label !! Some f = Some k ->
  resolvable settings_100_500 k = true /\ no_cr f = true /\
  int_digit (Py.str k) = Some k.
Proof.
  unfold one_label. intros H.
  apply lookup_singleton_Some in H as [[= <-] <-].
  repeat split; vm_compute; reflexivity.
Qed.

Lemma one_label_encodable : encodable settings_100_500 one_label.
Proof.
  apply one_name_encodable; [repeat constructor |]; vm_compute; reflexivity.
Qed.

Lemma save_writes_sorted_rows_witness :
  save_annotations settings_100_500 (holding settings_100_500 one_label) =
    Returned (set_store
      (Some (Csv.writerow header
             +:+ rows_text settings_100_500
                   (entries (annotations (holding settings_100_500 one_label)))))
      (holding settings_100_500 one_label)) /\
  StronglySorted filename_lt (entries (annotations (holding settings_100_500 one_label))) /\
  length (entries (annotations (holding settings_100_500 one_label)))
    = size (annotations (holding settings_100_500 one_label)) /\
  (forall f k, (f, k) ∈ entries (annotations (holding settings_100_500 one_label)) <->
               annotations (holding settings_100_500 one_label) !! Some f = Some k) /\
  (forall f k, (f, k) ∈ entries (annotations (holding settings_100_500 one_label)) ->
     Py.index (classes settings_100_500) k = Py.Ok (class_name_of settings_100_500 k) /\
     row_text settings_100_500 (f, k)
       = Csv.writerow [f; Py.str k; class_name_of settings_100_500 k]).
Proof.
  apply (save_writes_sorted_rows settings_100_500 (holding settings_100_500 one_label)).
  - reflexivity.
  - exact one_label_encodable.
  - intros f k H. apply (one_label_ok f k H).
Defined.


(** ** Statistics (update_statistics) *)

Lemma total_cons (c : Z) (counts : list Z) : total (c :: counts) = c + total counts.
Proof. reflexivity. Qed.

Lemma total_alter (counts : list Z) (i : nat) :
  (i < length counts)%nat ->
  total (alter (fun count => count + 1) i counts) = total counts + 1.
Proof.
  revert i. induction counts as [| c counts IH]; intros i Hi; simpl in Hi; [lia |].
  destruct i as [| i].
  - change (alter (fun count => count + 1) 0%nat (c :: counts)) with ((c + 1) :: counts).
    rewrite !total_cons. lia.
  - change (alter (fun count => count + 1) (S i) (c :: counts))
      with (c :: alter (fun count => count + 1) i counts).
    rewrite !total_cons, IH by lia. lia.
Qed.

Lemma total_replicate (n : nat) : total (replicate n 0) = 0.
Proof.
  induction n as [| n IH]; [reflexivity |].
  change (replicate (S n) 0) with (0 :: replicate n 0). rewrite total_cons. lia.
Qed.

Lemma count_class_length (self : Settings) (counts : list Z) (v : Z) :
  length (count_class self counts v) = length counts.
Proof.
  unfold count_class. destruct (_ && _); [apply length_alter | reflexivity].
Qed.

Lemma occurrences_cons (v x : Z) (values : list Z) :
  occurrences v (x :: values)
  = (if decide (x = v) then 1 else 0) + occurrences v values.
Proof.
  unfold occurrences, Py.len. rewrite filter_cons.
  destruct (decide (x = v)); [rewrite length_cons |]; lia.
Qed.

Lemma in_range_cons (self : Settings) (x : Z) (values : list Z) :
  in_range self (x :: values)
  = (if (0 <=? x) && (x <? Py.len (classes self)) then 1 else 0)
    + in_range self values.
Proof.
  unfold in_range, Py.len. rewrite filter_cons.
  destruct (decide (0 <= x < Z.of_nat (length (classes self)))) as [H | H];
    [rewrite length_cons |];
    destruct (Z.leb_spec 0 x);
    destruct (Z.ltb_spec x (Z.of_nat (length (classes self)))); simpl; lia.
Qed.

Lemma foldl_count_class (self : Settings) (values : list Z) (counts : list Z) :
  length counts = length (classes self) ->
  length (foldl (count_class self) counts values) = length (classes self) /\
  (forall i, (i < length (classes self))%nat ->
     foldl (count_class self) counts values !! i
     = (fun c => c + occurrences (Z.of_nat i) values) <$> counts !! i) /\
  total (foldl (count_class self) counts values)
  = total counts + in_range self values.
Proof.
  revert counts. induction values as [| v values IH]; intros counts Hlen; simpl.
  - split; [assumption |]. split.
    + intros i Hi. unfold occurrences, Py.len. simpl.
      destruct (counts !! i); simpl; [f_equal; lia | reflexivity].
    + unfold in_range, Py.len. simpl. lia.
  - destruct (IH (count_class self counts v)) as (IH1 & IH2 & IH3).
    { rewrite count_class_length. assumption. }
    split; [assumption |]. split.
    + intros i Hi. rewrite (IH2 i Hi), occurrences_cons. unfold count_class.
      destruct ((0 <=? v) && (v <? Py.len (classes self))) eqn:Hv.
      * apply andb_prop in Hv as [H0 H1].
        apply Z.leb_le in H0. apply Z.ltb_lt in H1.
        rewrite list_lookup_alter.
        destruct (decide (Z.to_nat v = i)) as [<- | Hne].
        -- rewrite decide_True by lia.
           destruct (counts !! Z.to_nat v); simpl; [f_equal; lia | reflexivity].
        -- rewrite decide_False by lia.
           destruct (counts !! i); simpl; [f_equal; lia | reflexivity].
      * rewrite decide_False.
        -- destruct (counts !! i); simpl; [f_equal; lia | reflexivity].
        -- intros ->. unfold Py.len in Hv.
           destruct (Z.leb_spec 0 (Z.of_nat i)); [| lia].
           destruct (Z.ltb_spec (Z.of_nat i) (Z.of_nat (length (classes self))));
             [discriminate | lia].
    + rewrite IH3, in_range_cons. unfold count_class.
      destruct ((0 <=? v) && (v <? Py.len (classes self))) eqn:Hv; [| lia].
      apply andb_prop in Hv as [H0 H1].
      apply Z.leb_le in H0. apply Z.ltb_lt in H1. unfold Py.len in H1.
      rewrite total_alter by lia. lia.
Qed.

Lemma occurrences_Permutation (v : Z) (l k : list Z) :
  l ≡ₚ k -> occurrences v l = occurrences v k.
Proof. intros H. unfold occurrences, Py.len. rewrite H. reflexivity. Qed.

Lemma occurrences_entries (v : Z) (l : list (option string * Z)) :
  occurrences v l.*2 = Py.len (filter (fun kv => snd kv = v) l).
Proof.
  unfold occurrences, Py.len. f_equal. f_equal.
  induction l as [| [k x] l IH]; [reflexivity |].
  rewrite fmap_cons, !filter_cons. simpl.
  destruct (decide (x = v)); simpl; lia.
Qed.

(** X4.  The loop of [update_statistics] leaves, for each class, the number
    of annotations that carry its index, whatever the order in which the
    map yields its values; a value outside [0, len(classes)), a negative
    one included, is counted nowhere, so the counts add up to the number of
    annotations in range; label [i] then reads the class name, a colon and
    that count. *)
Theorem update_statistics_counts (self : Settings) (s : State) (values : list Z) :
  values ≡ₚ (map_to_list (annotations s)).*2 ->
  length (tally self values) = length (classes self) /\
  (forall i, (i < length (classes self))%nat ->
     tally self values !! i = Some (occurrences (Z.of_nat i) values)) /\
  total (tally self values) = in_range self values /\
  stats_labels (update_statistics self s)
  = zip_with (fun name count => name +:+ ": " +:+ Py.str count)
      (classes self) (tally self values).
Proof.
  intros Hperm. unfold tally.
  destruct (foldl_count_class self values (replicate (length (classes self)) 0))
    as (Hlen & Hlook & Htotal); [apply length_replicate |].
  assert (forall i, (i < length (classes self))%nat ->
            foldl (count_class self) (replicate (length (classes self)) 0) values !! i
            = Some (occurrences (Z.of_nat i) values)) as Hlook'.
  { intros i Hi. rewrite (Hlook i Hi), lookup_replicate_2 by assumption. reflexivity. }
  split; [assumption |]. split; [assumption |]. split.
  { rewrite Htotal, total_replicate. lia. }
  unfold update_statistics. cbn [stats_labels set_stats_labels]. f_equal.
  apply list_eq. intros i. unfold class_counts.
  destruct (decide (i < length (classes self))%nat) as [Hi | Hi].
  - rewrite (Hlook' i Hi), list_lookup_fmap, lookup_seq_lt by assumption. simpl.
    rewrite (occurrences_Permutation _ _ _ Hperm), occurrences_entries. reflexivity.
  - rewrite !lookup_ge_None_2; [reflexivity | rewrite Hlen; lia |].
    rewrite length_fmap, length_seq. lia.
Qed.

Lemma update_statistics_counts_witness :
  length (tally settings_100_500 [0]) = length (classes settings_100_500) /\
  (forall i, (i < length (classes settings_100_500))%nat ->
     tally settings_100_500 [0] !! i = Some (occurrences (Z.of_nat i) [0])) /\
  total (tally settings_100_500 [0]) = in_range settings_100_500 [0] /\
  stats_labels (update_statistics settings_100_500 (holding settings_100_500 one_label))
  = zip_with (fun name count => name +:+ ": " +:+ Py.str count)
      (classes settings_100_500) (tally settings_100_500 [0]).
Proof.
  apply (update_statistics_counts settings_100_500 (holding settings_100_500 one_label) [0]).
  vm_compute. reflexivity.
Defined.

(** ** The image list (load_images) *)

Lemma substring_skip (p t : string) (k : nat) :
  String.substring (String.length p) k (p +:+ t) = String.substring 0 k t.
Proof. induction p as [| c p IH]; [reflexivity | exact IH]. Qed.

Lemma substring_all (t : string) : String.substring 0 (String.length t) t = t.
Proof. induction t as [| c t IH]; [reflexivity |]. simpl. rewrite IH. reflexivity. Qed.

Lemma substring_split (s : string) (i : nat) :
  (i <= String.length s)%nat ->
  s = String.substring 0 i s +:+ String.substring i (String.length s - i) s.
Proof.
  revert i. induction s as [| c s IH]; intros i Hi; simpl in Hi.
  - destruct i; [reflexivity | lia].
  - destruct i as [| i].
    + simpl. rewrite substring_all. reflexivity.
    + simpl. rewrite app_cons. f_equal. apply IH. lia.
Qed.

Lemma length_app (s t : string) :
  String.length (s +:+ t) = (String.length s + String.length t)%nat.
Proof. induction s as [| c s IH]; [reflexivity |]. simpl. rewrite IH. reflexivity. Qed.

(** [s.endswith(suffix)] holds exactly when [s] is something followed by
    [suffix]. *)
Lemma endswith_spec (s suffix : string) :
  endswith s suffix = true <-> exists stem, s = stem +:+ suffix.
Proof.
  unfold endswith. split.
  - intros H. apply andb_prop in H as [Hk Heq].
    apply Nat.leb_le in Hk. apply String.eqb_eq in Heq.
    exists (String.substring 0 (String.length s - String.length suffix) s).
    set (k := String.length suffix) in *. rewrite <- Heq.
    etransitivity; [apply (substring_split s (String.length s - k)); lia |].
    do 2 f_equal. lia.
  - intros [stem ->]. rewrite length_app.
    apply andb_true_intro. split; [apply Nat.leb_le; lia |].
    apply String.eqb_eq.
    replace (String.length stem + String.length suffix - String.length suffix)%nat
      with (String.length stem) by lia.
    rewrite substring_skip. apply substring_all.
Qed.

Lemma lower_ascii_idemp (c : ascii) : lower_ascii (lower_ascii c) = lower_ascii c.
Proof.
  unfold lower_ascii.
  destruct ((65 <=? N_of_ascii c)%N && (N_of_ascii c <=? 90)%N) eqn:Hc.
  - apply andb_prop in Hc as [H1 H2].
    apply N.leb_le in H1. apply N.leb_le in H2.
    rewrite N_ascii_embedding by lia.
    destruct (N.leb_spec (N_of_ascii c + 32) 90); [lia |].
    rewrite andb_false_r. reflexivity.
  - rewrite Hc. reflexivity.
Qed.

Lemma lower_idemp (f : string) : lower (lower f) = lower f.
Proof.
  induction f as [| c f IH]; [reflexivity |].
  simpl. rewrite lower_ascii_idemp, IH. reflexivity.
Qed.

Lemma length_lower (f : string) : String.length (lower f) = String.length f.
Proof. induction f as [| c f IH]; [reflexivity |]. simpl. rewrite IH. reflexivity. Qed.

(** X5.  A name is kept by [load_images] exactly when its lower-cased form
    is some stem followed by one of the six extensions.  So the case of the
    letters does not matter, and a name shorter than four characters is
    never an image. *)
Theorem is_image_name_spec (f : string) :
  (is_image_name f = true <->
   exists stem ext, ext ∈ extensions /\ lower f = stem +:+ ext) /\
  (forall g, lower g = lower f -> is_image_name g = is_image_name f) /\
  is_image_name (lower f) = is_image_name f /\
  (is_image_name f = true -> (4 <= String.length f)%nat).
Proof.
  assert (Hspec : forall g, is_image_name g = true <->
            exists stem ext, ext ∈ extensions /\ lower g = stem +:+ ext).
  { intros g. unfold is_image_name. rewrite existsb_exists. split.
    - intros (ext & Hin & He). apply endswith_spec in He as [stem Hs].
      exists stem, ext. split; [apply list_elem_of_In; exact Hin | exact Hs].
    - intros (stem & ext & Hin & Hs). exists ext.
      split; [apply list_elem_of_In; exact Hin |].
      apply endswith_spec. exists stem. exact Hs. }
  split; [apply Hspec |].
  split; [intros g Hg; unfold is_image_name; rewrite Hg; reflexivity |].
  split; [unfold is_image_name; rewrite lower_idemp; reflexivity |].
  intros H. apply Hspec in H as (stem & ext & Hin & Hs).
  rewrite <- (length_lower f), Hs, length_app.
  unfold extensions in Hin.
  repeat (apply elem_of_cons in Hin as [-> | Hin]; [simpl; lia |]).
  apply elem_of_nil in Hin. contradiction.
Qed.

Section ImageList.

Variable self : Settings.
Variable open_image : string -> string -> Py.result Image.t.

(** X6.  After a folder was chosen, the image list holds the names of the
    listing with a recognised extension, each as often as the listing has
    it, in ascending order of code points, the order of [list.sort()] on
    strings (a byte of a name that is not UTF-8 counts as the lone
    surrogate that stands for it); nothing else. *)
Theorem load_images_sorted (listing : list string) (s : State) (c : ascii)
    (folder : string) :
  StronglySorted str_le
    (images (state_of (select_folder self open_image (String c folder) listing s))) /\
  images (state_of (select_folder self open_image (String c folder) listing s))
    ≡ₚ filter (fun f => is_image_name f = true) listing /\
  (forall f,
     f ∈ images (state_of (select_folder self open_image (String c folder) listing s))
     <-> f ∈ listing /\ is_image_name f = true) /\
  images (state_of (load_images self open_image listing s))
    = images (state_of (select_folder self open_image (String c folder) listing s)) /\
  image_folder (state_of (select_folder self open_image (String c folder) listing s))
    = String c folder.
Proof.
  unfold select_folder.
  pose proof (load_images_spec self open_image listing (set_image_folder (String c folder) s))
    as (Himg & _).
  pose proof (load_images_spec self open_image listing s) as (Himg' & _).
  cbv zeta in Himg, Himg'. rewrite Himg, Himg'.
  split; [apply StronglySorted_merge_sort; apply _ |].
  split; [apply merge_sort_Permutation |].
  split.
  { intros f. rewrite merge_sort_Permutation, list_elem_of_filter. tauto. }
  split; [reflexivity |].
  unfold load_images. cbn [images set_images].
  destruct (merge_sort str_le _) as [| i0 l].
  - reflexivity.
  - match goal with |- context [display_image self open_image ?t] =>
      pose proof (display_image_frame self open_image t) as (H1 & _) end.
    rewrite H1. reflexivity.
Qed.

End ImageList.

(** ** A preview bound that is not positive *)

Lemma index_nil {A} (i : Z) :
  Py.index (@nil A) i = Py.Raise (Py.IndexError "list index out of range").
Proof.
  unfold Py.index. cbv zeta. rewrite lookup_nil.
  destruct (_ && _); reflexivity.
Qed.

Lemma resize_below_1 (w h x y : Z) :
  (x, y) <> (w, h) -> x < 1 \/ y < 1 ->
  exists e, Pillow.resize (w, h) (x, y) = Py.Raise e.
Proof.
  intros Hne Hlt. unfold Pillow.resize.
  destruct (decide ((x, y) = (w, h))); [contradiction |]. cbn [fst snd].
  destruct (Z.ltb_spec x 1); destruct (Z.ltb_spec y 1); simpl; eauto; lia.
Qed.

Lemma thumbnail_nonpositive (w h b : Z) :
  0 < w -> 0 < h -> b <= 0 -> exists e, Pillow.thumbnail w h b b = Py.Raise e.
Proof.
  intros Hw Hh Hb. unfold Pillow.thumbnail, Pillow.preserve_aspect_ratio.
  destruct (Z.leb_spec w b); [lia |]. cbn [andb].
  destruct (Float.truediv w h) as [aspect | e]; [| cbn; eauto].
  destruct (Float.truediv b b) as [ratio | e]; [| cbn; eauto].
  cbn [Py.bind].
  destruct (Float.leb aspect ratio).
  - destruct (Pillow.round_aspect _ _) as [x' | e]; [| cbn; eauto].
    cbn [Py.bind]. apply resize_below_1; [intros [= _ ->]; lia | lia].
  - destruct (Float.div _ _) as [number | e]; [| cbn; eauto].
    cbn [Py.bind].
    destruct (Pillow.round_aspect _ _) as [y' | e]; [| cbn; eauto].
    cbn [Py.bind]. apply resize_below_1; [intros [= -> _]; lia | lia].
Qed.

(** X7.  With a preview bound that is zero or negative, which [load_config]
    accepts, no preview is ever computed: for every image of positive
    dimensions the computation of the preview size raises.  [display_image]
    returns, having put the text for a large image in the left pane and
    added one error dialog, "Cannot load image: " followed by the text of
    the exception, to those shown so far; the exception is the one of the
    preview computation, unless copying the image failed before it.  The
    preview, the filename and progress labels, the selection, the cursor,
    the annotations and the store stay as they were. *)
Theorem nonpositive_bound_never_previews (self : Settings)
    (open_image : string -> string -> Py.result Image.t)
    (s : State) (name : string) (img : Image.t) (w h : Z) :
  resized_image_size self <= 0 -> Image.size img = (w, h) -> 0 < w -> 0 < h ->
  Py.index (images s) (current_index s) = Py.Ok name ->
  open_image (image_folder s) name = Py.Ok img ->
  (exists e, decide_preview self w h = Py.Raise e) /\
  exists e s',
    right_pane self img = Py.Raise e /\
    (Image.copy img = None -> decide_preview self w h = Py.Raise e) /\
    display_image self open_image s = Returned s' /\
    dialogs s'
      = (dialogs s ++ [ShowError "Error" ("Cannot load image: " +:+ str_exn e)])%list /\
    original_display s' = ShowMessage (too_large_message w h) /\
    resized_image_label s' = resized_image_label s /\
    filename_label s' = filename_label s /\
    progress_label s' = progress_label s /\
    selected_class s' = selected_class s /\
    same_session s s'.
Proof.
  intros Hb Hsize Hw Hh Hname Hopen.
  assert (exists e, decide_preview self w h = Py.Raise e) as [e He].
  { unfold decide_preview.
    destruct (Z.ltb_spec (Z.max w h) (resized_image_size self)); [lia |].
    destruct (Z.gtb_spec (Z.max w h) (resized_image_size self)); [| lia].
    apply thumbnail_nonpositive; assumption. }
  split; [eauto |].
  assert (Hleft : left_pane self img = Py.Ok (ShowMessage (too_large_message w h))).
  { unfold left_pane, decide_original_display. rewrite Hsize.
    destruct (Z.leb_spec (Z.max w h) (resized_image_size self)); [lia | reflexivity]. }
  assert (Hright : exists e', right_pane self img = Py.Raise e' /\
                     (Image.copy img = None -> e' = e)).
  { unfold right_pane. rewrite Hsize.
    destruct (Image.copy img) as [e' |]; cbn [Py.check Py.bind].
    - exists e'. split; [reflexivity | discriminate].
    - rewrite He. exists e. split; [reflexivity | reflexivity]. }
  destruct Hright as (e' & Hright & He').
  exists e'. eexists. split; [exact Hright |].
  split; [intros Hc; rewrite (He' Hc); exact He |].
  split.
  { unfold display_image.
    destruct (images s) as [| i0 l] eqn:Hi; [rewrite index_nil in Hname; discriminate |].
    rewrite Hname, Hopen, Hleft, Hright. reflexivity. }
  unfold same_session. simpl. repeat split; reflexivity.
Qed.

Lemma nonpositive_bound_never_previews_witness :
  (exists e, decide_preview settings_bound_0 3 2 = Py.Raise e) /\
  exists e s',
    right_pane settings_bound_0 (sound_image 3 2) = Py.Raise e /\
    (Image.copy (sound_image 3 2) = None ->
     decide_preview settings_bound_0 3 2 = Py.Raise e) /\
    display_image settings_bound_0 opens_3_2
      (set_images ["a.png"] (fresh settings_bound_0 None)) = Returned s' /\
    dialogs s'
      = (dialogs (set_images ["a.png"] (fresh settings_bound_0 None))
         ++ [ShowError "Error" ("Cannot load image: " +:+ str_exn e)])%list /\
    original_display s' = ShowMessage (too_large_message 3 2) /\
    resized_image_label s'
      = resized_image_label (set_images ["a.png"] (fresh settings_bound_0 None)) /\
    filename_label s'
      = filename_label (set_images ["a.png"] (fresh settings_bound_0 None)) /\
    progress_label s'
      = progress_label (set_images ["a.png"] (fresh settings_bound_0 None)) /\
    selected_class s'
      = selected_class (set_images ["a.png"] (fresh settings_bound_0 None)) /\
    same_session (set_images ["a.png"] (fresh settings_bound_0 None)) s'.
Proof.
  apply (nonpositive_bound_never_previews settings_bound_0 opens_3_2
           (set_images ["a.png"] (fresh settings_bound_0 None)) "a.png"
           (sound_image 3 2) 3 2);
    [simpl; lia | reflexivity | lia | lia | reflexivity | reflexivity].
Defined.

(** ** Navigation, press after press *)

Section Navigation.

Variable self : Settings.
Variable open_image : string -> string -> Py.result Image.t.

Lemma next_image_step (s : State) :
  images s <> [] -> 0 <= current_index s < Py.len (images s) ->
  next_image self open_image s
    = Returned (state_of (next_image self open_image s)) /\
  current_index (state_of (next_image self open_image s))
    = Z.min (current_index s + 1) (Py.len (images s) - 1) /\
  image_folder (state_of (next_image self open_image s)) = image_folder s /\
  images (state_of (next_image self open_image s)) = images s /\
  annotations (state_of (next_image self open_image s)) = annotations s /\
  store (state_of (next_image self open_image s)) = store s.
Proof.
  intros Hne Hc. unfold next_image.
  destruct (images s) as [| i0 l] eqn:Hi; [congruence |]. rewrite <- Hi in *.
  destruct (Z.ltb_spec (current_index s) (Py.len (images s) - 1)).
  - pose proof (display_image_frame self open_image
                  (set_current_index (current_index s + 1) s)) as (F1 & F2 & F3 & F4 & F5).
    cbn [image_folder images current_index annotations store set_current_index] in *.
    rewrite F1, F2, F3, F4, F5.
    split; [apply display_image_returns; unfold cursor_ok; simpl; lia |].
    repeat split; lia.
  - simpl. repeat split; lia.
Qed.

Lemma previous_image_step (s : State) :
  images s <> [] -> 0 <= current_index s < Py.len (images s) ->
  previous_image self open_image s
    = Returned (state_of (previous_image self open_image s)) /\
  current_index (state_of (previous_image self open_image s))
    = Z.max (current_index s - 1) 0 /\
  image_folder (state_of (previous_image self open_image s)) = image_folder s /\
  images (state_of (previous_image self open_image s)) = images s /\
  annotations (state_of (previous_image self open_image s)) = annotations s /\
  store (state_of (previous_image self open_image s)) = store s.
Proof.
  intros Hne Hc. unfold previous_image.
  destruct (images s) as [| i0 l] eqn:Hi; [congruence |]. rewrite <- Hi in *.
  destruct (Z.gtb_spec (current_index s) 0).
  - pose proof (display_image_frame self open_image
                  (set_current_index (current_index s - 1) s)) as (F1 & F2 & F3 & F4 & F5).
    cbn [image_folder images current_index annotations store set_current_index] in *.
    rewrite F1, F2, F3, F4, F5.
    split; [apply display_image_returns; unfold cursor_ok; simpl; lia |].
    repeat split; lia.
  - simpl. repeat split; lia.
Qed.

(** X8.  From any image of a non-empty list, [k] presses of the right
    arrow lead to the image [k] places further, or to the last one when
    there are fewer left; [k] presses of the left arrow lead [k] places
    back, or to the first one.  No press raises, and none changes the
    image list, the folder, an annotation or the store.  So every image can
    be reached, and a step forward then back returns to the same image
    unless the cursor was on the last one. *)
Theorem navigation_reaches_every_image (s : State) (k : nat) :
  images s <> [] -> 0 <= current_index s < Py.len (images s) ->
  (current_index (press_next self open_image k s)
     = Z.min (current_index s + Z.of_nat k) (Py.len (images s) - 1) /\
   current_index (press_previous self open_image k s)
     = Z.max (current_index s - Z.of_nat k) 0) /\
  (same_session (set_current_index (current_index (press_next self open_image k s)) s)
                (press_next self open_image k s) /\
   same_session (set_current_index (current_index (press_previous self open_image k s)) s)
                (press_previous self open_image k s)) /\
  (next_image self open_image (press_next self open_image k s)
     = Returned (press_next self open_image (S k) s) /\
   previous_image self open_image (press_previous self open_image k s)
     = Returned (press_previous self open_image (S k) s)) /\
  (current_index s < Py.len (images s) - 1 ->
   current_index (state_of (previous_image self open_image
                              (state_of (next_image self open_image s))))
     = current_index s).
Proof.
  intros Hne Hc.
  assert (Hn : forall j,
    let t := press_next self open_image j s in
    current_index t = Z.min (current_index s + Z.of_nat j) (Py.len (images s) - 1) /\
    image_folder t = image_folder s /\ images t = images s /\
    annotations t = annotations s /\ store t = store s).
  { induction j as [| j IH]; cbv zeta in *.
    - simpl. repeat split; lia.
    - destruct IH as (I1 & I2 & I3 & I4 & I5).
      change (press_next self open_image (S j) s)
        with (state_of (next_image self open_image (press_next self open_image j s))).
      set (t := press_next self open_image j s) in *.
      destruct (next_image_step t) as (_ & N2 & N3 & N4 & N5 & N6);
        [congruence | rewrite I3; lia |].
      rewrite N2, N3, N4, N5, N6, I1, I2, I3, I4, I5. repeat split; lia. }
  assert (Hp : forall j,
    let t := press_previous self open_image j s in
    current_index t = Z.max (current_index s - Z.of_nat j) 0 /\
    image_folder t = image_folder s /\ images t = images s /\
    annotations t = annotations s /\ store t = store s).
  { induction j as [| j IH]; cbv zeta in *.
    - simpl. repeat split; lia.
    - destruct IH as (I1 & I2 & I3 & I4 & I5).
      change (press_previous self open_image (S j) s)
        with (state_of (previous_image self open_image
                          (press_previous self open_image j s))).
      set (t := press_previous self open_image j s) in *.
      destruct (previous_image_step t) as (_ & N2 & N3 & N4 & N5 & N6);
        [congruence | rewrite I3; lia |].
      rewrite N2, N3, N4, N5, N6, I1, I2, I3, I4, I5. repeat split; lia. }
  destruct (Hn k) as (N1 & N2 & N3 & N4 & N5).
  destruct (Hp k) as (P1 & P2 & P3 & P4 & P5).
  split; [split; assumption |].
  split; [unfold same_session; simpl; auto 10 |].
  split.
  - split.
    + destruct (next_image_step (press_next self open_image k s)) as (R & _);
        [congruence | rewrite N3; lia | exact R].
    + destruct (previous_image_step (press_previous self open_image k s)) as (R & _);
        [congruence | rewrite P3; lia | exact R].
  - intros Hlast.
    destruct (next_image_step s Hne Hc) as (_ & A2 & _ & A4 & _).
    destruct (previous_image_step (state_of (next_image self open_image s)))
      as (_ & B2 & _); [congruence | rewrite A4; lia |].
    rewrite B2, A2. lia.
Qed.

End Navigation.

Lemma navigation_reaches_every_image_witness :
  (current_index (press_next settings_100_500 opens_but_broken 3 session_opened)
     = Z.min (current_index session_opened + Z.of_nat 3)
             (Py.len (images session_opened) - 1) /\
   current_index (press_previous settings_100_500 opens_but_broken 3 session_opened)
     = Z.max (current_index session_opened - Z.of_nat 3) 0) /\
  (same_session
     (set_current_index
        (current_index (press_next settings_100_500 opens_but_broken 3 session_opened))
        session_opened)
     (press_next settings_100_500 opens_but_broken 3 session_opened) /\
   same_session
     (set_current_index
        (current_index (press_previous settings_100_500 opens_but_broken 3 session_opened))
        session_opened)
     (press_previous settings_100_500 opens_but_broken 3 session_opened)) /\
  (next_image settings_100_500 opens_but_broken
     (press_next settings_100_500 opens_but_broken 3 session_opened)
     = Returned (press_next settings_100_500 opens_but_broken 4 session_opened) /\
   previous_image settings_100_500 opens_but_broken
     (press_previous settings_100_500 opens_but_broken 3 session_opened)
     = Returned (press_previous settings_100_500 opens_but_broken 4 session_opened)) /\
  (current_index session_opened < Py.len (images session_opened) - 1 ->
   current_index (state_of (previous_image settings_100_500 opens_but_broken
                              (state_of (next_image settings_100_500 opens_but_broken
                                           session_opened))))
     = current_index session_opened).
Proof.
  apply (navigation_reaches_every_image settings_100_500 opens_but_broken session_opened 3).
  - vm_compute. discriminate.
  - vm_compute. split; [discriminate | reflexivity].
Defined.

(** ** Class selection (on_class_selected, select_class_by_key) *)

Section ClassSelection.

Variable self : Settings.
Variable int : string -> option Z.
Variable open_image : string -> string -> Py.result Image.t.

Lemma on_class_selected_cases (s : State) :
  on_class_selected self s = Returned s \/
  (exists e, on_class_selected self s = Raised e s /\ current_image s = None) \/
  exists name, current_image s = Some name /\ images s <> [] /\ 0 <= selected_class s /\
    on_class_selected self s
    = and_then (save_annotations self (labelled s name))
               (fun t => Returned (refreshed self t)).
Proof.
  unfold on_class_selected, current_image.
  destruct (images s) as [| i0 l] eqn:Hi; [left; reflexivity |]. rewrite <- Hi.
  destruct (Z.geb_spec (selected_class s) 0); [| left; reflexivity].
  destruct (Py.index (images s) (current_index s)) as [name | e].
  - right. right. exists name. repeat split; [rewrite Hi; discriminate | lia].
  - right. left. exists e. split; reflexivity.
Qed.

Lemma on_class_selected_effective (s : State) (name : string) :
  images s <> [] -> 0 <= selected_class s -> current_image s = Some name ->
  on_class_selected self s
  = and_then (save_annotations self (labelled s name))
             (fun t => Returned (refreshed self t)).
Proof.
  intros Hi Hk Hn. unfold on_class_selected, current_image in *.
  destruct (images s) as [| i0 l] eqn:Himg; [congruence |]. rewrite <- Himg in *.
  destruct (Z.geb_spec (selected_class s) 0); [| lia].
  destruct (Py.index (images s) (current_index s)) as [name' | e]; [| discriminate].
  injection Hn as ->. reflexivity.
Qed.

Lemma save_annotations_outcome (s : State) :
  exists (raised : option Py.exn) (text : string),
    forall t, annotations t = annotations s ->
      save_annotations self t
      = match raised with
        | None => Returned (set_store (Some text) t)
        | Some e => Raised e (set_store (Some text) t)
        end.
Proof.
  unfold save_annotations.
  destruct (sorted_items (annotations s)) as [items | e] eqn:Hs.
  - destruct (write_items self items (Csv.writerow header)) as [[e |] f'] eqn:Hw.
    + exists (Some e), f'. intros t Ht. rewrite Ht, Hs, Hw. reflexivity.
    + exists None, f'. intros t Ht. rewrite Ht, Hs, Hw. reflexivity.
  - exists (Some e), (Csv.writerow header). intros t Ht. rewrite Ht, Hs. reflexivity.
Qed.

Lemma on_class_selected_state (s : State) :
  state_of (on_class_selected self s) = s \/
  exists name, current_image s = Some name /\ images s <> [] /\ 0 <= selected_class s /\
    (state_of (on_class_selected self s)
       = state_of (save_annotations self (labelled s name)) \/
     on_class_selected self s
       = Returned (refreshed self (state_of (save_annotations self (labelled s name))))).
Proof.
  destruct (on_class_selected_cases s) as [H | [(e & H & _) | (name & Hn & Hi & Hk & H)]].
  - left. rewrite H. reflexivity.
  - left. rewrite H. reflexivity.
  - right. exists name. repeat split; try assumption. rewrite H.
    destruct (save_annotations self (labelled s name)) as [t | e t]; simpl; auto.
Qed.

Lemma store_current_save (s : State) :
  store_current self (state_of (save_annotations self s)).
Proof.
  unfold store_current. symmetry.
  apply save_store_by_annotations. apply save_annotations_frame.
Qed.

Lemma store_current_same (s t : State) :
  annotations t = annotations s -> store t = store s ->
  store_current self s -> store_current self t.
Proof.
  unfold store_current. intros Ha Hs H. rewrite Hs, H.
  apply save_store_by_annotations. symmetry. exact Ha.
Qed.

Lemma store_current_on_class_selected (s : State) :
  store_current self s -> store_current self (state_of (on_class_selected self s)).
Proof.
  intros Hs.
  destruct (on_class_selected_state s) as [-> | (name & _ & _ & _ & [-> | ->])].
  - exact Hs.
  - apply store_current_save.
  - apply (store_current_same (state_of (save_annotations self (labelled s name))));
      [reflexivity | reflexivity | apply store_current_save].
Qed.

(** X9.  No callback changes the annotations without rewriting the store:
    once the store holds what [save_annotations] writes for the
    annotations in memory, it does so after every callback, whether it
    returns or raises; saving, and any class selection that passes the
    guard of [on_class_selected], bring the store to that point. *)
Theorem store_follows_annotations (s : State) :
  store_current self (state_of (save_annotations self s)) /\
  (forall k, images s <> [] -> 0 <= k -> current_image s <> None ->
     store_current self (state_of (select_class_by_key self k s))) /\
  (forall a, store_current self s ->
     store_current self (state_of (run self open_image a s))).
Proof.
  split; [apply store_current_save |]. split.
  - intros k Hi Hk Hc. unfold select_class_by_key.
    destruct (current_image s) as [name |] eqn:Hname; [| congruence].
    rewrite (on_class_selected_effective (set_selected_class k s) name);
      [| exact Hi | exact Hk | exact Hname].
    pose proof (store_current_save (labelled (set_selected_class k s) name)) as Hcur.
    destruct (save_annotations self (labelled (set_selected_class k s) name))
      as [t | e t]; simpl in *; [| exact Hcur].
    apply (store_current_same t); [reflexivity | reflexivity | exact Hcur].
  - intros a Hs. destruct a as [folder listing | | | k | |]; cbn [run].
    + unfold select_folder. destruct folder as [| c folder]; [exact Hs |].
      pose proof (load_images_spec self open_image listing
                    (set_image_folder (String c folder) s)) as (_ & H2 & H3 & _).
      apply (store_current_same s); [exact H2 | exact H3 | exact Hs].
    + unfold previous_image. destruct (images s); [exact Hs |].
      destruct (current_index s >? 0); [| exact Hs].
      match goal with |- context [display_image self open_image ?t] =>
        pose proof (display_image_frame self open_image t) as (_ & _ & _ & H4 & H5) end.
      apply (store_current_same s); [exact H4 | exact H5 | exact Hs].
    + unfold next_image. destruct (images s); [exact Hs |].
      destruct (current_index s <? _); [| exact Hs].
      match goal with |- context [display_image self open_image ?t] =>
        pose proof (display_image_frame self open_image t) as (_ & _ & _ & H4 & H5) end.
      apply (store_current_same s); [exact H4 | exact H5 | exact Hs].
    + unfold select_class_by_key. apply store_current_on_class_selected.
      apply (store_current_same s); [reflexivity | reflexivity | exact Hs].
    + apply store_current_on_class_selected. exact Hs.
    + apply store_current_save.
Qed.

Lemma display_image_stats (s : State) :
  stats_labels (state_of (display_image self open_image s)) = stats_labels s.
Proof.
  unfold display_image.
  destruct (images s) as [| i0 l]; [reflexivity |].
  destruct (Py.index (i0 :: l) (current_index s)) as [name |]; [| reflexivity].
  destruct (open_image (image_folder s) name) as [img |]; [| reflexivity].
  destruct (left_pane self img) as [pane |]; [| reflexivity].
  destruct (right_pane self img) as [[rw rh] |]; [| reflexivity].
  simpl. destruct (annotations s !! Some name); reflexivity.
Qed.

Lemma statistics_current_same (s t : State) :
  annotations t = annotations s -> stats_labels t = stats_labels s ->
  statistics_current self s -> statistics_current self t.
Proof.
  unfold statistics_current, update_statistics. cbn [stats_labels set_stats_labels].
  intros -> ->. auto.
Qed.

Lemma init_statistics_current (file : option string) (s : State) :
  init self int file = Returned s -> statistics_current self s.
Proof.
  unfold init.
  destruct (load_previous_annotations int (fresh self file)) as [t | e t];
    simpl; [| discriminate].
  intros [= <-]. reflexivity.
Qed.

(** X10.  The statistics panel is in step with the annotations: it shows
    the counts of the annotations in memory when start-up returns, and
    still does after every callback that returns. *)
Theorem statistics_follow_annotations :
  (forall file s, init self int file = Returned s -> statistics_current self s) /\
  (forall a s s', statistics_current self s ->
     run self open_image a s = Returned s' -> statistics_current self s').
Proof.
  split.
  - apply init_statistics_current.
  - intros a s s' Hs Hrun.
    assert (Hsame : forall t, annotations t = annotations s ->
              stats_labels t = stats_labels s -> statistics_current self t).
    { intros t Ha Hl. apply (statistics_current_same s); assumption. }
    assert (Hon : forall t, annotations t = annotations s ->
              stats_labels t = stats_labels s ->
              on_class_selected self t = Returned s' -> statistics_current self s').
    { intros t Ha Hl Hret.
      destruct (on_class_selected_cases t) as [H | [(e & H & _) | (name & _ & _ & _ & H)]].
      - rewrite H in Hret. injection Hret as <-. apply Hsame; assumption.
      - rewrite H in Hret. discriminate.
      - rewrite H in Hret.
        destruct (save_annotations self (labelled t name)) as [u | e u];
          simpl in Hret; [| discriminate].
        injection Hret as <-. reflexivity. }
    destruct a as [folder listing | | | k | |]; cbn [run] in Hrun.
    + unfold select_folder in Hrun.
      destruct folder as [| c folder]; [injection Hrun as <-; exact Hs |].
      apply (f_equal state_of) in Hrun. simpl in Hrun. subst s'.
      pose proof (load_images_spec self open_image listing
                    (set_image_folder (String c folder) s)) as (_ & H2 & _).
      apply Hsame; [exact H2 |].
      unfold load_images. cbn [images set_images].
      destruct (merge_sort _ _); [reflexivity |].
      rewrite display_image_stats. reflexivity.
    + apply (f_equal state_of) in Hrun. simpl in Hrun. subst s'.
      unfold previous_image. destruct (images s); [exact Hs |].
      destruct (current_index s >? 0); [| exact Hs].
      match goal with |- context [display_image self open_image ?t] =>
        pose proof (display_image_frame self open_image t) as (_ & _ & _ & H4 & _) end.
      apply Hsame; [exact H4 | rewrite display_image_stats; reflexivity].
    + apply (f_equal state_of) in Hrun. simpl in Hrun. subst s'.
      unfold next_image. destruct (images s); [exact Hs |].
      destruct (current_index s <? _); [| exact Hs].
      match goal with |- context [display_image self open_image ?t] =>
        pose proof (display_image_frame self open_image t) as (_ & _ & _ & H4 & _) end.
      apply Hsame; [exact H4 | rewrite display_image_stats; reflexivity].
    + apply (Hon (set_selected_class k s)); [reflexivity | reflexivity | exact Hrun].
    + apply (Hon s); [reflexivity | reflexivity | exact Hrun].
    + destruct (save_annotations_outcome s) as ([e |] & text & Hsave);
        rewrite (Hsave s eq_refl) in Hrun; [discriminate |].
      injection Hrun as <-. apply Hsame; reflexivity.
Qed.

(** X11.  A callback changes the annotation of no image but the one under
    the cursor, and removes none: what is recorded for another key is
    recorded unchanged afterwards, and a key that had a class still has
    one. *)
Theorem only_current_image_relabelled (a : action) (s : State) (key : option string) :
  ((forall name, current_image s = Some name -> key <> Some name) ->
   annotations (state_of (run self open_image a s)) !! key = annotations s !! key) /\
  (is_Some (annotations s !! key) ->
   is_Some (annotations (state_of (run self open_image a s)) !! key)).
Proof.
  assert (Hon : forall t, annotations t = annotations s -> current_image t = current_image s ->
    ((forall name, current_image s = Some name -> key <> Some name) ->
     annotations (state_of (on_class_selected self t)) !! key = annotations s !! key) /\
    (is_Some (annotations s !! key) ->
     is_Some (annotations (state_of (on_class_selected self t)) !! key))).
  { intros t Ha Hc.
    assert (Hlab : forall name, current_image t = Some name ->
              annotations (state_of (save_annotations self (labelled t name)))
              = <[Some name := selected_class t]> (annotations s)).
    { intros name _.
      pose proof (save_annotations_frame self (labelled t name)) as (_ & _ & _ & H4 & _).
      rewrite H4. unfold labelled. cbn [annotations set_annotations]. rewrite Ha.
      reflexivity. }
    destruct (on_class_selected_state t) as [-> | (name & Hn & _ & _ & [-> | ->])].
    - rewrite Ha. auto.
    - rewrite (Hlab name Hn). split.
      + intros Hne. apply lookup_insert_ne. intros <-. apply (Hne name); congruence.
      + intros Hsome. destruct (decide (Some name = key)) as [<- | Hne].
        * rewrite lookup_insert_eq. eauto.
        * rewrite lookup_insert_ne by exact Hne. exact Hsome.
    - cbn [state_of]. unfold refreshed, update_statistics.
      cbn [annotations set_progress_label set_stats_labels].
      rewrite (Hlab name Hn). split.
      + intros Hne. apply lookup_insert_ne. intros <-. apply (Hne name); congruence.
      + intros Hsome. destruct (decide (Some name = key)) as [<- | Hne].
        * rewrite lookup_insert_eq. eauto.
        * rewrite lookup_insert_ne by exact Hne. exact Hsome. }
  assert (Hsame : forall t, annotations t = annotations s ->
    ((forall name, current_image s = Some name -> key <> Some name) ->
     annotations t !! key = annotations s !! key) /\
    (is_Some (annotations s !! key) -> is_Some (annotations t !! key))).
  { intros t ->. auto. }
  destruct a as [folder listing | | | k | |]; cbn [run].
  - unfold select_folder. destruct folder as [| c folder]; [apply Hsame; reflexivity |].
    pose proof (load_images_spec self open_image listing
                  (set_image_folder (String c folder) s)) as (_ & H2 & _).
    apply Hsame. exact H2.
  - unfold previous_image. destruct (images s); [apply Hsame; reflexivity |].
    destruct (current_index s >? 0); [| apply Hsame; reflexivity].
    match goal with |- context [display_image self open_image ?t] =>
      pose proof (display_image_frame self open_image t) as (_ & _ & _ & H4 & _) end.
    apply Hsame. exact H4.
  - unfold next_image. destruct (images s); [apply Hsame; reflexivity |].
    destruct (current_index s <? _); [| apply Hsame; reflexivity].
    match goal with |- context [display_image self open_image ?t] =>
      pose proof (display_image_frame self open_image t) as (_ & _ & _ & H4 & _) end.
    apply Hsame. exact H4.
  - apply (Hon (set_selected_class k s)); reflexivity.
  - apply (Hon s); reflexivity.
  - apply Hsame. apply save_annotations_frame.
Qed.

End ClassSelection.

(** ** Labels: recording, overwriting, restarting *)

Lemma current_image_images (s : State) (name : string) :
  current_image s = Some name -> images s <> [].
Proof.
  unfold current_image. intros H Hi. rewrite Hi, index_nil in H. discriminate.
Qed.

Lemma resolvable_class (self : Settings) (k : Z) :
  0 <= k < Py.len (classes self) -> resolvable self k = true.
Proof.
  intros Hk. unfold resolvable. apply andb_true_intro.
  split; [apply Z.leb_le | apply Z.ltb_lt]; unfold Py.len in *; lia.
Qed.

Lemma filenames_only_insert (m : gmap (option string) Z) (name : string) (k : Z) :
  filenames_only m -> filenames_only (<[Some name := k]> m).
Proof. unfold filenames_only. intros H. rewrite lookup_insert_ne by discriminate. exact H. Qed.

Lemma first_error_none (self : Settings) (l : list (string * Z)) :
  first_error self l = None <-> forallb (writable self) l = true.
Proof.
  induction l as [| e l IH]; simpl; [tauto |].
  destruct (writable self e); simpl; [exact IH |]. split; discriminate.
Qed.

Lemma first_error_some (self : Settings) (l : list (string * Z)) (e : Py.exn) :
  first_error self l = Some e ->
  (length (written_prefix self l) < length l)%nat /\
  (e = Py.IndexError "list index out of range" \/
   exists msg, e = Py.UnicodeEncodeError msg).
Proof.
  induction l as [| x l IH]; simpl; [discriminate |].
  destruct (writable self x); simpl.
  - intros H. destruct (IH H) as [Hl He]. split; [lia | exact He].
  - unfold row_error. intros [= <-]. split; [lia |].
    destruct (resolvable self (snd x)); eauto.
Qed.

(** The file name of a row that UTF-8 encodes is UTF-8. *)
Lemma row_text_name_valid (self : Settings) (f : string) (k : Z) :
  Utf8.valid (row_text self (f, k)) = true -> Utf8.valid f = true.
Proof.
  unfold row_text. cbn [fst snd]. rewrite writerow_three. intros H.
  apply field_text_valid_inv.
  exact (valid_before_ascii _ _ Py.COMMA ltac:(vm_compute; reflexivity) H).
Qed.

Section Labels.

Variable self : Settings.
Variable int : string -> option Z.


(** A class selection that passes the guard, on annotations keyed by
    filenames: the class is recorded, the store rewritten up to the first
    row that cannot be written; when there is none, statistics and
    progress are refreshed. *)
Lemma select_class_by_key_effective (s : State) (name : string) (k : Z) :
  current_image s = Some name -> 0 <= k -> filenames_only (annotations s) ->
  select_class_by_key self k s
  = (match first_error self (entries (<[Some name := k]> (annotations s))) with
     | None => fun t => Returned (refreshed self t)
     | Some e => Raised e
     end)
      (set_store
         (Some (Csv.writerow header
                +:+ rows_text self
                      (written_prefix self
                         (entries (<[Some name := k]> (annotations s))))))
         (set_annotations (<[Some name := k]> (annotations s))
            (set_selected_class k s))).
Proof.
  intros Hname Hk Hn. unfold select_class_by_key.
  rewrite (on_class_selected_effective self (set_selected_class k s) name);
    [| exact (current_image_images s name Hname) | simpl; lia | exact Hname].
  rewrite (save_annotations_written self (labelled (set_selected_class k s) name)
             (filenames_only_insert _ name k Hn)).
  unfold labelled. cbn [annotations selected_class set_selected_class set_annotations].
  destruct (first_error _ _); reflexivity.
Qed.

(** X13.  The last selection wins.  For annotations keyed by filenames and
    class names that UTF-8 encodes, selecting a class of the list erases
    whatever an earlier selection did on the same state: selecting [j] and
    then [k] ends as selecting [k] alone does, in outcome and in every
    part of the state, whether the selection of [j] returned, raised or
    was ignored. *)
Theorem last_selection_wins (s : State) (j k : Z) :
  0 <= k < Py.len (classes self) -> filenames_only (annotations s) ->
  Forall (fun c => Utf8.valid c = true) (classes self) ->
  select_class_by_key self k (state_of (select_class_by_key self j s))
  = select_class_by_key self k s.
Proof.
  intros Hk Hn Hc.
  destruct (on_class_selected_cases self (set_selected_class j s))
    as [H | [(e & H & _) | (name & Hname & Hi & Hj & _)]].
  - unfold select_class_by_key at 2. rewrite H. reflexivity.
  - unfold select_class_by_key at 2. rewrite H. reflexivity.
  - change (current_image (set_selected_class j s)) with (current_image s) in Hname.
    cbn [selected_class set_selected_class] in Hj.
    assert (Hins : <[Some name := k]> (<[Some name := j]> (annotations s))
                   = <[Some name := k]> (annotations s)) by apply insert_insert_eq.
    rewrite (select_class_by_key_effective s name j Hname Hj Hn).
    rewrite (select_class_by_key_effective s name k Hname ltac:(lia) Hn).
    destruct (first_error self (entries (<[Some name := j]> (annotations s))))
      as [e |] eqn:Hj_ok; cbn [state_of].
    + rewrite (select_class_by_key_effective _ name k);
        [| exact Hname | lia | apply filenames_only_insert; exact Hn].
      cbn [annotations set_store set_annotations].
      rewrite Hins.
      destruct (first_error self (entries (<[Some name := k]> (annotations s))));
        reflexivity.
    + (* the first selection was saved: so is the second *)
      assert (Hk_ok : first_error self (entries (<[Some name := k]> (annotations s)))
                      = None).
      { apply first_error_none. apply first_error_none in Hj_ok.
        rewrite forallb_forall in Hj_ok |- *. intros [f v] Hin.
        apply list_elem_of_In, elem_of_entries in Hin.
        destruct (decide (f = name)) as [-> | Hne].
        - rewrite lookup_insert_eq in Hin. injection Hin as <-.
          assert (Hjrow : writable self (name, j) = true).
          { apply Hj_ok, list_elem_of_In, elem_of_entries, lookup_insert_eq. }
          unfold writable in *. cbn [snd] in *.
          apply andb_prop in Hjrow as [_ Hjv].
          rewrite (resolvable_class self k Hk). cbn [andb].
          apply (row_text_valid self name k Hc);
            [exact (row_text_name_valid self name j Hjv) | apply resolvable_class; exact Hk].
        - rewrite lookup_insert_ne in Hin by congruence.
          apply Hj_ok, list_elem_of_In, elem_of_entries.
          rewrite lookup_insert_ne by congruence. exact Hin. }
      rewrite (select_class_by_key_effective _ name k);
        [| exact Hname | lia | apply filenames_only_insert; exact Hn].
      cbn [annotations refreshed set_progress_label update_statistics set_stats_labels
           set_store set_annotations].
      rewrite Hins, Hk_ok. reflexivity.
Qed.

(** X14.  A class selection made while the annotations hold an index
    outside the class list, or made with such an index: the class is
    recorded in memory, then saving raises out of the callback.  The store
    is left with the rows sorted before the first row that cannot be
    written, the statistics and the progress label are not refreshed, and
    saving again raises again.  With file names and class names that UTF-8
    encodes, the exception is [IndexError] and the rows in the store are
    those sorted before the first index outside the class list; otherwise
    it can be the [UnicodeEncodeError] of an earlier row. *)
Theorem class_selection_unsaved (s : State) (name : string) (k : Z) :
  current_image s = Some name -> 0 <= k -> filenames_only (annotations s) ->
  (exists f v, <[Some name := k]> (annotations s) !! Some f = Some v /\
               resolvable self v = false) ->
  exists e s',
    select_class_by_key self k s = Raised e s' /\
    annotations s' = <[Some name := k]> (annotations s) /\
    selected_class s' = k /\
    stats_labels s' = stats_labels s /\ progress_label s' = progress_label s /\
    store s' = Some (Csv.writerow header
                     +:+ rows_text self (written_prefix self (entries (annotations s')))) /\
    (length (written_prefix self (entries (annotations s')))
     < length (entries (annotations s')))%nat /\
    save_annotations self s' = Raised e s' /\
    (e = Py.IndexError "list index out of range" \/
     exists msg, e = Py.UnicodeEncodeError msg) /\
    (encodable self (annotations s') ->
     e = Py.IndexError "list index out of range" /\
     written_prefix self (entries (annotations s'))
       = resolved_prefix self (entries (annotations s'))).
Proof.
  intros Hname Hk Hn (f & v & Hfv & Hv).
  set (m := <[Some name := k]> (annotations s)) in *.
  assert (Hunres : forallb (fun e => resolvable self (snd e)) (entries m) = false).
  { apply not_true_is_false. intros H. rewrite forallb_resolvable in H.
    rewrite (H f v Hfv) in Hv. discriminate. }
  assert (Hbad : exists e, first_error self (entries m) = Some e).
  { destruct (first_error self (entries m)) as [e |] eqn:He; [eauto |].
    exfalso. apply first_error_none in He.
    rewrite forallb_forall in He.
    assert (Hw : writable self (f, v) = true).
    { apply He, list_elem_of_In, elem_of_entries. exact Hfv. }
    unfold writable in Hw. cbn [snd] in Hw. rewrite Hv in Hw. discriminate. }
  destruct Hbad as [e Hbad].
  rewrite (select_class_by_key_effective s name k Hname Hk Hn).
  fold m. rewrite Hbad.
  destruct (first_error_some self _ e Hbad) as [Hshort Hkind].
  exists e. eexists. split; [reflexivity |].
  split; [reflexivity |]. split; [reflexivity |]. split; [reflexivity |].
  split; [reflexivity |]. split; [reflexivity |].
  split; [exact Hshort |].
  split.
  { rewrite save_annotations_written by (apply filenames_only_insert; exact Hn).
    cbn [annotations set_store set_annotations]. fold m. rewrite Hbad. reflexivity. }
  split; [exact Hkind |].
  cbn [annotations set_store set_annotations]. intros Hem.
  destruct (encodable_entries self m Hem) as [Hc Hl].
  destruct (encodable_rows self _ Hc Hl) as [H1 H2].
  rewrite Hbad, Hunres in H1. split; [congruence | exact H2].
Qed.


End Labels.

Lemma session_opened_current : current_image session_opened = Some "a.png".
Proof. vm_compute. reflexivity. Qed.

Lemma session_opened_unlabelled (f : string) (v : Z) :
  annotations session_opened !! Some f = Some v ->
  resolvable settings_100_500 v = true /\ no_cr f = true /\
  int_digit (Py.str v) = Some v.
Proof.
  replace (annotations session_opened) with (∅ : gmap (option string) Z)
    by (vm_compute; reflexivity).
  rewrite lookup_empty. discriminate.
Qed.

Lemma session_opened_encodable : encodable settings_100_500 (annotations session_opened).
Proof.
  split; [repeat constructor |].
  replace (annotations session_opened) with (∅ : gmap (option string) Z)
    by (vm_compute; reflexivity).
  intros f v. rewrite lookup_empty. discriminate.
Qed.


Lemma last_selection_wins_witness :
  select_class_by_key settings_100_500 0
    (state_of (select_class_by_key settings_100_500 7 session_opened))
  = select_class_by_key settings_100_500 0 session_opened.
Proof.
  apply (last_selection_wins settings_100_500 session_opened 7 0).
  - vm_compute. split; [discriminate | reflexivity].
  - reflexivity.
  - repeat constructor.
Defined.

Lemma class_selection_unsaved_witness :
  exists e s',
    select_class_by_key settings_100_500 7 session_opened = Raised e s' /\
    annotations s' = <[Some "a.png" := 7]> (annotations session_opened) /\
    selected_class s' = 7 /\
    stats_labels s' = stats_labels session_opened /\
    progress_label s' = progress_label session_opened /\
    store s' = Some (Csv.writerow header
                     +:+ rows_text settings_100_500
                           (written_prefix settings_100_500 (entries (annotations s')))) /\
    (length (written_prefix settings_100_500 (entries (annotations s')))
     < length (entries (annotations s')))%nat /\
    save_annotations settings_100_500 s' = Raised e s' /\
    (e = Py.IndexError "list index out of range" \/
     exists msg, e = Py.UnicodeEncodeError msg) /\
    (encodable settings_100_500 (annotations s') ->
     e = Py.IndexError "list index out of range" /\
     written_prefix settings_100_500 (entries (annotations s'))
       = resolved_prefix settings_100_500 (entries (annotations s'))).
Proof.
  apply (class_selection_unsaved settings_100_500 session_opened "a.png" 7).
  - exact session_opened_current.
  - lia.
  - reflexivity.
  - exists "a.png", 7. split; [apply lookup_insert_eq | reflexivity].
Defined.


(** ** The window: what the operator can do *)

Lemma window_action_cases (self : Settings) (a : action) :
  window_action self a ->
  (exists folder listing, a = SelectFolder folder listing) \/
  a = PreviousImage \/ a = NextImage \/ a = SaveAnnotations \/
  exists i name, classes self !! i = Some name /\ a = SelectClassByKey (Z.of_nat i).
Proof.
  intros [(text & callback & folder & listing & Hin & ->) | [Hin | Hin]].
  - unfold buttons in Hin.
    repeat (apply elem_of_cons in Hin as [[= -> ->] | Hin]; [eauto 10 |]).
    apply elem_of_nil in Hin. contradiction.
  - apply list_elem_of_fmap in Hin as ([text b] & -> & Hin).
    unfold radio_buttons in Hin.
    apply elem_of_lookup_imap in Hin as (i & name & [= _ ->] & Hi).
    right. right. right. right. eauto.
  - apply list_elem_of_fmap in Hin as ([key b] & -> & Hin).
    unfold key_bindings in Hin. apply elem_of_app in Hin as [Hin | Hin].
    + repeat (apply elem_of_cons in Hin as [[= -> ->] | Hin]; [auto 10 |]).
      apply elem_of_nil in Hin. contradiction.
    + apply list_elem_of_fmap in Hin as (i & [= _ ->] & Hin).
      apply elem_of_seq in Hin.
      destruct (lookup_lt_is_Some_2 (classes self) (i - 1)) as [name Hname]; [lia |].
      right. right. right. right. exists (i - 1)%nat, name.
      split; [exact Hname |]. simpl. f_equal. lia.
Qed.

Section Window.

Variable self : Settings.
Variable int : string -> option Z.
Variable open_image : string -> string -> Py.result Image.t.

Lemma in_order_same (s t : State) :
  images t = images s -> current_index t = current_index s ->
  annotations t = annotations s -> in_order self s -> in_order self t.
Proof.
  unfold in_order, cursor_ok. intros -> -> ->. auto.
Qed.

Lemma in_order_display (s : State) :
  in_order self s ->
  exists s', display_image self open_image s = Returned s' /\ in_order self s'.
Proof.
  intros (Hc & Hrest). eexists. split; [apply display_image_returns; exact Hc |].
  pose proof (display_image_frame self open_image s) as (_ & F2 & F3 & F4 & _).
  unfold in_order, cursor_ok in *. rewrite F2, F3, F4. auto.
Qed.

Lemma all_writable (m : gmap (option string) Z) :
  encodable self m ->
  (forall f v, m !! Some f = Some v -> resolvable self v = true) ->
  first_error self (entries m) = None.
Proof.
  intros He Hr. destruct (encodable_entries self m He) as [Hc Hl].
  destruct (encodable_rows self _ Hc Hl) as [-> _].
  apply forallb_resolvable in Hr. rewrite Hr. reflexivity.
Qed.

(** X16.  The window offers valid actions only, and they never raise.  Each
    class selection a radio button or a digit key makes is for a class of
    the list: key [i] and radio button [i] select the class at index
    [i - 1].  A first run, without a store, starts in order.  With class
    names that UTF-8 encodes, in a session in order (cursor in the list,
    annotations keyed by filenames, indices of the class list, file names
    that are UTF-8), whatever the window runs on folders whose file names
    are UTF-8 returns without raising and leaves the session in order,
    given a folder that can be listed and a store that can be written. *)
Theorem window_session_never_raises :
  (forall a, window_action self a ->
     match a with
     | SelectClassByKey k => 0 <= k < Py.len (classes self)
     | OnClassSelected => False
     | _ => True
     end) /\
  (forall i name, classes self !! i = Some name ->
     (Py.str (Z.of_nat i + 1), SelectClassByKey (Z.of_nat i)) ∈ key_bindings self /\
     (Py.str (Z.of_nat i + 1) +:+ ". " +:+ name, SelectClassByKey (Z.of_nat i))
       ∈ radio_buttons self) /\
  (exists s, init self int None = Returned s /\ in_order self s) /\
  (Forall (fun c => Utf8.valid c = true) (classes self) ->
   forall a s, window_action self a -> well_named a -> in_order self s ->
     exists s', run self open_image a s = Returned s' /\ in_order self s').
Proof.
  split; [| split; [| split]].
  - intros a Ha.
    destruct (window_action_cases self a Ha)
      as [(folder & listing & ->) | [-> | [-> | [-> | (i & name & Hi & ->)]]]];
      try exact I.
    apply lookup_lt_Some in Hi. unfold Py.len. lia.
  - intros i name Hi. split.
    + unfold key_bindings. apply elem_of_app. right.
      apply list_elem_of_fmap. exists (S i). split.
      * f_equal; [f_equal; lia | f_equal; lia].
      * apply elem_of_seq. apply lookup_lt_Some in Hi. lia.
    + unfold radio_buttons. apply elem_of_lookup_imap. exists i, name.
      split; [reflexivity | exact Hi].
  - eexists. split; [reflexivity |].
    unfold in_order, cursor_ok, filenames_only. simpl.
    split; [congruence |]. split; [reflexivity |].
    split; [intros f v H; rewrite lookup_empty in H; discriminate |].
    split; [intros f v H; rewrite lookup_empty in H; discriminate | constructor].
  - intros Hcls a s Ha Hwn Hord.
    pose proof Hord as (Hc & Hn & Hv & Hkeys & Himgs).
    assert (Hres : forall f v, annotations s !! Some f = Some v -> resolvable self v = true).
    { intros f v Hfv. apply resolvable_class. apply (Hv f v Hfv). }
    destruct (window_action_cases self a Ha)
      as [(folder & listing & ->) | [-> | [-> | [-> | (i & name & Hi & ->)]]]];
      cbn [run].
    + unfold select_folder. destruct folder as [| c folder].
      { exists s. split; [reflexivity | exact Hord]. }
      unfold load_images. cbn [images set_images].
      assert (Hsorted : Forall (fun f => Utf8.valid f = true)
                (merge_sort str_le (filter (fun f => is_image_name f = true) listing))).
      { rewrite merge_sort_Permutation. apply Forall_forall. intros f Hf.
        apply list_elem_of_filter in Hf as [_ Hf].
        cbn [well_named] in Hwn. rewrite Forall_forall in Hwn. auto. }
      destruct (merge_sort _ _) as [| i0 l] eqn:Hs.
      * eexists. split; [reflexivity |].
        unfold in_order, cursor_ok. simpl. split; [congruence | auto].
      * apply in_order_display.
        unfold in_order, cursor_ok, Py.len. simpl.
        split; [simpl; lia | auto].
    + unfold previous_image. destruct (images s) as [| i0 l] eqn:Hi.
      { exists s. split; [reflexivity | exact Hord]. }
      destruct (Z.gtb_spec (current_index s) 0).
      * apply in_order_display.
        unfold in_order, cursor_ok in *. simpl. rewrite Hi in *.
        split; [| auto].
        intros _. specialize (Hc ltac:(discriminate)). lia.
      * exists s. split; [reflexivity | exact Hord].
    + unfold next_image. destruct (images s) as [| i0 l] eqn:Hi.
      { exists s. split; [reflexivity | exact Hord]. }
      destruct (Z.ltb_spec (current_index s) (Py.len (i0 :: l) - 1)).
      * apply in_order_display.
        unfold in_order, cursor_ok in *. simpl. rewrite Hi in *.
        split; [| auto].
        intros _. specialize (Hc ltac:(discriminate)). lia.
      * exists s. split; [reflexivity | exact Hord].
    + rewrite (save_annotations_resolvable self s Hn (conj Hcls Hkeys) Hres).
      eexists. split; [reflexivity |]. unfold in_order. auto.
    + assert (Hk : 0 <= Z.of_nat i < Py.len (classes self)).
      { apply lookup_lt_Some in Hi. unfold Py.len. lia. }
      destruct (decide (images s = [])) as [Himg | Himg].
      { unfold select_class_by_key, on_class_selected.
        cbn [images set_selected_class]. rewrite Himg.
        eexists. split; [reflexivity |].
        unfold in_order, cursor_ok. simpl. rewrite Himg. split; [congruence | auto]. }
      destruct (index_in_range (images s) (current_index s)) as (cur & Hcur & Hlook).
      { apply Hc. exact Himg. }
      assert (Hname : current_image s = Some cur).
      { unfold current_image. rewrite Hcur. reflexivity. }
      assert (Hcurv : Utf8.valid cur = true).
      { rewrite Forall_forall in Himgs. apply Himgs.
        apply list_elem_of_lookup. eauto. }
      rewrite (select_class_by_key_effective self s cur (Z.of_nat i) Hname ltac:(lia) Hn).
      assert (Hall : forall f v, <[Some cur := Z.of_nat i]> (annotations s) !! Some f = Some v ->
                0 <= v < Py.len (classes self)).
      { intros f v. destruct (decide (f = cur)) as [-> | Hne].
        - rewrite lookup_insert_eq. intros [= <-]. exact Hk.
        - rewrite lookup_insert_ne by congruence. apply Hv. }
      assert (Hallv : forall f v, <[Some cur := Z.of_nat i]> (annotations s) !! Some f = Some v ->
                Utf8.valid f = true).
      { intros f v. destruct (decide (f = cur)) as [-> | Hne].
        - intros _. exact Hcurv.
        - rewrite lookup_insert_ne by congruence. apply Hkeys. }
      rewrite all_writable;
        [| split; [exact Hcls | exact Hallv]
         | intros f v Hfv; apply resolvable_class; apply (Hall f v Hfv)].
      eexists. split; [reflexivity |].
      unfold in_order.
      cbn [images current_index annotations refreshed set_progress_label
           update_statistics set_stats_labels set_store set_annotations
           set_selected_class].
      split; [exact Hc |]. split; [apply filenames_only_insert; exact Hn |].
      split; [exact Hall |]. split; [exact Hallv | exact Himgs].
Qed.

End Window.

(** ** Start-up: what the operator is told *)

Lemma load_config_raises (file : config_file) (e : Py.exn) :
  load_config file = Py.Raise e ->
  is_configuration_error e = true \/ exists error, file = Unreadable error.
Proof.
  destruct file as [path | error | error | config]; simpl.
  - intros [= <-]. left. reflexivity.
  - intros [= <-]. left. reflexivity.
  - intros _. right. eauto.
  - unfold require.
    destruct (config !! "classes") as [cls |]; simpl; [| intros [= <-]; left; reflexivity].
    destruct cls as [| b | n | x | t | l | fields];
      try (intros [= <-]; left; reflexivity).
    destruct (Py.len l =? 0); [intros [= <-]; left; reflexivity |].
    destruct (Py.len l >? 9); [intros [= <-]; left; reflexivity |].
    destruct (config !! "annotations_file"); simpl; [| intros [= <-]; left; reflexivity].
    destruct (config !! "resized_image_size"); simpl; [| intros [= <-]; left; reflexivity].
    destruct (config !! "max_original_display_size"); simpl;
      [discriminate | intros [= <-]; left; reflexivity].
Qed.

Section StartUp.

Variable int : string -> option Z.

Lemma row_entry_raises (fieldnames record : list string) (e : Py.exn) :
  row_entry int fieldnames record = Py.Raise e -> is_configuration_error e = true.
Proof.
  unfold row_entry.
  destruct (Csv.getitem fieldnames record "class_index") as [[text |] |];
    try (intros [= <-]; reflexivity).
  destruct (int text); [| intros [= <-]; reflexivity].
  destruct (Csv.getitem fieldnames record "filename"); [discriminate |].
  intros [= <-]. reflexivity.
Qed.

Lemma load_rows_stops (fieldnames : list string) (before after : list (list string))
    (row : list string) (es : list (option string * Z)) (e : Py.exn) (s : State) :
  row_entries int fieldnames before = Py.Ok es ->
  row_entry int fieldnames row = Py.Raise e ->
  load_rows int fieldnames (before ++ row :: after)%list s
  = Raised e (set_annotations
                (foldl (fun m kv => <[fst kv := snd kv]> m) (annotations s) es) s).
Proof.
  revert es s. induction before as [| r before IH]; intros es s; simpl.
  - intros [= <-] ->. destruct s; reflexivity.
  - destruct (row_entry int fieldnames r) as [[k n] |]; simpl; [| discriminate].
    destruct (row_entries int fieldnames before) as [es' |]; simpl; [| discriminate].
    intros [= <-] He. rewrite (IH es' _ eq_refl He). reflexivity.
Qed.

Lemma load_rows_raises (fieldnames : list string) (rows : list (list string))
    (s s' : State) (e : Py.exn) :
  load_rows int fieldnames rows s = Raised e s' -> is_configuration_error e = true.
Proof.
  revert s. induction rows as [| r rows IH]; intros s; simpl; [discriminate |].
  destruct (row_entry int fieldnames r) as [[k n] | e'] eqn:Hr.
  - apply IH.
  - intros [= <- _]. apply (row_entry_raises _ _ _ Hr).
Qed.

Lemma yielded_total (lines : list string) (p : Csv.parser) :
  Forall (fun line => newline_last line = true) lines ->
  Csv.st p <> Csv.EAT_CRNL ->
  exists recs, Csv.yielded p lines = Py.Ok recs.
Proof.
  intros Hl. revert p. induction Hl as [| line lines Hline _ IH]; intros p Hs; simpl.
  - eauto.
  - destruct (feed_line_total line p Hline Hs) as (p' & -> & Hs'). simpl.
    destruct (Csv.is_start_record (Csv.st p')).
    + destruct (IH Csv.parse_reset) as (recs & ->); [simpl; discriminate |].
      simpl. eauto.
    + apply IH. exact Hs'.
Qed.

Lemma complete_lines_yielded (text : string) :
  exists recs, Csv.yielded Csv.parse_reset (TextIO.complete_lines text) = Py.Ok recs.
Proof.
  apply yielded_total; [| simpl; discriminate].
  unfold TextIO.complete_lines. apply Forall_forall. intros line Hin.
  apply list_elem_of_filter in Hin as [_ Hin].
  pose proof (readlines_newline_last _
                (universal_newlines_no_cr false (TextIO.without_last_cr text))) as H.
  rewrite Forall_forall in H. auto.
Qed.

Lemma read_fault_kind (content text : string) (e : Py.exn) :
  TextIO.read_fault content = Some (text, e) -> is_configuration_error e = true.
Proof.
  unfold TextIO.read_fault.
  destruct (Utf8.scan [] 0 content) as [ft | [| x l]]; [| discriminate |];
    intros [= _ <-]; reflexivity.
Qed.

Lemma init_raises (self : Settings) (file_text : option string) (e : Py.exn) (s : State) :
  init self int file_text = Raised e s -> is_configuration_error e = true.
Proof.
  unfold init, load_previous_annotations. cbn [store fresh].
  destruct file_text as [content |]; [| discriminate].
  destruct (TextIO.read_fault content) as [[text e0] |] eqn:Hf.
  { destruct (complete_lines_yielded text) as [recs ->].
    destruct (Csv.dict_rows recs) as [fieldnames rows].
    destruct (load_rows int fieldnames rows _) as [t | e' t] eqn:Hl; simpl.
    - intros [= <- _]. apply (read_fault_kind _ _ _ Hf).
    - intros [= <- _]. apply (load_rows_raises _ _ _ _ _ Hl). }
  rewrite reader_total.
  destruct (Csv.dict_rows (store_records content)) as [fieldnames rows].
  destruct (load_rows int fieldnames rows _) as [t | e' t] eqn:Hl; simpl; [discriminate |].
  intros [= <- _]. apply (load_rows_raises _ _ _ _ _ Hl).
Qed.


(** X18.  What [main] tells the operator.  A configuration file that is
    missing, is no JSON, or holds a JSON object [load_config] rejects ends
    start-up with the error box "Configuration Error" showing the text of
    the exception; for a missing key that text is the message between
    double quotes, the [repr] a [KeyError] prints.  A configuration file
    that cannot be read, and a window that cannot be created, are printed
    as "UNEXPECTED ERROR" instead.  With no window for the error box, the
    text is printed under "CONFIGURATION ERROR". *)
Theorem main_reports_configuration (tk_again : bool) (file : config_file)
    (file_text : option string) (e : Py.exn) :
  load_config file = Py.Raise e ->
  main None tk_again int file file_text = Some (report tk_again e) /\
  ((forall error, file <> Unreadable error) ->
   report true e = ErrorBox "Configuration Error" (str_exn e) /\
   report false e = Printed (String Py.LF "CONFIGURATION ERROR"
                             +:+ String Py.LF (str_exn e) +:+ String Py.LF EmptyString)) /\
  (forall error, file = Unreadable error ->
   report tk_again e
   = Printed (String Py.LF "UNEXPECTED ERROR"
              +:+ String Py.LF ("Error reading configuration file: " +:+ error)
              +:+ String Py.LF EmptyString)) /\
  (forall key, key ∈ required_keys ->
   str_exn (Py.KeyError (required_msg key))
   = String Py.QUOTE (required_msg key +:+ String Py.QUOTE EmptyString)) /\
  (forall error,
   main (Some error) tk_again int file file_text
   = Some (Printed (String Py.LF "UNEXPECTED ERROR"
                    +:+ String Py.LF error +:+ String Py.LF EmptyString))).
Proof.
  intros He. split; [unfold main; rewrite He; reflexivity |].
  split.
  { intros Hread. destruct (load_config_raises file e He) as [Hc | [error ->]];
      [| exfalso; apply (Hread error); reflexivity].
    unfold report. rewrite Hc. split; reflexivity. }
  split.
  { intros error ->. simpl in He. injection He as <-. reflexivity. }
  split.
  { intros key Hkey. unfold required_keys in Hkey.
    repeat (apply elem_of_cons in Hkey as [-> | Hkey]; [vm_compute; reflexivity |]).
    apply elem_of_nil in Hkey. contradiction. }
  intros error. reflexivity.
Qed.


End StartUp.


Lemma main_reports_configuration_witness :
  main None true int_digit (Absent "config.json") None
    = Some (report true (Py.FileNotFoundError (not_found_msg "config.json"))) /\
  ((forall error, Absent "config.json" <> Unreadable error) ->
   report true (Py.FileNotFoundError (not_found_msg "config.json"))
     = ErrorBox "Configuration Error"
         (str_exn (Py.FileNotFoundError (not_found_msg "config.json"))) /\
   report false (Py.FileNotFoundError (not_found_msg "config.json"))
     = Printed (String Py.LF "CONFIGURATION ERROR"
                +:+ String Py.LF
                      (str_exn (Py.FileNotFoundError (not_found_msg "config.json")))
                +:+ String Py.LF EmptyString)) /\
  (forall error, Absent "config.json" = Unreadable error ->
   report true (Py.FileNotFoundError (not_found_msg "config.json"))
   = Printed (String Py.LF "UNEXPECTED ERROR"
              +:+ String Py.LF ("Error reading configuration file: " +:+ error)
              +:+ String Py.LF EmptyString)) /\
  (forall key, key ∈ required_keys ->
   str_exn (Py.KeyError (required_msg key))
   = String Py.QUOTE (required_msg key +:+ String Py.QUOTE EmptyString)) /\
  (forall error,
   main (Some error) true int_digit (Absent "config.json") None
   = Some (Printed (String Py.LF "UNEXPECTED ERROR"
                    +:+ String Py.LF error +:+ String Py.LF EmptyString))).
Proof.
  apply (main_reports_configuration int_digit true (Absent "config.json") None).
  reflexivity.
Defined.

